(** * AllVersionsExporter: a shallow embedding of [AllVersionsExporter.py]

    The development follows the source file top-down: Python strings and
    paths, [hashlib.sha256], the [Counter] dataclass, the data served by
    the Fusion 360 API, the output filesystem, every function of the
    exporter from [sanitize_filename] to [main], and the inputs of the
    command dialog through which the event handlers reach [main]. *)

From Stdlib Require Import ZArith Lia String Ascii.
From stdpp Require Import gmap list.

Local Open Scope Z_scope.

(** * Python strings

    A Python [str] is a sequence of code points.  Code points in
    [0xD800 .. 0xDFFF] (lone surrogates) are legal elements of a [str]
    but have no UTF-8 encoding. *)

Module PyStr.

Abbreviation str := (list Z).

(** A literal of the source, given as a Rocq string of ASCII characters. *)
Definition lit (s : string) : str :=
  (fun a => Z.of_N (N_of_ascii a)) <$> list_ascii_of_string s.

Definition str_eqb (a b : str) : bool := bool_decide (a = b).

(** [str(n)] for a Python [int]. *)
Fixpoint digits (fuel : nat) (n : Z) (acc : str) : str :=
  match fuel with
  | O => acc
  | S fuel' =>
      let acc' := (48 + n mod 10) :: acc in
      if n <? 10 then acc' else digits fuel' (n / 10) acc'
  end.

Definition str_of_int (n : Z) : str :=
  if n <? 0 then 45 :: digits (Z.to_nat (Z.log2_up (- n)) + 1) (- n) []
  else digits (Z.to_nat (Z.log2_up n) + 1) n [].

(** [str.isspace] for one character, the test behind [str.strip()]. *)
Definition isspace (c : Z) : bool :=
  ((9 <=? c) && (c <=? 13)) || ((28 <=? c) && (c <=? 32))
  || (c =? 133) || (c =? 160) || (c =? 5760)
  || ((8192 <=? c) && (c <=? 8202))
  || (c =? 8232) || (c =? 8233) || (c =? 8239) || (c =? 8287) || (c =? 12288).

Fixpoint lstrip (s : str) : str :=
  match s with
  | c :: s' => if isspace c then lstrip s' else s
  | [] => []
  end.

Definition strip (s : str) : str := rev (lstrip (rev (lstrip s))).

(** [str.join]. *)
Fixpoint join (sep : str) (parts : list str) : str :=
  match parts with
  | [] => []
  | [p] => p
  | p :: ps => p ++ sep ++ join sep ps
  end.

(** [str.encode()] with the default codec, UTF-8, error handler [strict]:
    [None] stands for [UnicodeEncodeError]. *)
Definition encode_char (c : Z) : option (list Z) :=
  if (c <? 0) then None
  else if c <? 128 then Some [c]
  else if c <? 2048 then
    Some [Z.lor 192 (Z.shiftr c 6); Z.lor 128 (Z.land c 63)]
  else if c <? 65536 then
    if (55296 <=? c) && (c <=? 57343) then None
    else Some [Z.lor 224 (Z.shiftr c 12);
               Z.lor 128 (Z.land (Z.shiftr c 6) 63);
               Z.lor 128 (Z.land c 63)]
  else if c <? 1114112 then
    Some [Z.lor 240 (Z.shiftr c 18);
          Z.lor 128 (Z.land (Z.shiftr c 12) 63);
          Z.lor 128 (Z.land (Z.shiftr c 6) 63);
          Z.lor 128 (Z.land c 63)]
  else None.

Fixpoint encode (s : str) : option (list Z) :=
  match s with
  | [] => Some []
  | c :: s' =>
      match encode_char c, encode s' with
      | Some b, Some bs => Some (b ++ bs)
      | _, _ => None
      end
  end.

(** The text has an encoding: writing it to a text file does not raise
    [UnicodeEncodeError]. *)
Definition encodable (s : str) : bool :=
  match encode s with Some _ => true | None => false end.

End PyStr.
Export PyStr.

(** * [hashlib.sha256]

    FIPS 180-4 SHA-256 on a list of bytes; 32-bit words are integers with
    the wrap-around written out. *)

Module Sha256.

Definition w32 (x : Z) : Z := x mod 4294967296.
Definition add32 (a b : Z) : Z := w32 (a + b).
Definition rotr (n x : Z) : Z :=
  Z.lor (Z.shiftr x n) (w32 (Z.shiftl x (32 - n))).
Definition not32 (x : Z) : Z := 4294967295 - x.

Definition Ch (x y z : Z) : Z := Z.lxor (Z.land x y) (Z.land (not32 x) z).
Definition Maj (x y z : Z) : Z :=
  Z.lxor (Z.lxor (Z.land x y) (Z.land x z)) (Z.land y z).
Definition Sigma0 (x : Z) : Z :=
  Z.lxor (Z.lxor (rotr 2 x) (rotr 13 x)) (rotr 22 x).
Definition Sigma1 (x : Z) : Z :=
  Z.lxor (Z.lxor (rotr 6 x) (rotr 11 x)) (rotr 25 x).
Definition sigma0 (x : Z) : Z :=
  Z.lxor (Z.lxor (rotr 7 x) (rotr 18 x)) (Z.shiftr x 3).
Definition sigma1 (x : Z) : Z :=
  Z.lxor (Z.lxor (rotr 17 x) (rotr 19 x)) (Z.shiftr x 10).

(** The round constants are the first 32 bits of the fractional parts of
    the cube roots of the first 64 primes, the initial hash value those of
    the square roots of the first 8 primes. *)
Definition is_prime (n : Z) : bool :=
  (1 <? n) && forallb (λ d, negb (n mod Z.of_nat d =? 0)) (seq 2 (Z.to_nat n - 2)).

Definition primes : list Z := filter (λ n, is_prime n = true) (Z.of_nat <$> seq 2 310).

(** The integer cube root, one bit at a time from bit 34 down. *)
Definition cube_root (n : Z) : Z :=
  foldl (λ r i, let r' := r + 2 ^ Z.of_nat i in
                if r' * r' * r' <=? n then r' else r) 0 (rev (seq 0 35)).

Definition K : list Z :=
  Eval vm_compute in (λ p, w32 (cube_root (p * 2 ^ 96))) <$> take 64 primes.

Definition H0 : list Z :=
  Eval vm_compute in (λ p, w32 (Z.sqrt (p * 2 ^ 64))) <$> take 8 primes.

(** Padding: a [1] bit, zeros up to 56 mod 64 bytes, the bit length on
    64 bits, big-endian. *)
Definition be_bytes (n : nat) (x : Z) : list Z :=
  (fun i => Z.land (Z.shiftr x (8 * Z.of_nat i)) 255) <$> rev (seq 0 n).

Definition pad (msg : list Z) : list Z :=
  let len := Z.of_nat (length msg) in
  let zeros := Z.to_nat ((55 - len) mod 64) in
  msg ++ [128] ++ replicate zeros 0 ++ be_bytes 8 ((8 * len) mod 2 ^ 64).

Fixpoint words (bs : list Z) : list Z :=
  match bs with
  | a :: b :: c :: d :: bs' =>
      (Z.shiftl a 24 + Z.shiftl b 16 + Z.shiftl c 8 + d) :: words bs'
  | _ => []
  end.

Fixpoint chunks (fuel : nat) (ws : list Z) : list (list Z) :=
  match fuel, ws with
  | S fuel', _ :: _ => take 16 ws :: chunks fuel' (drop 16 ws)
  | _, _ => []
  end.

(** The message schedule, extended one word at a time from 16 to 64. *)
Definition schedule_step (w : list Z) : list Z :=
  let i := length w in
  let g k := nth (i - k) w 0 in
  w ++ [add32 (add32 (add32 (sigma1 (g 2%nat)) (g 7%nat)) (sigma0 (g 15%nat)))
              (g 16%nat)].

Definition schedule (block : list Z) : list Z :=
  Nat.iter 48 schedule_step block.

Definition round (st : list Z) (kw : Z * Z) : list Z :=
  match st with
  | [a; b; c; d; e; f; g; h] =>
      let t1 := add32 (add32 (add32 (add32 h (Sigma1 e)) (Ch e f g)) kw.1) kw.2 in
      let t2 := add32 (Sigma0 a) (Maj a b c) in
      [add32 t1 t2; a; b; c; add32 d t1; e; f; g]
  | _ => st
  end.

Definition compress (h : list Z) (block : list Z) : list Z :=
  zip_with add32 h (foldl round h (zip K (schedule block))).

Definition digest_words (msg : list Z) : list Z :=
  let ws := words (pad msg) in
  foldl compress H0 (chunks (length ws) ws).

Definition hex_digit (d : Z) : Z := if d <? 10 then 48 + d else 87 + d.

Definition hex_word (w : Z) : str :=
  (fun i => hex_digit (Z.land (Z.shiftr w (4 * Z.of_nat i)) 15)) <$> rev (seq 0 8).

(** [hashlib.sha256(msg).hexdigest()] *)
Definition hexdigest (msg : list Z) : str :=
  digest_words msg ≫= hex_word.

End Sha256.

(** * [class Counter]

    A dataclass of three Python [int]s (unbounded, hence [Z]). *)

Module Counter.

Record t := mk { saved : Z; skipped : Z; errored : Z }.

(** [Counter()]: every field defaults to 0. *)
Definition zero : t := mk 0 0 0.

Definition __add__ (self other : t) : t :=
  mk (saved self + saved other)
     (skipped self + skipped other)
     (errored self + errored other).

(** [__iadd__] updates [self] field by field and returns it; the value is
    the new content of the object. *)
Definition __iadd__ (self other : t) : t :=
  let self := mk (saved self + saved other) (skipped self) (errored self) in
  let self := mk (saved self) (skipped self + skipped other) (errored self) in
  let self := mk (saved self) (skipped self) (errored self + errored other) in
  self.

(** [counter.saved += n], [counter.skipped += n], [counter.errored += n] *)
Definition add_saved (n : Z) (c : t) : t := mk (saved c + n) (skipped c) (errored c).
Definition add_skipped (n : Z) (c : t) : t := mk (saved c) (skipped c + n) (errored c).
Definition add_errored (n : Z) (c : t) : t := mk (saved c) (skipped c) (errored c + n).

End Counter.

Abbreviation Counter := Counter.t.

(** The spec's names for the Result Counter operations. *)
Definition merge : Counter → Counter → Counter := Counter.__add__.
Definition saved1 : Counter := Counter.mk 1 0 0.     (* Counter(saved=1) *)
Definition skipped1 : Counter := Counter.mk 0 1 0.   (* Counter(skipped=1) *)
Definition errored1 : Counter := Counter.mk 0 0 1.

(** * [class Format(Enum)] *)

Inductive Format := F3D | STEP | STL | IGES | SAT | SMT.

Module Format.
Definition value (f : Format) : str :=
  match f with
  | F3D => lit "f3d" | STEP => lit "step" | STL => lit "stl"
  | IGES => lit "igs" | SAT => lit "sat" | SMT => lit "smt"
  end.
End Format.

Definition DEFAULT_SELECTED_FORMATS : list Format := [F3D; STEP].

(** * [pathlib.Path]

    A path is the list of its components below the filesystem root.  The
    operands of [/] in this program are outputs of [sanitize_filename],
    possibly with a suffix, so they hold no separator and are one
    component; as in [pathlib], an empty or ["."] operand adds nothing. *)

Abbreviation Path := (list str).

Definition truediv (p : Path) (s : str) : Path :=
  if bool_decide (s = [] ∨ s = lit ".") then p else p ++ [s].

Infix "//" := truediv (at level 40, left associativity).

Definition parent (p : Path) : Path := removelast p.

(** * What the Fusion 360 API serves

    The objects of [adsk] are read-only inputs of the exporter.  A call of
    the API that may fail carries its outcome as data. *)

(** Outcome of [ExportManager.execute] and of [Sketch.saveAsDXF]: the call
    raises, returns [False] without writing, or writes the file. *)
Inductive Outcome := Raises | ReturnsFalse | Succeeds.

Module Sketch.
Record t := mk { name : str; saveAsDXF : Outcome }.
End Sketch.

#[local] Unset Elimination Schemes.

Module Component.
(** [occurrences] pairs each occurrence's [name] with its [component]. *)
Inductive t := mk (name : str) (sketches : list Sketch.t)
                  (occurrences : list (str * t)).
Definition name (c : t) : str := let 'mk n _ _ := c in n.
Definition sketches (c : t) : list Sketch.t := let 'mk _ s _ := c in s.
Definition occurrences (c : t) : list (str * t) := let 'mk _ _ o := c in o.
End Component.

(** The argument of [ExportManager.execute], one constructor for each
    [create...ExportOptions] of the source. *)
Inductive ExportOptions :=
| FusionArchiveExportOptions (filename : Path)
| STLExportOptions (geometry : Component.t) (filename : Path)
| STEPExportOptions (filename : Path)
| IGESExportOptions (filename : Path)
| SATExportOptions (filename : Path)
| SMTExportOptions (filename : Path).

Module Design.
(** [exportManager] gives, for each format, how creating the options and
    executing them ends. *)
Record t := mk { rootComponent : Component.t; exportManager : Format → Outcome }.
End Design.

Module Document.
(** [activate] and [close] tell whether the call returns ([true]) or
    raises; [design] is [FusionDocument.cast(document).design], absent
    when the cast yields [None]. *)
Record t := mk { activate : bool; design : option Design.t; close : bool }.
End Document.

Module DataFile.
(** [document] is what [app.documents.open(file)] returns, [None] when it
    raises.  [versions] is [file.versions.asArray()]. *)
Inductive t := mk (name : str) (versionNumber : Z) (fileExtension : str)
                  (description : str) (dateCreated : Z)
                  (document : option Document.t) (versions : list t).
Definition name (f : t) : str := let 'mk x _ _ _ _ _ _ := f in x.
Definition versionNumber (f : t) : Z := let 'mk _ x _ _ _ _ _ := f in x.
Definition fileExtension (f : t) : str := let 'mk _ _ x _ _ _ _ := f in x.
Definition description (f : t) : str := let 'mk _ _ _ x _ _ _ := f in x.
Definition dateCreated (f : t) : Z := let 'mk _ _ _ _ x _ _ := f in x.
Definition document (f : t) : option Document.t := let 'mk _ _ _ _ _ x _ := f in x.
Definition versions (f : t) : list t := let 'mk _ _ _ _ _ _ x := f in x.
End DataFile.

Module DataFolder.
(** [dataFiles] and [dataFolders] are [None] when reading the property
    raises. *)
Inductive t := mk (name : str) (dataFiles : option (list DataFile.t))
                  (dataFolders : option (list t)).
Definition name (f : t) : str := let 'mk x _ _ := f in x.
Definition dataFiles (f : t) : option (list DataFile.t) := let 'mk _ x _ := f in x.
Definition dataFolders (f : t) : option (list t) := let 'mk _ _ x := f in x.
End DataFolder.

#[local] Set Elimination Schemes.

Module DataProject.
Record t := mk { name : str; rootFolder : DataFolder.t }.
End DataProject.

Module Application.
(** [dataProjects] is [app.data.dataProjects]. *)
Record t := mk { dataProjects : list DataProject.t }.
End Application.

(** * [class Ctx(NamedTuple)] *)

Module Ctx.
Record t := mk {
  folder : Path;
  formats : list Format;
  app : Application.t;
  projects : gset str;
  unhide_all : bool;
  save_sketches : bool;
  save_all_versions : bool }.

Definition extend (self : t) (other : str) : t :=
  mk (folder self // other) (formats self) (app self) (projects self)
     (unhide_all self) (save_sketches self) (save_all_versions self).
End Ctx.

Abbreviation Ctx := Ctx.t.

(** * The world the exporter runs in *)

(** Exceptions ([except Exception] catches every one of them). *)
Inductive Exn :=
| FileNotFoundError | FileExistsError | NotADirectoryError | IsADirectoryError
| UnicodeEncodeError | AttributeError | OSError
| RuntimeError.   (* raised by the Fusion 360 API *)

(** One line of the log file, before formatting. *)
Inductive LogMsg :=
| LogOpening (name : str)
| LogClosing (name : str)
| LogBadChars (name with_replacement : str)
| LogExists (output_path : Path)
| LogExportingSketch (sketch component : str) (output_path : Path)
| LogTraceback (e : Exn)
| LogSaved (output_path : Path)
| LogCreated (output_path : Path)
| LogUpdated (output_path : Path)
| LogVisitingVersion (name : str) (versionNumber : Z) (fileExtension : str)
| LogNotHandled (name fileExtension : str)
| LogVisitingFile (name fileExtension : str) (versionNumber : Z)
| LogExceptionVisitingFile (e : Exn)
| LogVisitingFolder (name : str).

(** Requests made to the API, in the order they are made.  A document is
    named by the file version it was opened from. *)
Inductive Call :=
| DocumentsOpen (name : str) (versionNumber : Z)
| DocumentActivate (name : str) (versionNumber : Z)
| DocumentClose (name : str) (versionNumber : Z)
| LightBulbsOn (component : str)
| OccurrenceLightBulbOn (occurrence : str)
| Execute (options : ExportOptions)
| SaveAsDXF (sketch : str) (filename : Path).

(** A node of the output filesystem.  The content of a text file is the
    text written to it; exported artefacts are written empty, their
    content is not modelled.  Paths are compared as on a case-sensitive
    POSIX filesystem, and text files are read and written as there
    ([os.linesep] is ["\n"], the codec is UTF-8); a text that has been
    written is read back as it was. *)
Inductive Node := Dir | File (content : str).

#[global] Instance Node_eq_dec : EqDecision Node.
Proof. solve_decision. Defined.

(** [fs] is the filesystem, [heap] holds the [_document] attribute of every
    [LazyDocument] created so far, [calls] the API requests, [log_fh] the
    lines printed by [log], [now] the reading of the clock as
    ['{:%Y_%m_%d_%H_%M}'.format(datetime.now())]. *)
Record World := mkWorld {
  fs : gmap Path Node;
  heap : list (option Document.t);
  calls : list Call;
  log_fh : list LogMsg;
  now : str }.

Definition set_fs (f : gmap Path Node → gmap Path Node) (w : World) : World :=
  mkWorld (f (fs w)) (heap w) (calls w) (log_fh w) (now w).
Definition set_heap (f : list (option Document.t) → list (option Document.t))
    (w : World) : World :=
  mkWorld (fs w) (f (heap w)) (calls w) (log_fh w) (now w).

(** The root of the filesystem is a directory. *)
Definition node_at (m : gmap Path Node) (p : Path) : option Node :=
  match p with [] => Some Dir | _ => m !! p end.

Definition is_dir (m : gmap Path Node) (p : Path) : bool :=
  match node_at m p with Some Dir => true | _ => false end.

(** ** The monad of the exporter: state and exceptions

    A raised exception keeps the state reached so far. *)

Inductive Res (A : Type) := Ok (a : A) | Raise (e : Exn).
Arguments Ok {A} a.
Arguments Raise {A} e.

Definition M (A : Type) : Type := World → Res A * World.

#[global] Instance M_ret : MRet M := λ A a w, (Ok a, w).
#[global] Instance M_bind : MBind M := λ A B f m w,
  match m w with
  | (Ok a, w') => f a w'
  | (Raise e, w') => (Raise e, w')
  end.

Definition raise {A} (e : Exn) : M A := λ w, (Raise e, w).

(** [try: body / except Exception: handler] *)
Definition try_except {A} (body : M A) (handler : Exn → M A) : M A := λ w,
  match body w with
  | (Ok a, w') => (Ok a, w')
  | (Raise e, w') => handler e w'
  end.

(** [for x in xs: acc = body(x, acc)] *)
Fixpoint for_each {A S} (xs : list A) (body : A → S → M S) (acc : S) : M S :=
  match xs with
  | [] => mret acc
  | x :: xs' => acc' ← body x acc; for_each xs' body acc'
  end.

Definition gets {A} (f : World → A) : M A := λ w, (Ok (f w), w).
Definition modify (f : World → World) : M unit := λ w, (Ok tt, f w).

(** [log(...)]: the log file is open (see [init_logging]) and the line is
    recorded.  [print] encodes the line for the file and raises
    [UnicodeEncodeError] on a line that has no encoding; the lines a run
    records tell whether that happens, see [log_takes]. *)
Definition log (m : LogMsg) : M unit :=
  modify (λ w, mkWorld (fs w) (heap w) (calls w) (log_fh w ++ [m]) (now w)).

Definition call (c : Call) : M unit :=
  modify (λ w, mkWorld (fs w) (heap w) (calls w ++ [c]) (log_fh w) (now w)).

(** ** Filesystem operations *)

(** [Path.exists()] *)
Definition path_exists (p : Path) : M bool :=
  gets (λ w, bool_decide (is_Some (node_at (fs w) p))).

(** [os.mkdir(p)] with [exist_ok=True] *)
Definition mkdir (p : Path) : M unit := λ w,
  match node_at (fs w) p with
  | Some Dir => (Ok tt, w)
  | Some (File _) => (Raise FileExistsError, w)
  | None =>
      match node_at (fs w) (parent p) with
      | Some Dir => (Ok tt, set_fs <[p := Dir]> w)
      | Some (File _) => (Raise NotADirectoryError, w)
      | None => (Raise FileNotFoundError, w)
      end
  end.

(** [Path.mkdir(exist_ok=True, parents=True)]: the ancestors are created
    from the root down; [done] is the part of the path already checked. *)
Fixpoint mkdir_from (done rest : Path) (m : gmap Path Node) : Exn + gmap Path Node :=
  match rest with
  | [] => inr m
  | c :: rest' =>
      let q := done ++ [c] in
      match m !! q with
      | Some Dir => mkdir_from q rest' m
      | Some (File _) =>
          inl (match rest' with [] => FileExistsError | _ => NotADirectoryError end)
      | None => mkdir_from q rest' (<[q := Dir]> m)
      end
  end.

Definition mkdir_parents (p : Path) : M unit := λ w,
  match mkdir_from [] p (fs w) with
  | inr m => (Ok tt, set_fs (λ _, m) w)
  | inl e => (Raise e, w)
  end.

(** [open(p, 'w')]: create or truncate. *)
Definition open_w (p : Path) : M unit := λ w,
  match node_at (fs w) p with
  | Some Dir => (Raise IsADirectoryError, w)
  | Some (File _) => (Ok tt, set_fs <[p := File []]> w)
  | None =>
      match node_at (fs w) (parent p) with
      | Some Dir => (Ok tt, set_fs <[p := File []]> w)
      | Some (File _) => (Raise NotADirectoryError, w)
      | None => (Raise FileNotFoundError, w)
      end
  end.

(** [open(p, 'a+')]: create when missing, keep the content. *)
Definition open_a (p : Path) : M unit := λ w,
  match node_at (fs w) p with
  | Some Dir => (Raise IsADirectoryError, w)
  | Some (File _) => (Ok tt, w)
  | None =>
      match node_at (fs w) (parent p) with
      | Some Dir => (Ok tt, set_fs <[p := File []]> w)
      | Some (File _) => (Raise NotADirectoryError, w)
      | None => (Raise FileNotFoundError, w)
      end
  end.

(** [f.write(text)] on a file opened for appending: the text is encoded
    before anything reaches the file. *)
Definition write_a (p : Path) (text : str) : M unit := λ w,
  match node_at (fs w) p with
  | Some (File c) =>
      if encodable text then (Ok tt, set_fs <[p := File (c ++ text)]> w)
      else (Raise UnicodeEncodeError, w)
  | _ => (Raise OSError, w)
  end.

(** Reading in text mode translates ["\r\n"] and ["\r"] to ["\n"]. *)
Fixpoint universal_newlines (s : str) : str :=
  match s with
  | 13 :: 10 :: s' => 10 :: universal_newlines s'
  | 13 :: s' => 10 :: universal_newlines s'
  | c :: s' => c :: universal_newlines s'
  | [] => []
  end.

(** [f.readlines()]: the lines with their ["\n"]; [cur] is the current
    line, reversed. *)
Fixpoint split_lines (cur : str) (s : str) : list str :=
  match s with
  | [] => match cur with [] => [] | _ => [rev cur] end
  | c :: s' =>
      if c =? 10 then rev (c :: cur) :: split_lines [] s'
      else split_lines (c :: cur) s'
  end.

(** [open(p, 'r')] followed by [f.readlines()] *)
Definition readlines (p : Path) : M (list str) := λ w,
  match node_at (fs w) p with
  | Some (File c) => (Ok (split_lines [] (universal_newlines c)), w)
  | Some Dir => (Raise IsADirectoryError, w)
  | None => (Raise FileNotFoundError, w)
  end.

(** The file an export writes.  The exporter calls the API with a path
    that does not exist, in a directory it has just created; the API
    cannot write over a directory or into a missing one. *)
Definition write_artifact (p : Path) : M unit := λ w,
  match node_at (fs w) p, node_at (fs w) (parent p) with
  | Some Dir, _ => (Raise RuntimeError, w)
  | _, Some Dir => (Ok tt, set_fs <[p := File []]> w)
  | _, _ => (Raise RuntimeError, w)
  end.

(** * The exporter *)

(** [init_directory(name)]: [directory.mkdir(exist_ok=True)] *)
Definition init_directory (name : Path) : M Path :=
  mkdir name;; mret name.

(** [init_logging(directory)] opens the log file for writing; from then on
    [log] prints to it. *)
Definition init_logging (directory : Path) : M unit :=
  stamp ← gets now;
  open_w (directory // (stamp ++ lit ".txt")).

Definition design_from_document (document : option Document.t) : M Design.t :=
  match document ≫= Document.design with
  | Some design => mret design
  | None => raise AttributeError
  end.

(** The light-bulb flags are set on the component and its bodies, then on
    each occurrence and, recursively, its component.  The bodies are not
    part of the data: the assignments to a component and to its bodies
    are recorded as one request, and the API takes every assignment. *)
Fixpoint unhide_all_in_component (component : Component.t) : M unit :=
  let 'Component.mk name _ occurrences := component in
  call (LightBulbsOn name);;
  (fix each (l : list (str * Component.t)) : M unit :=
     match l with
     | [] => mret tt
     | (oname, ocomponent) :: l' =>
         call (OccurrenceLightBulbOn oname);;
         unhide_all_in_component ocomponent;;
         each l'
     end) occurrences.

Definition unhide_all_in_document (document : Document.t) : M unit :=
  design ← design_from_document (Some document);
  unhide_all_in_component (Design.rootComponent design).

(** ** [class LazyDocument] *)

Module LazyDocument.

(** [_document] is the address, in the heap, of the attribute the methods
    read and assign. *)
Record t := mk { _ctx : Ctx; _file : DataFile.t; _document : nat }.

Definition get_document (self : t) : M (option Document.t) :=
  gets (λ w, mjoin (heap w !! _document self)).

Definition set_document (self : t) (d : option Document.t) : M unit :=
  modify (set_heap <[_document self := d]>).

(** [LazyDocument(ctx, file)] *)
Definition __init__ (ctx : Ctx) (file : DataFile.t) : M t :=
  a ← gets (λ w, length (heap w));
  modify (set_heap (λ h, h ++ [None]));;
  mret (mk ctx file a).

Definition open (self : t) : M unit :=
  d ← get_document self;
  match d with
  | Some _ => mret tt
  | None =>
      let file := _file self in
      log (LogOpening (DataFile.name file));;
      call (DocumentsOpen (DataFile.name file) (DataFile.versionNumber file));;
      document ← match DataFile.document file with
                 | Some document => mret document
                 | None => raise RuntimeError
                 end;
      set_document self (Some document);;
      call (DocumentActivate (DataFile.name file) (DataFile.versionNumber file));;
      (if Document.activate document then mret tt else raise RuntimeError);;
      if Ctx.unhide_all (_ctx self) then unhide_all_in_document document
      else mret tt
  end.

Definition close (self : t) : M unit :=
  d ← get_document self;
  match d with
  | None => mret tt
  | Some document =>
      let file := _file self in
      log (LogClosing (DataFile.name file));;
      call (DocumentClose (DataFile.name file) (DataFile.versionNumber file));;
      if Document.close document then mret tt else raise RuntimeError
  end.

Definition design (self : t) : M Design.t :=
  d ← get_document self; design_from_document d.

Definition rootComponent (self : t) : M Component.t :=
  d ← design self; mret (Design.rootComponent d).

End LazyDocument.

(** ** [sanitize_filename] *)

(** The character class [[:\\/*?<>|]] *)
Definition bad_char (c : Z) : bool :=
  bool_decide (c ∈ [58; 92; 47; 42; 63; 60; 62; 124]).

(** [re.sub(r'[:\\/*?<>|]', ' ', name)] *)
Definition re_sub_bad (name : str) : str :=
  (λ c, if bad_char c then 32 else c) <$> name.

(** [hashlib.sha256(name.encode()).hexdigest()[:8]] *)
Definition hash8 (name : str) : option str :=
  b ← encode name; Some (take 8 (Sha256.hexdigest b)).

Definition sanitize_filename (name : str) : M str :=
  let with_replacement := re_sub_bad name in
  if str_eqb name with_replacement then mret name
  else
    log (LogBadChars name with_replacement);;
    hash ← match hash8 name with
           | Some h => mret h
           | None => raise UnicodeEncodeError
           end;
    mret (with_replacement ++ lit "_" ++ hash).

Definition export_filename (ctx : Ctx) (format : Format) (file : DataFile.t) : M Path :=
  sanitized ← sanitize_filename (DataFile.name file);
  let name := sanitized ++ lit "_v" ++ str_of_int (DataFile.versionNumber file)
                        ++ lit "." ++ Format.value format in
  mret (Ctx.folder ctx // sanitized // name).

(** An API call that writes [output_path] when it succeeds. *)
Definition api_write (c : Call) (o : Outcome) (output_path : Path) : M unit :=
  call c;;
  match o with
  | Raises => raise RuntimeError
  | ReturnsFalse => mret tt
  | Succeeds => write_artifact output_path
  end.

(** ** [export_sketches] *)

Definition export_sketch (ctx : Ctx) (component_name : str)
    (sketch : Sketch.t) (counter : Counter) : M Counter :=
  sanitized ← sanitize_filename (Sketch.name sketch);
  let output_path := Ctx.folder ctx // (sanitized ++ lit ".dxf") in
  ex ← path_exists output_path;
  if (ex : bool) then
    log (LogExists output_path);;
    mret (Counter.add_skipped 1 counter)
  else
    log (LogExportingSketch (Sketch.name sketch) component_name output_path);;
    try_except
      (mkdir_parents (parent output_path);;
       api_write (SaveAsDXF (Sketch.name sketch) output_path)
                 (Sketch.saveAsDXF sketch) output_path;;
       mret (Counter.add_saved 1 counter))
      (λ e, log (LogTraceback e);; mret (Counter.add_errored 1 counter)).

Fixpoint export_sketches (ctx : Ctx) (component : Component.t) : M Counter :=
  let 'Component.mk name sketches occurrences := component in
  let counter := Counter.zero in
  counter ← for_each sketches (export_sketch ctx name) counter;
  (fix each (l : list (str * Component.t)) (counter : Counter) : M Counter :=
     match l with
     | [] => mret counter
     | (oname, ocomponent) :: l' =>
         sanitized ← sanitize_filename oname;
         c ← export_sketches (Ctx.extend ctx sanitized) ocomponent;
         each l' (Counter.__iadd__ counter c)
     end) occurrences counter.

(** ** [export_file]

    The final [else: raise Exception('Got unknown export format')] of the
    source has no counterpart: [Format] has the six cases tested. *)
Definition export_file (ctx : Ctx) (format : Format) (file : DataFile.t)
    (doc : LazyDocument.t) : M Counter :=
  output_path ← export_filename ctx format file;
  ex ← path_exists output_path;
  if (ex : bool) then
    log (LogExists output_path);;
    mret skipped1
  else
    LazyDocument.open doc;;
    design ← LazyDocument.design doc;
    let em := Design.exportManager design in
    mkdir_parents (parent output_path);;
    let options :=
      match format with
      | F3D => FusionArchiveExportOptions output_path
      | STL => STLExportOptions (Design.rootComponent design) output_path
      | STEP => STEPExportOptions output_path
      | IGES => IGESExportOptions output_path
      | SAT => SATExportOptions output_path
      | SMT => SMTExportOptions output_path
      end in
    api_write (Execute options) (em format) output_path;;
    log (LogSaved output_path);;
    mret saved1.

Section Exporter.

(** [str(datetime.fromtimestamp(t))] in the local time zone; [None] when
    the conversion raises. *)
Variable fromtimestamp : Z → option str.

(** ** [export_metadata] *)

Definition version_line (file : DataFile.t) : str :=
  lit "Version: " ++ str_of_int (DataFile.versionNumber file).

(** The text written for one version, [created] being
    [str(datetime.fromtimestamp(file.dateCreated))]; 9 is the tab and 10
    the newline. *)
Definition version_block (file : DataFile.t) (created : str) : str :=
  join [10]
    [ version_line file;
      [9] ++ lit "created: " ++ created;
      [9] ++ lit "description: " ++ DataFile.description file ++ [10] ].

Definition metadata_path (ctx : Ctx) (sanitized : str) : Path :=
  Ctx.folder ctx // sanitized // (sanitized ++ lit "_metadata.txt").

Definition export_metadata (ctx : Ctx) (file : DataFile.t) : M Counter :=
  let counter := Counter.zero in
  sanitized ← sanitize_filename (DataFile.name file);
  let output_path := metadata_path ctx sanitized in
  ex ← path_exists output_path;
  counter ← (if negb (ex : bool) then
               let counter := saved1 in
               open_w output_path;;
               log (LogCreated output_path);;
               mret counter
             else mret counter);
  lines ← readlines output_path;
  let lines_strip := strip <$> lines in
  if bool_decide (strip (version_line file) ∈ lines_strip) then mret counter
  else
    open_a output_path;;
    created ← match fromtimestamp (DataFile.dateCreated file) with
              | Some s => mret s
              | None => raise OSError
              end;
    write_a output_path (version_block file created);;
    log (LogUpdated output_path);;
    mret counter.

(** ** [visit_file] *)

Definition visit_file (ctx : Ctx) (file : DataFile.t) : M Counter :=
  log (LogVisitingVersion (DataFile.name file) (DataFile.versionNumber file)
         (DataFile.fileExtension file));;
  if negb (str_eqb (DataFile.fileExtension file) (lit "f3d")) then
    log (LogNotHandled (DataFile.name file) (DataFile.fileExtension file));;
    mret skipped1
  else
    doc ← LazyDocument.__init__ ctx file;
    let counter := Counter.zero in
    counter ← (if Ctx.save_sketches ctx then
                 LazyDocument.open doc;;
                 root ← LazyDocument.rootComponent doc;
                 sanitized ← sanitize_filename (Component.name root);
                 root ← LazyDocument.rootComponent doc;
                 c ← export_sketches (Ctx.extend ctx sanitized) root;
                 mret (Counter.__iadd__ counter c)
               else mret counter);
    counter ← for_each (Ctx.formats ctx) (λ format counter,
                 try_except
                   (c ← export_file ctx format file doc;
                    mret (Counter.__iadd__ counter c))
                   (λ e, let counter := Counter.add_errored 1 counter in
                         log (LogTraceback e);; mret counter)) counter;
    counter ← try_except
                 (c ← export_metadata ctx file;
                  mret (Counter.__iadd__ counter c))
                 (λ e, let counter := Counter.add_errored 1 counter in
                       log (LogTraceback e);; mret counter);
    LazyDocument.close doc;;
    mret counter.

Definition visit_file_wrapper (ctx : Ctx) (file : DataFile.t) : M Counter :=
  log (LogVisitingFile (DataFile.name file) (DataFile.fileExtension file)
         (DataFile.versionNumber file));;
  if Ctx.save_all_versions ctx then
    let counter := Counter.zero in
    for_each (DataFile.versions file) (λ specificVersionFile counter,
      c ← visit_file ctx specificVersionFile;
      mret (Counter.__iadd__ counter c)) counter
  else visit_file ctx file.

(** ** [visit_folder] *)

(** The body of [for file in folder.dataFiles]. *)
Definition visit_folder_file (new_ctx : Ctx) (file : DataFile.t)
    (counter : Counter) : M Counter :=
  try_except
    (c ← visit_file_wrapper new_ctx file;
     mret (Counter.__iadd__ counter c))
    (λ e, log (LogExceptionVisitingFile e);;
          mret (Counter.add_errored 1 counter)).

Fixpoint visit_folder (ctx : Ctx) (folder : DataFolder.t) : M Counter :=
  let 'DataFolder.mk name dataFiles dataFolders := folder in
  log (LogVisitingFolder name);;
  sanitized ← sanitize_filename name;
  let new_ctx := Ctx.extend ctx sanitized in
  let counter := Counter.zero in
  files ← match dataFiles with
          | Some l => mret l
          | None => raise RuntimeError
          end;
  counter ← for_each files (visit_folder_file new_ctx) counter;
  match dataFolders with
  | None => raise RuntimeError
  | Some sub_folders =>
      (fix each (l : list DataFolder.t) (counter : Counter) : M Counter :=
         match l with
         | [] => mret counter
         | sub_folder :: l' =>
             c ← visit_folder new_ctx sub_folder;
             each l' (Counter.__iadd__ counter c)
         end) sub_folders counter
  end.

(** ** [main] *)

Definition main (ctx : Ctx) : M Counter :=
  init_directory (Ctx.folder ctx);;
  init_logging (Ctx.folder ctx);;
  let counter := Counter.zero in
  for_each (Application.dataProjects (Ctx.app ctx)) (λ project counter,
    if bool_decide (DataProject.name project ∈ Ctx.projects ctx) then
      c ← visit_folder ctx (DataProject.rootFolder project);
      mret (Counter.__iadd__ counter c)
    else mret counter) counter.

End Exporter.

(** * The command dialog

    The two event handlers meet in the inputs of the dialog:
    [ExporterCommandCreatedEventHandler.notify] adds them, the user edits
    them, [ExporterCommandExecuteHandler.notify] reads them into a [Ctx]
    and calls [main]. *)

#[global] Instance Format_eq_dec : EqDecision Format.
Proof. solve_decision. Defined.

(** [for x in Format]: the members, in the order of their definition. *)
Definition Format_members : list Format := [F3D; STEP; STL; IGES; SAT; SMT].

(** [FormatFromName = {x.value: x for x in Format}] *)
Definition FormatFromName : gmap str Format :=
  foldl (λ d x, <[Format.value x := x]> d) ∅ Format_members.

(** An item of a check-box drop-down. *)
Module ListItem.
Record t := mk { name : str; isSelected : bool }.
End ListItem.

(** [selected(inputs)]: [[it.name for it in inputs if it.isSelected]] *)
Definition selected (inputs : list ListItem.t) : list str :=
  ListItem.name <$> filter (λ it, ListItem.isSelected it = true) inputs.

(** The command inputs, by id.  The value of [directory] is held as the
    path that [Path(...)] makes of its text. *)
Module CommandInputs.
Record t := mk {
  directory : Path;
  file_types : list ListItem.t;
  projects : list ListItem.t;
  unhide_all : bool;
  save_sketches : bool;
  save_all_versions : bool }.
End CommandInputs.

(** The inputs [ExporterCommandCreatedEventHandler.notify] adds to the
    dialog; [home] is [Path.home()]. *)
Definition command_created (home : Path) (app : Application.t) : CommandInputs.t :=
  CommandInputs.mk
    (home // lit "Desktop" // lit "Fusion360Export")
    ((λ format, ListItem.mk (Format.value format)
                  (bool_decide (format ∈ DEFAULT_SELECTED_FORMATS)))
       <$> Format_members)
    ((λ project, ListItem.mk (DataProject.name project) true)
       <$> Application.dataProjects app)
    true false true.

(** The [Ctx] that [ExporterCommandExecuteHandler.notify] builds from the
    inputs; [None] stands for the [KeyError] of [FormatFromName[x]]. *)
Definition command_ctx (app : Application.t) (inputs : CommandInputs.t) : option Ctx :=
  formats ← mapM (λ x, FormatFromName !! x)
               (selected (CommandInputs.file_types inputs));
  Some (Ctx.mk (CommandInputs.directory inputs) formats app
               (list_to_set (selected (CommandInputs.projects inputs)))
               (CommandInputs.unhide_all inputs)
               (CommandInputs.save_sketches inputs)
               (CommandInputs.save_all_versions inputs)).

(** * Definitions used to state the properties *)

(** What [sanitize_filename] returns does not depend on the world, and the
    world only gains a log line. *)
Definition sanitized (name : str) : Res str :=
  if str_eqb name (re_sub_bad name) then Ok name
  else match hash8 name with
       | Some h => Ok (re_sub_bad name ++ lit "_" ++ h)
       | None => Raise UnicodeEncodeError
       end.

(** A world with nothing in it. *)
Definition empty_world : World := mkWorld ∅ [] [] [] (lit "2024_01_01_00_00").

(** The [_document] attribute of a handle, as the world has it. *)
Definition document_of (self : LazyDocument.t) (w : World) : option Document.t :=
  mjoin (heap w !! LazyDocument._document self).

(** ** The scenario "single new file, two formats"

    Project ["P"], whose root folder holds folder ["F"] with the file
    ["Model"], extension ["f3d"], version 1; every API call succeeds.  The
    output root is [Desktop/Fusion360Export], of which only [Desktop]
    exists before the first run. *)

Module Scenario.

Definition component : Component.t := Component.mk (lit "Model") [] [].
Definition design : Design.t := Design.mk component (λ _, Succeeds).
Definition document : Document.t := Document.mk true (Some design) true.
Definition Model : DataFile.t :=
  DataFile.mk (lit "Model") 1 (lit "f3d") (lit "first draft") 0 (Some document) [].
Definition F : DataFolder.t := DataFolder.mk (lit "F") (Some [Model]) (Some []).
Definition P_root : DataFolder.t := DataFolder.mk (lit "P") (Some []) (Some [F]).
Definition P : DataProject.t := DataProject.mk (lit "P") P_root.
Definition app : Application.t := Application.mk [P].

Definition out : Path := [lit "Desktop"; lit "Fusion360Export"].

Definition ctx : Ctx :=
  Ctx.mk out [F3D; STEP] app {[ lit "P" ]} false false false.

Definition world : World :=
  mkWorld {[ [lit "Desktop"] := Dir ]} [] [] [] (lit "2024_01_01_00_00").

(** The directory of the file's outputs. *)
Definition dir : Path := out // lit "P" // lit "F" // lit "Model".

(** A clock conversion for the examples. *)
Definition fromtimestamp (t : Z) : option str :=
  if t =? 0 then Some (lit "1970-01-01 00:00:00") else None.

End Scenario.

(** ** Worlds and filesystems *)

(** The world after [log] has printed the lines [l]. *)
Definition add_log (l : list LogMsg) (w : World) : World :=
  mkWorld (fs w) (heap w) (calls w) (log_fh w ++ l) (now w).

(** [m'] keeps every node of [m], with its kind. *)
Definition fs_le (m m' : gmap Path Node) : Prop :=
  ∀ p, match node_at m p with
       | Some Dir => node_at m' p = Some Dir
       | Some (File _) => ∃ c, node_at m' p = Some (File c)
       | None => True
       end.

(** Every node lies in a directory. *)
Definition fs_wf (m : gmap Path Node) : Prop :=
  ∀ p n, m !! p = Some n → is_dir m (parent p) = true.

(** ** What [export_file] does when the output is missing, step by step *)

Definition options_filename (o : ExportOptions) : Path :=
  match o with
  | FusionArchiveExportOptions p | STLExportOptions _ p | STEPExportOptions p
  | IGESExportOptions p | SATExportOptions p | SMTExportOptions p => p
  end.

(** Opening the handle and reading its design: the design, or the
    exception of the step that fails. *)
Definition opened_design (doc : LazyDocument.t) (w : World) : Res Design.t :=
  let design_of d := match Document.design d with
                     | Some design => Ok design
                     | None => Raise AttributeError
                     end in
  match document_of doc w with
  | Some d => design_of d
  | None =>
      match DataFile.document (LazyDocument._file doc) with
      | None => Raise RuntimeError
      | Some d => if Document.activate d then design_of d else Raise RuntimeError
      end
  end.

(** Open, create the parent directories, execute, return [saved(1)]. *)
Definition export_steps (format : Format) (doc : LazyDocument.t)
    (output_path : Path) (w : World) : Res Counter :=
  match opened_design doc w with
  | Raise e => Raise e
  | Ok design =>
      match mkdir_from [] (parent output_path) (fs w) with
      | inl e => Raise e
      | inr _ =>
          match Design.exportManager design format with
          | Raises => Raise RuntimeError
          | _ => Ok saved1
          end
      end
  end.

(** ** The ledger *)

(** [lines_strip] for a ledger file with the given content. *)
Definition ledger_lines (content : str) : list str :=
  strip <$> split_lines [] (universal_newlines content).

(** The ledger already holds the line of this version. *)
Definition recorded (file : DataFile.t) (content : str) : Prop :=
  strip (version_line file) ∈ ledger_lines content.

#[global] Instance recorded_dec file content : Decision (recorded file content).
Proof. unfold recorded. apply _. Defined.

(** ** Inputs on which the walker loses an exception *)

Module Failing.

(** A document that opens but cannot be activated. *)
Definition document : Document.t := Document.mk false (Some Scenario.design) true.
Definition Model : DataFile.t :=
  DataFile.mk (lit "Model") 1 (lit "f3d") (lit "first draft") 0 (Some document) [].

(** The scenario's context with "Save Sketches as DXF" ticked. *)
Definition ctx_sketches : Ctx :=
  Ctx.mk Scenario.out [F3D; STEP] Scenario.app {[ lit "P" ]} false true false.

(** The world [visit_file] is called in: the output root exists. *)
Definition world : World :=
  mkWorld {[ [lit "Desktop"] := Dir; Scenario.out := Dir ]} [] [] []
          (lit "2024_01_01_00_00").

(** Project ["P"] with two folders: ["A"], whose files cannot be listed,
    and ["B"], which holds the scenario's file. *)
Definition A : DataFolder.t := DataFolder.mk (lit "A") None (Some []).
Definition B : DataFolder.t :=
  DataFolder.mk (lit "B") (Some [Scenario.Model]) (Some []).
Definition P_root : DataFolder.t := DataFolder.mk (lit "P") (Some []) (Some [A; B]).
Definition app : Application.t :=
  Application.mk [DataProject.mk (lit "P") P_root].
Definition ctx : Ctx :=
  Ctx.mk Scenario.out [F3D; STEP] app {[ lit "P" ]} false false false.

(** The same project when ["A"] can be listed and is empty. *)
Definition A_ok : DataFolder.t := DataFolder.mk (lit "A") (Some []) (Some []).
Definition ctx_ok : Ctx :=
  Ctx.mk Scenario.out [F3D; STEP]
    (Application.mk [DataProject.mk (lit "P")
       (DataFolder.mk (lit "P") (Some []) (Some [A_ok; B]))])
    {[ lit "P" ]} false false false.

End Failing.

(** ** Counting the export outputs of a tree *)

Definition sumZ (l : list Z) : Z := foldr Z.add 0 l.

Definition nonneg (c : Counter) : Prop :=
  0 ≤ Counter.saved c ∧ 0 ≤ Counter.skipped c ∧ 0 ≤ Counter.errored c.

(** The sketches of a component and of the components below it. *)
Fixpoint count_sketches (component : Component.t) : Z :=
  let 'Component.mk _ sketches occurrences := component in
  Z.of_nat (length sketches)
  + sumZ (map (λ o : str * Component.t, count_sketches o.2) occurrences).

(** What one file version contributes to [skipped] once its outputs
    exist: 1 when its extension is not handled; else one per sketch (when
    sketches are saved) and one per format.  The ledger counts for
    nothing. *)
Definition items_version (ctx : Ctx) (file : DataFile.t) : Z :=
  if negb (str_eqb (DataFile.fileExtension file) (lit "f3d")) then 1
  else
    (if Ctx.save_sketches ctx then
       match DataFile.document file ≫= Document.design with
       | Some design => count_sketches (Design.rootComponent design)
       | None => 0
       end
     else 0)
    + Z.of_nat (length (Ctx.formats ctx)).

Definition items_file (ctx : Ctx) (file : DataFile.t) : Z :=
  if Ctx.save_all_versions ctx then sumZ (items_version ctx <$> DataFile.versions file)
  else items_version ctx file.

Fixpoint items_folder (ctx : Ctx) (folder : DataFolder.t) : Z :=
  let 'DataFolder.mk _ dataFiles dataFolders := folder in
  sumZ (items_file ctx <$> default [] dataFiles)
  + match dataFolders with
    | Some sub_folders => sumZ (map (items_folder ctx) sub_folders)
    | None => 0
    end.

Definition items (ctx : Ctx) : Z :=
  sumZ ((λ project,
           if bool_decide (DataProject.name project ∈ Ctx.projects ctx)
           then items_folder ctx (DataProject.rootFolder project) else 0)
        <$> Application.dataProjects (Ctx.app ctx)).

(** ** The second run

    [keeps R m]: every run of [m] takes a world to one related by [R]. *)
Definition keeps (R : relation World) {A} (m : M A) : Prop := ∀ w, R w (m w).2.

(** The file an export request was to write exists. *)
Definition produced (m : gmap Path Node) (c : Call) : Prop :=
  match c with
  | Execute o => is_Some (node_at m (options_filename o))
  | SaveAsDXF _ p => is_Some (node_at m p)
  | _ => True
  end.

(** A run only adds nodes and API requests. *)
Definition world_le (w w' : World) : Prop :=
  fs_le (fs w) (fs w') ∧ calls w ⊆ calls w'.

(** [v] comes after [w]: its filesystem keeps the nodes of [w] and holds
    the file of every export request made up to [w]. *)
Definition later (w v : World) : Prop :=
  fs_le (fs w) (fs v) ∧ ∀ c, c ∈ calls w → produced (fs v) c.

(** What a second run may change: nodes are kept; [quiet] also keeps the
    handles. *)
Definition fs_grows (v v' : World) : Prop := fs_le (fs v) (fs v').
Definition quiet (v v' : World) : Prop :=
  fs_le (fs v) (fs v') ∧ heap v' = heap v.
Definition same_heap (w w' : World) : Prop := heap w' = heap w.

(** [m] returns non-negative counts and, once it has returned without an
    error, [m'] returns [saved=0, skipped=n, errored=0] in every later
    world.  [m'] is [m], up to the handle it is given. *)
Definition skips_again (R : relation World) (m m' : M Counter) (n : Z) : Prop :=
  ∀ w c w', m w = (Ok c, w') →
    nonneg c
    ∧ (Counter.errored c = 0 →
       ∀ v, later w' v → ∃ v', m' v = (Ok (Counter.mk 0 n 0), v') ∧ R v v').

(** The same for a loop body that adds to the counter it is given. *)
Definition step_skips_again (R : relation World)
    (body body' : Counter → M Counter) (n : Z) : Prop :=
  ∀ acc w acc' w', body acc w = (Ok acc', w') → nonneg acc →
    nonneg acc'
    ∧ Counter.errored acc ≤ Counter.errored acc'
    ∧ (Counter.errored acc' = Counter.errored acc →
       ∀ v acc2, later w' v →
         ∃ v', body' acc2 v = (Ok (Counter.__iadd__ acc2 (Counter.mk 0 n 0)), v')
               ∧ R v v').

(** The steps that change the world respect [R]. *)
Class Frame (R : relation World) : Prop := {
  frame_preorder :: PreOrder R;
  frame_log msg : keeps R (log msg);
  frame_call c : keeps R (call c);
  frame_mkdir p : keeps R (mkdir p);
  frame_mkdir_parents p : keeps R (mkdir_parents p);
  frame_open_w p : keeps R (open_w p);
  frame_open_a p : keeps R (open_a p);
  frame_write_a p text : keeps R (write_a p text);
  frame_write_artifact p : keeps R (write_artifact p) }.

(** So do the steps that change the heap. *)
Class HeapFrame (R : relation World) : Prop :=
  frame_set_heap f : keeps R (modify (set_heap f)).

(** The body of [for occurrence in component.occurrences] and of
    [for sub_folder in folder.dataFolders], as loop bodies of [for_each]. *)
Definition export_occurrence (ctx : Ctx) (o : str * Component.t)
    (counter : Counter) : M Counter :=
  c ← (sanitized ← sanitize_filename o.1;
       export_sketches (Ctx.extend ctx sanitized) o.2);
  mret (Counter.__iadd__ counter c).

Definition visit_sub_folder (fromtimestamp : Z → option str) (new_ctx : Ctx)
    (sub_folder : DataFolder.t) (counter : Counter) : M Counter :=
  c ← visit_folder fromtimestamp new_ctx sub_folder;
  mret (Counter.__iadd__ counter c).

(** The three stages of [visit_file] between the creation of the handle
    and its closing, each taking the counter so far. *)
Definition sketches_stage (ctx : Ctx) (doc : LazyDocument.t)
    (counter : Counter) : M Counter :=
  if Ctx.save_sketches ctx then
    LazyDocument.open doc;;
    root ← LazyDocument.rootComponent doc;
    sanitized ← sanitize_filename (Component.name root);
    root ← LazyDocument.rootComponent doc;
    c ← export_sketches (Ctx.extend ctx sanitized) root;
    mret (Counter.__iadd__ counter c)
  else mret counter.

Definition traceback_handler (e : Exn) (counter : Counter) : M Counter :=
  let counter := Counter.add_errored 1 counter in
  log (LogTraceback e);; mret counter.

Definition formats_stage (ctx : Ctx) (file : DataFile.t) (doc : LazyDocument.t)
    (counter : Counter) : M Counter :=
  for_each (Ctx.formats ctx) (λ format counter,
    try_except
      (c ← export_file ctx format file doc; mret (Counter.__iadd__ counter c))
      (λ e, traceback_handler e counter)) counter.

Definition metadata_stage (fromtimestamp : Z → option str) (ctx : Ctx)
    (file : DataFile.t) (counter : Counter) : M Counter :=
  try_except
    (c ← export_metadata fromtimestamp ctx file;
     mret (Counter.__iadd__ counter c))
    (λ e, traceback_handler e counter).

(** While the handle holds [d], the heap stays as it is. *)
Definition holding (doc : LazyDocument.t) (d : Document.t) (w w' : World) : Prop :=
  document_of doc w = Some d → heap w' = heap w.

(** ** Reading a number back *)

(** [int(s)] for a string of decimal digits, and for an optional minus
    sign followed by digits. *)
Definition int_of_digits (s : str) : Z := foldl (λ a c, 10 * a + (c - 48)) 0 s.

Definition int_of_str (s : str) : Z :=
  match s with
  | c :: d => if c =? 45 then - int_of_digits d else int_of_digits s
  | [] => 0
  end.

(** The characters ["0"] to ["9"]. *)
Definition is_digit (c : Z) : Prop := 48 ≤ c ≤ 57.

(** ** Inputs on which an export is reported but not written *)

Module Unwritten.

(** A design whose export manager returns [False] from [execute]. *)
Definition design : Design.t := Design.mk Scenario.component (λ _, ReturnsFalse).
Definition document : Document.t := Document.mk true (Some design) true.
Definition Model : DataFile.t :=
  DataFile.mk (lit "Model") 1 (lit "f3d") (lit "first draft") 0 (Some document) [].

(** A handle on [Model], not yet opened, in a world where the output root
    exists. *)
Definition doc : LazyDocument.t := LazyDocument.mk Scenario.ctx Model 0.
Definition world : World := set_heap (λ _, [None]) Failing.world.

End Unwritten.

(** ** A world where the exports of the scenario's file exist *)

Module Exported.

(** The directory of the outputs of ["Model"] when it is exported straight
    into the output root. *)
Definition dir : Path := Scenario.out // lit "Model".

Definition world : World :=
  mkWorld {[ [lit "Desktop"] := Dir; Scenario.out := Dir; dir := Dir;
             dir // lit "Model_v1.f3d" := File [];
             dir // lit "Model_v1.step" := File [] ]} [] [] []
          (lit "2024_01_01_00_00").

(** The same world with a ledger that records version 7. *)
Definition ledger : Path := dir // lit "Model_metadata.txt".
Definition ledger_world : World :=
  set_fs <[ledger := File (lit "Version: 7" ++ [10])]> world.

End Exported.

(** ** Accounting *)

(** The number of outcomes a counter records. *)
Definition outcomes (c : Counter) : Z :=
  Counter.saved c + Counter.skipped c + Counter.errored c.

(** The handle holds what it held, or the document of its file. *)
Definition own_document (doc : LazyDocument.t) (w w' : World) : Prop :=
  document_of doc w' = document_of doc w
  ∨ document_of doc w' = DataFile.document (LazyDocument._file doc).

(** A run that sends no request to the API and leaves the handles alone. *)
Definition no_request (w w' : World) : Prop :=
  calls w' = calls w ∧ heap w' = heap w.

(** ** Names that can be sanitized *)

(** [sanitize_filename] returns on this name. *)
Definition sanitizes (name : str) : bool :=
  match sanitized name with Ok _ => true | Raise _ => false end.

(** The names of the sketches and of the occurrences of a component tree
    can be sanitized. *)
Fixpoint sketch_names_ok (component : Component.t) : bool :=
  let 'Component.mk _ sketches occurrences := component in
  forallb (λ sketch, sanitizes (Sketch.name sketch)) sketches
  && forallb (λ o : str * Component.t, sanitizes o.1 && sketch_names_ok o.2)
       occurrences.

(** The folder names of a tree can be sanitized and its listings read. *)
Fixpoint listable (folder : DataFolder.t) : bool :=
  let 'DataFolder.mk name dataFiles dataFolders := folder in
  sanitizes name
  && match dataFiles with Some _ => true | None => false end
  && match dataFolders with
     | Some sub_folders => forallb listable sub_folders
     | None => false
     end.

(** ** When the output can be prepared *)

(** [init_directory] and [init_logging] can do their work: the output
    directory is there or can be made in its parent, and the path of the
    log file is not a directory. *)
Definition output_ready (ctx : Ctx) (w : World) : Prop :=
  (node_at (fs w) (Ctx.folder ctx) = Some Dir
   ∨ node_at (fs w) (Ctx.folder ctx) = None
     ∧ node_at (fs w) (parent (Ctx.folder ctx)) = Some Dir)
  ∧ node_at (fs w) (Ctx.folder ctx // (now w ++ lit ".txt")) ≠ Some Dir.

(** ** Ledgers whose last line is complete *)

(** The text is empty or ends with a newline, as every ledger the exporter
    has written does. *)
Definition ends_lines (content : str) : Prop :=
  content = [] ∨ last content = Some 10.

(** ** Requests *)

(** The world after the API has taken the requests [l]. *)
Definition add_calls (l : list Call) (w : World) : World :=
  mkWorld (fs w) (heap w) (calls w ++ l) (log_fh w) (now w).

(** The requests made so far are kept, in their order; others may follow. *)
Definition calls_grow (w w' : World) : Prop := calls w `prefix_of` calls w'.

(** ** Lines the log file takes

    [print] encodes a line for the log file (with UTF-8, as text files
    are here) and raises [UnicodeEncodeError] when the line has no
    encoding.  A line is made of literals of the source, numbers, and the
    names and paths below; a traceback quotes names with [repr], which
    escapes what cannot be encoded. *)
Definition loggable (msg : LogMsg) : bool :=
  match msg with
  | LogOpening name | LogClosing name | LogVisitingFolder name => encodable name
  | LogBadChars name with_replacement =>
      encodable name && encodable with_replacement
  | LogExists output_path | LogSaved output_path | LogCreated output_path
  | LogUpdated output_path => forallb encodable output_path
  | LogExportingSketch sketch component output_path =>
      encodable sketch && encodable component && forallb encodable output_path
  | LogVisitingVersion name _ fileExtension =>
      encodable name && encodable fileExtension
  | LogNotHandled name fileExtension | LogVisitingFile name fileExtension _ =>
      encodable name && encodable fileExtension
  | LogTraceback _ | LogExceptionVisitingFile _ => true
  end.

(** The lines printed between two worlds of a run. *)
Definition printed (w w' : World) : list LogMsg :=
  drop (length (log_fh w)) (log_fh w').

(** The log file takes every line printed from [w] to [w']: no call of
    [log] in between raises. *)
Definition log_takes (w w' : World) : Prop :=
  forallb loggable (printed w w') = true.

(** ** Versions whose ledger block can be written *)

(** For an [f3d] version, the creation date converts to text and the
    version block has an encoding; the ledger of another extension is
    never written. *)
Definition ledger_ready (fromtimestamp : Z → option str) (file : DataFile.t)
    : bool :=
  negb (str_eqb (DataFile.fileExtension file) (lit "f3d"))
  || match fromtimestamp (DataFile.dateCreated file) with
     | Some created => encodable (version_block file created)
     | None => false
     end.

(** The versions [visit_file_wrapper] visits for a file. *)
Definition versions_visited (save_all_versions : bool) (file : DataFile.t)
    : list DataFile.t :=
  if save_all_versions then DataFile.versions file else [file].

(** The versions visited in a folder tree, in the order of the walk. *)
Fixpoint visited_in (save_all_versions : bool) (folder : DataFolder.t)
    : list DataFile.t :=
  let 'DataFolder.mk _ dataFiles dataFolders := folder in
  concat (versions_visited save_all_versions <$> default [] dataFiles)
  ++ match dataFolders with
     | Some sub_folders => concat (map (visited_in save_all_versions) sub_folders)
     | None => []
     end.

(** The versions a run of [main] visits. *)
Definition visited (ctx : Ctx) : list DataFile.t :=
  concat ((λ project,
             if bool_decide (DataProject.name project ∈ Ctx.projects ctx)
             then visited_in (Ctx.save_all_versions ctx)
                    (DataProject.rootFolder project)
             else [])
          <$> Application.dataProjects (Ctx.app ctx)).

(** * Properties *)

(** ** [hashlib.sha256] on the standard test vectors *)

Example sha256_abc :
  Sha256.hexdigest (lit "abc")
  = lit "ba7816bf8f01cfea414140de5dae2223b00361a396177a9cb410ff61f20015ad".
Proof. vm_compute. reflexivity. Qed.

Example sha256_empty :
  Sha256.hexdigest []
  = lit "e3b0c44298fc1c149afbf4c8996fb92427ae41e4649b934ca495991b7852b855".
Proof. vm_compute. reflexivity. Qed.

(** ** Result Counter *)

Lemma iadd_is_add (a b : Counter) : Counter.__iadd__ a b = Counter.__add__ a b.
Proof. reflexivity. Qed.

(** C7: counter merge is a commutative monoid: [zero] is a right identity
    of [merge], and [merge] is commutative and associative, where [merge]
    adds the saved, skipped and errored fields pointwise. *)
Theorem merge_commutative_monoid (a b c : Counter) :
  merge a Counter.zero = a
  ∧ merge a b = merge b a
  ∧ merge (merge a b) c = merge a (merge b c)
  ∧ Counter.zero = Counter.mk 0 0 0
  ∧ merge a b = Counter.mk (Counter.saved a + Counter.saved b)
                           (Counter.skipped a + Counter.skipped b)
                           (Counter.errored a + Counter.errored b).
Proof.
  destruct a as [a1 a2 a3], b as [b1 b2 b3], c as [c1 c2 c3].
  unfold merge, Counter.__add__, Counter.zero; simpl.
  repeat split; f_equal; lia.
Qed.

(** ** Filename Sanitizer *)

Lemma re_sub_bad_length name : length (re_sub_bad name) = length name.
Proof. apply length_fmap. Qed.

Lemma re_sub_bad_lookup name i c :
  name !! i = Some c →
  re_sub_bad name !! i = Some (if bad_char c then 32 else c).
Proof. intros H. unfold re_sub_bad. by rewrite list_lookup_fmap, H. Qed.

Lemma re_sub_bad_clean name : Forall (λ c, bad_char c = false) (re_sub_bad name).
Proof.
  unfold re_sub_bad. induction name as [|c name IH]; constructor; [|done].
  destruct (bad_char c) eqn:E; [reflexivity | exact E].
Qed.

(** Nothing is replaced exactly when no character is in the class. *)
Lemma re_sub_bad_id name :
  re_sub_bad name = name ↔ Forall (λ c, bad_char c = false) name.
Proof.
  split.
  - intros <-. apply re_sub_bad_clean.
  - unfold re_sub_bad. induction 1 as [|c name Hc _ IH]; [done|].
    rewrite fmap_cons, Hc. by f_equal.
Qed.

Lemma bad_char_spec c :
  bad_char c = true ↔ c ∈ lit ":\/*?<>|".
Proof. unfold bad_char. rewrite bool_decide_eq_true. set_solver. Qed.

Lemma sanitize_filename_run name w :
  ∃ l, sanitize_filename name w = (sanitized name, add_log l w).
Proof.
  unfold sanitize_filename, sanitized.
  destruct (str_eqb name (re_sub_bad name)).
  - exists []. unfold add_log. rewrite app_nil_r. by destruct w.
  - exists [LogBadChars name (re_sub_bad name)].
    unfold mbind, M_bind, log, modify; simpl.
    destruct (hash8 name); reflexivity.
Qed.

Lemma round_length st kw : length st = 8%nat → length (Sha256.round st kw) = 8%nat.
Proof.
  intros H. do 9 (destruct st as [|? st]; try discriminate H). reflexivity.
Qed.

Lemma rounds_length l : ∀ st, length st = 8%nat → length (foldl Sha256.round st l) = 8%nat.
Proof.
  induction l as [|kw l IH]; intros st H; [done|]. simpl. apply IH.
  by apply round_length.
Qed.

Lemma compress_length h block : length h = 8%nat → length (Sha256.compress h block) = 8%nat.
Proof.
  intros H. unfold Sha256.compress. rewrite length_zip_with, rounds_length by done.
  lia.
Qed.

Lemma digest_words_length msg : length (Sha256.digest_words msg) = 8%nat.
Proof.
  unfold Sha256.digest_words.
  generalize (Sha256.chunks (length (Sha256.words (Sha256.pad msg)))
                (Sha256.words (Sha256.pad msg))).
  intros l. assert (length Sha256.H0 = 8%nat) as H by reflexivity.
  revert H. generalize Sha256.H0. induction l as [|b l IH]; intros h H; [done|].
  simpl. apply IH. by apply compress_length.
Qed.

Lemma hex_digit_spec x : Sha256.hex_digit (Z.land x 15) ∈ lit "0123456789abcdef".
Proof.
  assert (0 ≤ Z.land x 15 < 16) as H.
  { split; [apply Z.land_nonneg; lia|].
    assert (Z.land x 15 ≤ 15); [|lia].
    change 15 with (Z.ones 4). rewrite Z.land_ones by lia.
    change (2 ^ 4) with 16. change (Z.ones 4) with 15.
    pose proof (Z.mod_pos_bound x 16 ltac:(lia)). lia. }
  set (d := Z.land x 15) in *. clearbody d. unfold Sha256.hex_digit.
  assert (d = 0 ∨ d = 1 ∨ d = 2 ∨ d = 3 ∨ d = 4 ∨ d = 5 ∨ d = 6 ∨ d = 7
          ∨ d = 8 ∨ d = 9 ∨ d = 10 ∨ d = 11 ∨ d = 12 ∨ d = 13 ∨ d = 14 ∨ d = 15)
    as Hd by lia.
  clear H.
  repeat (destruct Hd as [->|Hd];
          [vm_compute; repeat first [apply list_elem_of_here | apply list_elem_of_further]|]).
  subst d. vm_compute. repeat first [apply list_elem_of_here | apply list_elem_of_further].
Qed.

(** The digest in hexadecimal has 64 characters, all hex digits. *)
Lemma hexdigest_spec msg :
  length (Sha256.hexdigest msg) = 64%nat
  ∧ Forall (λ c, c ∈ lit "0123456789abcdef") (Sha256.hexdigest msg).
Proof.
  unfold Sha256.hexdigest. pose proof (digest_words_length msg) as H.
  set (ws := Sha256.digest_words msg) in *. clearbody ws.
  do 9 (destruct ws as [|? ws]; try discriminate H).
  split; [reflexivity|].
  simpl. repeat (constructor; [apply hex_digit_spec|]). constructor.
Qed.

Lemma longer_ne {A} (r s name : list A) :
  length r = length name → s ≠ [] → r ++ s ≠ name.
Proof.
  intros Hl Hs Heq. apply (f_equal length) in Heq. rewrite length_app in Heq.
  destruct s; [done|]. simpl in Heq. lia.
Qed.

(** C5, as the code has it: [sanitize_filename] replaces each character of
    [: \ / * ? < > |] with a space and keeps the others; when nothing was
    replaced it returns the input and leaves the world alone; when
    something was replaced and the input has a UTF-8 encoding it returns
    the replaced string, an underscore and the first 8 hex characters of
    the SHA-256 of the original input, which differs from the input; when
    something was replaced and the input has no UTF-8 encoding (a lone
    surrogate) it raises [UnicodeEncodeError]; the result is the same in
    every world. *)
Theorem sanitize_filename_contract (name : str) (w : World) :
  let r := re_sub_bad name in
  length r = length name
  ∧ (∀ i c, name !! i = Some c →
            r !! i = Some (if bool_decide (c ∈ lit ":\/*?<>|") then 32 else c))
  ∧ (Forall (λ c, c ∉ lit ":\/*?<>|") name →
       sanitize_filename name w = (Ok name, w))
  ∧ (Exists (λ c, c ∈ lit ":\/*?<>|") name →
       match encode name with
       | Some b =>
           let h := take 8 (Sha256.hexdigest b) in
           (sanitize_filename name w).1 = Ok (r ++ lit "_" ++ h)
           ∧ length h = 8%nat
           ∧ Forall (λ c, c ∈ lit "0123456789abcdef") h
           ∧ r ++ lit "_" ++ h ≠ name
       | None => (sanitize_filename name w).1 = Raise UnicodeEncodeError
       end)
  ∧ (∀ w', (sanitize_filename name w').1 = (sanitize_filename name w).1)
  ∧ fs (sanitize_filename name w).2 = fs w.
Proof.
  assert (Hbad : ∀ c, bad_char c = bool_decide (c ∈ lit ":\/*?<>|")).
  { intros c. apply eq_true_iff_eq. rewrite bad_char_spec.
    by rewrite bool_decide_eq_true. }
  intros r. split; [apply re_sub_bad_length|].
  split. { intros i c Hi. rewrite <- Hbad. by apply re_sub_bad_lookup. }
  split.
  { intros Hall. unfold sanitize_filename, str_eqb.
    rewrite bool_decide_eq_true_2; [done|].
    symmetry. apply re_sub_bad_id. eapply Forall_impl; [exact Hall|].
    intros c Hc. simpl in Hc. rewrite Hbad. by apply bool_decide_eq_false. }
  split.
  { intros Hex.
    destruct (sanitize_filename_run name w) as [l ->]. simpl.
    unfold sanitized, str_eqb. rewrite bool_decide_eq_false_2.
    - unfold hash8. destruct (encode name) as [b|]; [|reflexivity]. simpl.
      destruct (hexdigest_spec b) as [Hlen Hhex].
      assert (length (take 8 (Sha256.hexdigest b)) = 8%nat) as Hl8
        by (rewrite length_take; lia).
      split; [reflexivity|]. split; [exact Hl8|].
      split; [by apply Forall_take|].
      apply longer_ne; [apply re_sub_bad_length|done].
    - intros Heq. symmetry in Heq. apply re_sub_bad_id in Heq.
      apply Exists_exists in Hex as (c & Hin & Hc).
      rewrite Forall_forall in Heq. specialize (Heq c Hin).
      rewrite Hbad in Heq. by apply bool_decide_eq_false in Heq. }
  split.
  { intros w'. destruct (sanitize_filename_run name w) as [l ->].
    by destruct (sanitize_filename_run name w') as [l' ->]. }
  by destruct (sanitize_filename_run name w) as [l ->].
Qed.

(** C5 as stated fails on ["/\ud800"]: a character is replaced, and the
    original has no UTF-8 encoding to hash. *)
Lemma sanitize_filename_raises :
  ¬ (∀ name w, ∃ s, (sanitize_filename name w).1 = Ok s)
  ∧ (sanitize_filename [47; 55296] empty_world).1 = Raise UnicodeEncodeError.
Proof.
  split; [|reflexivity].
  intros H. destruct (H [47; 55296] empty_world) as [s Hs]. discriminate Hs.
Qed.

Example sanitize_model_1_2 :
  (sanitize_filename (lit "Model 1/2") empty_world).1 = Ok (lit "Model 1 2_23e85974").
Proof. vm_compute. reflexivity. Qed.

Example sanitize_plain :
  (sanitize_filename (lit "Model 1 2") empty_world).1 = Ok (lit "Model 1 2").
Proof. vm_compute. reflexivity. Qed.

(** ** Lazy Document Handle *)

Ltac munfold :=
  unfold mbind, M_bind, mret, M_ret, log, call, modify, gets, raise,
    try_except in *.

Lemma get_document_run self w :
  LazyDocument.get_document self w = (Ok (document_of self w), w).
Proof. reflexivity. Qed.

(** A handle that was never opened: [close] does nothing. *)
Lemma close_unopened self w :
  document_of self w = None → LazyDocument.close self w = (Ok tt, w).
Proof.
  intros H. unfold LazyDocument.close. munfold.
  rewrite get_document_run, H. reflexivity.
Qed.

(** A handle that was opened: [close] asks the API to close the document
    and leaves the handle as it is. *)
Lemma close_opened self w d :
  document_of self w = Some d →
  let file := LazyDocument._file self in
  let w' := (LazyDocument.close self w).2 in
  calls w' = calls w ++ [DocumentClose (DataFile.name file) (DataFile.versionNumber file)]
  ∧ heap w' = heap w ∧ fs w' = fs w
  ∧ (LazyDocument.close self w).1
    = if Document.close d then Ok tt else Raise RuntimeError.
Proof.
  intros H. unfold LazyDocument.close. munfold.
  rewrite get_document_run, H. simpl.
  destruct (Document.close d); simpl; auto.
Qed.

(** A fresh handle is unopened. *)
Lemma init_unopened ctx file w :
  let r := LazyDocument.__init__ ctx file w in
  ∃ doc, r.1 = Ok doc ∧ document_of doc r.2 = None
         ∧ LazyDocument._document doc = length (heap w)
         ∧ heap r.2 = heap w ++ [None]
         ∧ fs r.2 = fs w ∧ calls r.2 = calls w ∧ log_fh r.2 = log_fh w
         ∧ LazyDocument._ctx doc = ctx ∧ LazyDocument._file doc = file.
Proof.
  eexists. split; [reflexivity|]. simpl. unfold document_of. simpl.
  rewrite lookup_app_r, Nat.sub_diag by lia. done.
Qed.

(** C9, as the code has it: [close()] on a handle that was never opened
    (in particular on a fresh one) is a no-op; on a handle that has been
    opened, every [close()], the second like the first, asks the API to
    close the document again and leaves the handle's [_document] set. *)
Theorem close_contract (self : LazyDocument.t) (w : World) :
  (document_of self w = None → LazyDocument.close self w = (Ok tt, w))
  ∧ (∀ ctx file, let r := LazyDocument.__init__ ctx file w in
       ∀ doc, r.1 = Ok doc → LazyDocument.close doc r.2 = (Ok tt, r.2))
  ∧ (∀ d, document_of self w = Some d →
       let file := LazyDocument._file self in
       let w' := (LazyDocument.close self w).2 in
       calls w' = calls w ++ [DocumentClose (DataFile.name file)
                                            (DataFile.versionNumber file)]
       ∧ document_of self w' = Some d ∧ fs w' = fs w).
Proof.
  split; [apply close_unopened|]. split.
  - intros ctx file r doc Hdoc.
    destruct (init_unopened ctx file w) as (doc' & Hr & Hnone & _).
    fold r in Hr, Hnone. rewrite Hr in Hdoc. injection Hdoc as <-.
    by apply close_unopened.
  - intros d Hd file w'.
    destruct (close_opened self w d Hd) as (Hc & Hh & Hf & _).
    repeat split; [exact Hc| |exact Hf].
    unfold document_of. fold w'. unfold w'. rewrite Hh. exact Hd.
Qed.

(** C9 as stated fails: after [open()] and [close()], a second [close()]
    sends a second close request. *)
Lemma close_twice_closes_twice :
  let h := LazyDocument.mk Scenario.ctx Scenario.Model 0 in
  let w1 := (LazyDocument.open h (set_heap (λ _, [None]) Scenario.world)).2 in
  let w2 := (LazyDocument.close h w1).2 in
  let w3 := (LazyDocument.close h w2).2 in
  calls w2 = [DocumentsOpen (lit "Model") 1; DocumentActivate (lit "Model") 1;
              DocumentClose (lit "Model") 1]
  ∧ calls w3 = calls w2 ++ [DocumentClose (lit "Model") 1]
  ∧ LazyDocument.close h w2 ≠ (Ok tt, w2).
Proof.
  split; [reflexivity|]. split; [reflexivity|].
  intros H. apply (f_equal (λ x, length (calls x.2))) in H.
  vm_compute in H. discriminate H.
Qed.

(** ** Stepping through monadic code *)

Lemma bind_ok {A B} (m : M A) (f : A → M B) w a w' :
  m w = (Ok a, w') → (m ≫= f) w = f a w'.
Proof. intros H. unfold mbind, M_bind. by rewrite H. Qed.

Lemma bind_raise {A B} (m : M A) (f : A → M B) w e w' :
  m w = (Raise e, w') → (m ≫= f) w = (Raise e, w').
Proof. intros H. unfold mbind, M_bind. by rewrite H. Qed.

Lemma try_raise {A} (m : M A) h w e w' :
  m w = (Raise e, w') → try_except m h w = h e w'.
Proof. intros H. unfold try_except. by rewrite H. Qed.

Lemma ret_run {A} (a : A) w : (mret a : M A) w = (Ok a, w).
Proof. reflexivity. Qed.

Lemma log_run msg w : log msg w = (Ok tt, add_log [msg] w).
Proof. reflexivity. Qed.

Lemma init_run ctx file w :
  LazyDocument.__init__ ctx file w
  = (Ok (LazyDocument.mk ctx file (length (heap w))),
     set_heap (λ h, h ++ [None]) w).
Proof. reflexivity. Qed.

Lemma fresh_handle_unopened ctx file w w' :
  heap w' = heap w ++ [None] →
  document_of (LazyDocument.mk ctx file (length (heap w))) w' = None.
Proof.
  intros H. unfold document_of. simpl.
  by rewrite H, lookup_app_r, Nat.sub_diag by lia.
Qed.

(** ** Multi-Format File Exporter *)

Lemma Component_ind' (P : Component.t → Prop) :
  (∀ name sketches occs, Forall (λ oc, P oc.2) occs → P (Component.mk name sketches occs)) →
  ∀ c, P c.
Proof.
  intros H. fix IH 1. intros [n s o]. apply H.
  induction o as [|[on oc] o IHo]; constructor; [apply IH | apply IHo].
Qed.

Lemma unhide_all_in_component_run c w :
  (unhide_all_in_component c w).1 = Ok tt
  ∧ fs (unhide_all_in_component c w).2 = fs w
  ∧ heap (unhide_all_in_component c w).2 = heap w.
Proof.
  revert w. induction c as [n s o IH] using Component_ind'. intros w.
  simpl. munfold. simpl.
  set (w1 := mkWorld _ _ _ _ _).
  assert (fs w1 = fs w ∧ heap w1 = heap w) as [<- <-] by done.
  clearbody w1. revert w1.
  induction IH as [|[on oc] o Hoc _ IHo]; intros w1; [done|].
  simpl.
  set (w2 := mkWorld _ _ _ _ _).
  assert (fs w2 = fs w1 ∧ heap w2 = heap w1) as [<- <-] by done.
  clearbody w2.
  destruct (Hoc w2) as (H1 & H2 & H3). simpl in *.
  destruct (unhide_all_in_component oc w2) as [[[]|e] w3]; simpl in *; [|done].
  rewrite <- H2, <- H3. apply IHo.
Qed.

Lemma open_run doc w :
  let r := LazyDocument.open doc w in
  let file := LazyDocument._file doc in
  fs r.2 = fs w
  ∧ match document_of doc w with
    | Some d => r = (Ok tt, w)
    | None =>
        match DataFile.document file with
        | None => r.1 = Raise RuntimeError ∧ heap r.2 = heap w
        | Some d =>
            heap r.2 = <[LazyDocument._document doc := Some d]> (heap w)
            ∧ r.1 = if Document.activate d then
                      if Ctx.unhide_all (LazyDocument._ctx doc) then
                        match Document.design d with
                        | Some _ => Ok tt
                        | None => Raise AttributeError
                        end
                      else Ok tt
                    else Raise RuntimeError
        end
    end.
Proof.
  unfold LazyDocument.open. munfold. rewrite get_document_run. simpl.
  destruct (document_of doc w) as [d0|]; [done|]. simpl.
  destruct (DataFile.document (LazyDocument._file doc)) as [d|]; simpl; [|done].
  destruct (Document.activate d); simpl; [|done].
  destruct (Ctx.unhide_all (LazyDocument._ctx doc)); simpl; [|done].
  unfold unhide_all_in_document, design_from_document. munfold. simpl.
  destruct (Document.design d) as [des|]; simpl; [|done].
  set (w1 := mkWorld _ _ _ _ _).
  destruct (unhide_all_in_component_run (Design.rootComponent des) w1) as (H1 & H2 & H3).
  rewrite H1, H2, H3. done.
Qed.

Lemma export_filename_run ctx format file w :
  ∃ l, export_filename ctx format file w
       = (match sanitized (DataFile.name file) with
          | Ok s => Ok (Ctx.folder ctx // s //
                         (s ++ lit "_v" ++ str_of_int (DataFile.versionNumber file)
                            ++ lit "." ++ Format.value format))
          | Raise e => Raise e
          end, add_log l w).
Proof.
  unfold export_filename. munfold.
  destruct (sanitize_filename_run (DataFile.name file) w) as [l ->].
  exists l. by destruct (sanitized _).
Qed.

Lemma mkdir_from_spec rest : ∀ done m m',
  mkdir_from done rest m = inr m' →
  (∀ q, m' !! q = m !! q
        ∨ (m !! q = None ∧ m' !! q = Some Dir
           ∧ (length done < length q ≤ length done + length rest)%nat))
  ∧ (rest ≠ [] → m' !! (done ++ rest) = Some Dir).
Proof.
  induction rest as [|c rest IH]; intros done m m' H; simpl in H.
  - injection H as <-. split; [by left|done].
  - destruct (m !! (done ++ [c])) as [[|content]|] eqn:E; [| done |].
    + destruct (IH _ _ _ H) as [IH1 IH2]. split.
      * intros q. destruct (IH1 q) as [->|(?&?&?)]; [by left|right].
        rewrite length_app in *. simpl in *. repeat split; auto; lia.
      * intros _. destruct rest as [|c' rest].
        { simpl in H. by injection H as <-. }
        rewrite <- IH2 by done. f_equal. by rewrite <- app_assoc.
    + destruct (IH _ _ _ H) as [IH1 IH2]. split.
      * intros q. destruct (decide (q = done ++ [c])) as [->|Hne].
        { right. split; [done|]. split.
          - destruct (IH1 (done ++ [c])) as [->|(Hx&_&_)].
            + by rewrite lookup_insert_eq.
            + by rewrite lookup_insert_eq in Hx.
          - rewrite length_app. simpl. lia. }
        destruct (IH1 q) as [->|(Hx&?&?)].
        { left. by rewrite lookup_insert_ne. }
        right. rewrite lookup_insert_ne in Hx by done.
        rewrite length_app in *. simpl in *. repeat split; auto; lia.
      * intros _. destruct rest as [|c' rest].
        { simpl in H. injection H as <-. by rewrite lookup_insert_eq. }
        rewrite <- IH2 by done. f_equal. by rewrite <- app_assoc.
Qed.

Lemma mkdir_parents_run p w :
  mkdir_parents p w
  = match mkdir_from [] p (fs w) with
    | inr m => (Ok tt, set_fs (λ _, m) w)
    | inl e => (Raise e, w)
    end.
Proof. reflexivity. Qed.

Lemma mkdir_from_is_dir p m m' :
  mkdir_from [] p m = inr m' → is_dir m' p = true.
Proof.
  intros H. unfold is_dir, node_at. destruct p as [|c p]; [done|].
  apply mkdir_from_spec in H as [_ H]. simpl in H. by rewrite H.
Qed.

Lemma parent_length p : p ≠ [] → length p = S (length (parent p)).
Proof.
  intros H. unfold parent. destruct (exists_last H) as (q & x & ->).
  rewrite removelast_last, length_app. simpl. lia.
Qed.

Lemma mkdir_from_parent_absent p m m' :
  node_at m p = None → mkdir_from [] (parent p) m = inr m' →
  node_at m' p = None.
Proof.
  intros Hp H. assert (p ≠ []) as Hne by (by intros ->).
  destruct p as [|c p]; [done|]. simpl in *.
  apply mkdir_from_spec in H as [H _].
  destruct (H (c :: p)) as [->|(_&_&Hlen)]; [done|].
  rewrite (parent_length (c :: p)) in Hlen by done. simpl in Hlen. lia.
Qed.

(** C3: let the log file take the lines the call prints.  When the
    resolved output path exists, [export_file] returns [skipped(1)] and
    neither calls the API nor touches the handle or the filesystem.
    Otherwise its result is that of opening the handle, creating the
    parent directories and executing the export for the format:
    [saved(1)] when every step returns, else the exception of the first
    step that raises; when it returns, the handle is open, the parent
    directory exists, the last API request is the execution of the export
    options of this format for this path (those of STL with the root
    component of the design), and a successful export has written the
    file. *)
Theorem export_file_contract ctx format file doc w output_path w0 :
  export_filename ctx format file w = (Ok output_path, w0) →
  log_takes w (export_file ctx format file doc w).2 →
  (is_Some (node_at (fs w) output_path) →
     ∃ w', export_file ctx format file doc w = (Ok skipped1, w')
           ∧ calls w' = calls w ∧ heap w' = heap w ∧ fs w' = fs w)
  ∧ (node_at (fs w) output_path = None →
     (LazyDocument._document doc < length (heap w))%nat →
     let r := export_file ctx format file doc w in
     r.1 = export_steps format doc output_path w
     ∧ (∀ c, r.1 = Ok c →
          c = saved1
          ∧ is_Some (document_of doc r.2)
          ∧ is_dir (fs r.2) (parent output_path) = true
          ∧ (∃ design,
               opened_design doc w = Ok design
               ∧ last (calls r.2)
                 = Some (Execute
                     match format with
                     | F3D => FusionArchiveExportOptions output_path
                     | STL => STLExportOptions (Design.rootComponent design)
                                output_path
                     | STEP => STEPExportOptions output_path
                     | IGES => IGESExportOptions output_path
                     | SAT => SATExportOptions output_path
                     | SMT => SMTExportOptions output_path
                     end))
          ∧ (∀ design, opened_design doc w = Ok design →
               Design.exportManager design format = Succeeds →
               node_at (fs r.2) output_path = Some (File [])))).
Proof.
  intros Hname _.
  destruct (export_filename_run ctx format file w) as [l Hrun].
  unfold export_file. munfold. rewrite Hrun. rewrite Hrun in Hname.
  destruct (sanitized (DataFile.name file)) as [s|e]; [|done].
  match type of Hname with (Ok ?q, _) = _ => set (p := q) in * end.
  assert (p = output_path ∧ w0 = add_log l w) as [Hp _]
    by (split; congruence).
  clearbody p. subst p. clear Hname.
  assert (fs (add_log l w) = fs w ∧ heap (add_log l w) = heap w
          ∧ calls (add_log l w) = calls w
          ∧ document_of doc (add_log l w) = document_of doc w)
    as (Hf0 & Hh0 & Hc0 & Hd0) by done.
  set (wl := add_log l w) in *. clearbody wl.
  unfold path_exists. munfold. simpl. rewrite Hf0. split.
  - intros Hex. rewrite bool_decide_eq_true_2 by done. simpl. eauto.
  - intros Hnone Haddr. rewrite Hnone.
    rewrite bool_decide_eq_false_2 by (by intros [? ?]). simpl.
    pose proof (open_run doc wl) as Hopen.
    unfold export_steps.
    rewrite Hd0, Hf0, Hh0 in Hopen.
    simpl in Hopen. destruct Hopen as [Hfs Hopen].
    destruct (LazyDocument.open doc wl) as [ro w1] eqn:Eopen.
    simpl in *.
    assert (∃ d, document_of doc w1 = Some d
                 ∧ ro = Ok tt
                 ∧ opened_design doc w = match Document.design d with
                                         | Some des => Ok des
                                         | None => Raise AttributeError
                                         end
            ∨ (∃ e, ro = Raise e ∧ opened_design doc w = Raise e)) as Hcase.
    { unfold opened_design. destruct (document_of doc w) as [d0|] eqn:Hdw.
      - exists d0. left. injection Hopen as -> ->. by rewrite Hd0.
      - destruct (DataFile.document (LazyDocument._file doc)) as [d|].
        + destruct Hopen as [Hheap ->]. exists d.
          assert (document_of doc w1 = Some d) as Hd1.
          { unfold document_of. rewrite Hheap.
            by rewrite list_lookup_insert_eq. }
          destruct (Document.activate d); [|right; eauto].
          destruct (Ctx.unhide_all _); [|by left].
          destruct (Document.design d); [by left|right; eauto].
        + destruct Hopen as [-> _]. exists (Document.mk true None true).
          right; eauto. }
    destruct Hcase as (d & [(Hd1 & -> & Hod)|(e & -> & Hod)]);
      fold (opened_design doc w); rewrite Hod; [|done].
    unfold LazyDocument.design, design_from_document. munfold.
    rewrite get_document_run, Hd1. simpl.
    destruct (Document.design d) as [des|]; simpl; [|done].
    rewrite mkdir_parents_run, Hfs.
    destruct (mkdir_from [] (parent output_path) (fs w)) as [e|m] eqn:Emk; [done|].
    simpl. unfold api_write, write_artifact. munfold. simpl.
    pose proof (mkdir_from_is_dir _ _ _ Emk) as Hdir.
    pose proof (mkdir_from_parent_absent _ _ _ Hnone Emk) as Habs.
    assert (parent output_path ≠ output_path) as Hpne.
    { intros Heq. assert (output_path ≠ []) as Hne by (intros E; by rewrite E in Hnone).
      apply parent_length in Hne. rewrite Heq in Hne. lia. }
    assert (∀ n, is_dir (<[output_path := n]> m) (parent output_path) = true) as Hdir'.
    { intros n. unfold is_dir, node_at in *.
      destruct (parent output_path) eqn:Epp; [done|].
      rewrite lookup_insert_ne by done. exact Hdir. }
    assert (∀ w', heap w' = heap w1 → is_Some (document_of doc w')) as Hopen'.
    { intros w' Hw'. unfold document_of in *. rewrite Hw', Hd1. eauto. }
    destruct (Design.exportManager des format) eqn:Eem; simpl.
    + done.
    + split; [done|]. intros c [= <-]. split; [done|].
      split; [by apply Hopen'|]. split; [done|]. split.
      * exists des. split; [done|]. by rewrite last_snoc.
      * intros design [= <-]. by rewrite Eem.
    + rewrite Habs. unfold is_dir in Hdir.
      destruct (node_at m (parent output_path)) as [[|?]|]; try done. simpl.
      split; [done|]. intros c [= <-]. split; [done|].
      split; [by apply Hopen'|]. split; [apply Hdir'|]. split.
      * exists des. split; [done|]. by rewrite last_snoc.
      * intros _ _ _. unfold node_at. destruct output_path; [done|].
        by rewrite lookup_insert_eq.
Qed.

(** ** Metadata Ledger *)

Lemma node_at_insert_eq (m : gmap Path Node) p n :
  p ≠ [] → node_at (<[p := n]> m) p = Some n.
Proof. intros H. destruct p; [done|]. simpl. by rewrite lookup_insert_eq. Qed.

Lemma node_at_insert_ne (m : gmap Path Node) p q n :
  p ≠ q → node_at (<[p := n]> m) q = node_at m q.
Proof. intros H. destruct q; [done|]. simpl. by rewrite lookup_insert_ne. Qed.

Lemma node_at_None_ne m p : node_at m p = None → p ≠ [].
Proof. by intros H ->. Qed.

Section Ledger.

Variable fromtimestamp : Z → option str.

Lemma export_metadata_run ctx file w s :
  sanitized (DataFile.name file) = Ok s →
  let p := metadata_path ctx s in
  let stamp := fromtimestamp (DataFile.dateCreated file) in
  ∃ l, export_metadata fromtimestamp ctx file w
  = match node_at (fs w) p with
    | None =>
        match node_at (fs w) (parent p) with
        | Some Dir =>
            match stamp with
            | Some created =>
                if encodable (version_block file created) then
                  (Ok saved1,
                   add_log l (set_fs <[p := File (version_block file created)]> w))
                else
                  (Raise UnicodeEncodeError,
                   add_log l (set_fs <[p := File []]> w))
            | None => (Raise OSError, add_log l (set_fs <[p := File []]> w))
            end
        | Some (File _) => (Raise NotADirectoryError, add_log l w)
        | None => (Raise FileNotFoundError, add_log l w)
        end
    | Some Dir => (Raise IsADirectoryError, add_log l w)
    | Some (File content) =>
        if bool_decide (recorded file content) then (Ok Counter.zero, add_log l w)
        else match stamp with
             | Some created =>
                 if encodable (version_block file created) then
                   (Ok Counter.zero,
                    add_log l (set_fs <[p := File (content ++ version_block file created)]> w))
                 else (Raise UnicodeEncodeError, add_log l w)
             | None => (Raise OSError, add_log l w)
             end
    end.
Proof.
  intros Hs p stamp. unfold export_metadata. munfold.
  destruct (sanitize_filename_run (DataFile.name file) w) as [l0 ->].
  rewrite Hs. fold p. unfold path_exists. munfold. simpl.
  destruct (node_at (fs w) p) as [[|content]|] eqn:Hp.
  - rewrite bool_decide_eq_true_2 by eauto. simpl.
    unfold readlines. simpl. rewrite Hp. by exists l0.
  - rewrite bool_decide_eq_true_2 by eauto. simpl.
    unfold readlines. simpl. rewrite Hp.
    fold (ledger_lines content). fold (recorded file content).
    destruct (bool_decide (recorded file content)); [by exists l0|].
    unfold open_a. simpl. rewrite Hp. fold stamp.
    destruct stamp as [created|]; [|by exists l0]. simpl.
    unfold write_a. simpl. rewrite Hp.
    destruct (encodable (version_block file created)); [|by exists l0]. simpl.
    exists (l0 ++ [LogUpdated p]).
    unfold add_log, set_fs. simpl. by rewrite <- app_assoc.
  - rewrite bool_decide_eq_false_2 by (by intros [? ?]). simpl.
    unfold open_w. simpl. rewrite Hp.
    pose proof (node_at_None_ne _ _ Hp) as Hne.
    destruct (node_at (fs w) (parent p)) as [[|?]|]; simpl;
      [|by exists l0|by exists l0].
    unfold readlines. simpl. rewrite node_at_insert_eq by done.
    simpl.
    unfold open_a. simpl. rewrite node_at_insert_eq by done. fold stamp.
    destruct stamp as [created|]; simpl.
    + unfold write_a. simpl. rewrite node_at_insert_eq by done.
      destruct (encodable (version_block file created)); simpl.
      * rewrite insert_insert_eq. exists (l0 ++ [LogCreated p; LogUpdated p]).
        unfold add_log, set_fs. simpl. by rewrite <- !app_assoc.
      * exists (l0 ++ [LogCreated p]).
        unfold add_log, set_fs. simpl. by rewrite <- !app_assoc.
    + exists (l0 ++ [LogCreated p]).
      unfold add_log, set_fs. simpl. by rewrite <- !app_assoc.
Qed.
(** C6: when [export_metadata] returns, it returns [saved(1)] exactly when
    the ledger file did not exist before the call, and the zero counter
    otherwise.  On an existing ledger holding a line that is, once
    stripped, ["Version: {versionNumber}"], it returns the zero counter and
    writes nothing.  On an existing ledger without that line, when the
    creation date converts to text and the log file takes the lines of the
    call: if the version block has an encoding it is appended and the zero
    counter is still returned, otherwise [f.write] raises
    [UnicodeEncodeError] and the ledger is left as it was.  On a missing
    ledger in an existing directory, under the same conditions, the file
    is created, the block is written and [saved(1)] is returned; when the
    block has no encoding the call raises and leaves the new ledger
    empty. *)
Theorem export_metadata_contract ctx file w s :
  sanitized (DataFile.name file) = Ok s →
  let p := metadata_path ctx s in
  let r := export_metadata fromtimestamp ctx file w in
  (∀ c, r.1 = Ok c →
     (c = saved1 ↔ node_at (fs w) p = None) ∧ (c = saved1 ∨ c = Counter.zero))
  ∧ (∀ content,
       node_at (fs w) p = Some (File content) → recorded file content →
       r.1 = Ok Counter.zero ∧ fs r.2 = fs w)
  ∧ (∀ content created,
       node_at (fs w) p = Some (File content) → ¬ recorded file content →
       fromtimestamp (DataFile.dateCreated file) = Some created →
       log_takes w r.2 →
       if encodable (version_block file created)
       then r.1 = Ok Counter.zero
            ∧ fs r.2 = <[p := File (content ++ version_block file created)]> (fs w)
       else r.1 = Raise UnicodeEncodeError ∧ fs r.2 = fs w)
  ∧ (∀ created,
       node_at (fs w) p = None → is_dir (fs w) (parent p) = true →
       fromtimestamp (DataFile.dateCreated file) = Some created →
       log_takes w r.2 →
       if encodable (version_block file created)
       then r.1 = Ok saved1
            ∧ fs r.2 = <[p := File (version_block file created)]> (fs w)
       else r.1 = Raise UnicodeEncodeError
            ∧ fs r.2 = <[p := File []]> (fs w)).
Proof.
  intros Hs p r.
  destruct (export_metadata_run ctx file w s Hs) as [l Hrun].
  fold p in Hrun. fold r in Hrun. clearbody r.
  split; [|split; [|split]].
  - intros c H. rewrite Hrun in H.
    destruct (node_at (fs w) p) as [[|content]|]; [done| |].
    + assert (c = Counter.zero) as ->.
      { destruct (bool_decide _); [simpl in H; congruence|].
        destruct (fromtimestamp _); [|done].
        destruct (encodable _); simpl in H; congruence. }
      split; [by split|by right].
    + assert (c = saved1) as ->.
      { destruct (node_at (fs w) (parent p)) as [[|?]|]; try done.
        destruct (fromtimestamp _); [|done].
        destruct (encodable _); simpl in H; congruence. }
      split; [by split|by left].
  - intros content H Hrec. rewrite Hrun, H. by rewrite bool_decide_eq_true_2.
  - intros content created H Hrec Hclock _.
    rewrite Hrun, H. rewrite bool_decide_eq_false_2 by done. rewrite Hclock.
    by destruct (encodable _).
  - intros created H Hdir Hclock _. rewrite Hrun, H. unfold is_dir in Hdir.
    destruct (node_at (fs w) (parent p)) as [[|?]|]; try done. rewrite Hclock.
    by destruct (encodable _).
Qed.

(** [export_metadata] never creates a directory, whatever it returns. *)
Lemma export_metadata_keeps_directories ctx file w q :
  is_dir (fs (export_metadata fromtimestamp ctx file w).2) q = is_dir (fs w) q.
Proof.
  destruct (sanitized (DataFile.name file)) as [s|e] eqn:Hs.
  - destruct (export_metadata_run ctx file w s Hs) as [l ->].
    set (p := metadata_path ctx s).
    assert (∀ n, node_at (fs w) p ≠ Some Dir →
                 is_dir (<[p := File n]> (fs w)) q = is_dir (fs w) q) as Hins.
    { intros n Hp. unfold is_dir. destruct (decide (p = q)) as [<-|Hne].
      - destruct p as [|c p']; [done|]. simpl in *. rewrite lookup_insert_eq.
        by destruct (fs w !! (c :: p')) as [[|?]|].
      - by rewrite node_at_insert_ne. }
    destruct (node_at (fs w) p) as [[|content]|] eqn:Hp; [done| |].
    + destruct (bool_decide _); [done|].
      destruct (fromtimestamp _); [|done].
      destruct (encodable _); [|done]. simpl. apply Hins. congruence.
    + destruct (node_at (fs w) (parent p)) as [[|?]|]; try done.
      destruct (fromtimestamp _); [destruct (encodable _)|]; simpl;
        apply Hins; congruence.
  - unfold export_metadata. munfold.
    destruct (sanitize_filename_run (DataFile.name file) w) as [l ->].
    by rewrite Hs.
Qed.

Lemma fs_wf_absent m p :
  fs_wf m → is_dir m (parent p) = false → node_at m p = None.
Proof.
  intros Hwf Hpar. destruct p as [|c p]; [done|]. simpl.
  destruct (m !! (c :: p)) as [n|] eqn:E; [|done].
  apply Hwf in E. congruence.
Qed.

(** C10: [export_metadata] never creates directories.  In a well-formed
    filesystem where the parent directory of the ledger path is not an
    existing directory, the call raises and leaves the filesystem as it
    was, so no ledger is produced; [visit_file] on an [f3d] file with an
    empty format list and sketches disabled then returns [errored(1)]. *)
Theorem export_metadata_needs_directory ctx file w s :
  sanitized (DataFile.name file) = Ok s →
  fs_wf (fs w) →
  let p := metadata_path ctx s in
  is_dir (fs w) (parent p) = false →
  let r := export_metadata fromtimestamp ctx file w in
  (∃ e, r.1 = Raise e) ∧ fs r.2 = fs w
  ∧ node_at (fs r.2) p = None
  ∧ (∀ q, is_dir (fs r.2) q = is_dir (fs w) q)
  ∧ (DataFile.fileExtension file = lit "f3d" → Ctx.formats ctx = [] →
     Ctx.save_sketches ctx = false →
     let v := visit_file fromtimestamp ctx file w in
     v.1 = Ok errored1 ∧ fs v.2 = fs w).
Proof.
  intros Hs Hwf p Hpar r.
  pose proof (fs_wf_absent _ _ Hwf Hpar) as Hp.
  assert (∀ w', fs w' = fs w →
    ∃ e l, export_metadata fromtimestamp ctx file w' = (Raise e, add_log l w'))
    as Hraise.
  { intros w' Hw'.
    destruct (export_metadata_run ctx file w' s Hs) as [l ->].
    fold p. rewrite Hw', Hp. unfold is_dir in Hpar.
    destruct (node_at (fs w) (parent p)) as [[|?]|]; [done| |]; eauto. }
  destruct (Hraise w eq_refl) as (e & l & Hr). fold r in Hr.
  split; [rewrite Hr; eauto|]. split; [by rewrite Hr|].
  split; [by rewrite Hr|]. split; [intros q; by rewrite Hr|].
  intros Hext Hfmt Hsk v. subst v. unfold visit_file.
  erewrite bind_ok by apply log_run.
  rewrite Hext, Hfmt, Hsk.
  change (negb (str_eqb (lit "f3d") (lit "f3d"))) with false. cbv iota.
  erewrite bind_ok by apply init_run.
  erewrite bind_ok by apply ret_run.
  erewrite bind_ok by apply ret_run.
  set (w1 := set_heap _ _).
  destruct (Hraise w1 eq_refl) as (e' & l' & Hm).
  erewrite bind_ok.
  2:{ erewrite try_raise by (erewrite bind_raise by apply Hm; reflexivity).
      erewrite bind_ok by apply log_run. apply ret_run. }
  erewrite bind_ok by (apply close_unopened; by apply fresh_handle_unopened).
  done.
Qed.

End Ledger.

(** ** What every run keeps *)

Lemma fs_le_refl m : fs_le m m.
Proof. intros p. destruct (node_at m p) as [[|c]|]; eauto. Qed.

Lemma fs_le_trans m1 m2 m3 : fs_le m1 m2 → fs_le m2 m3 → fs_le m1 m3.
Proof.
  intros H12 H23 p. specialize (H12 p). specialize (H23 p).
  destruct (node_at m1 p) as [[|c]|]; [| |done].
  - by rewrite H12 in H23.
  - destruct H12 as [c' H12]. by rewrite H12 in H23.
Qed.

Lemma fs_le_insert m p n :
  match node_at m p, n with
  | None, _ | Some (File _), File _ | Some Dir, Dir => True
  | _, _ => False
  end →
  fs_le m (<[p := n]> m).
Proof.
  intros H q. destruct (decide (p = q)) as [<-|Hne].
  - destruct p as [|c p]; [done|].
    rewrite node_at_insert_eq by done.
    destruct (node_at m (c :: p)) as [[|?]|], n; naive_solver.
  - rewrite node_at_insert_ne by done. apply fs_le_refl.
Qed.

Lemma fs_le_exists m m' p :
  fs_le m m' → is_Some (node_at m p) → is_Some (node_at m' p).
Proof.
  intros H [n Hn]. specialize (H p). rewrite Hn in H.
  destruct n; [by rewrite H|]. destruct H as [c ->]. eauto.
Qed.

Lemma mkdir_from_le rest : ∀ done m m',
  mkdir_from done rest m = inr m' → fs_le m m'.
Proof.
  induction rest as [|c rest IH]; intros done m m' H; simpl in H.
  - injection H as <-. apply fs_le_refl.
  - destruct (m !! (done ++ [c])) as [[|?]|] eqn:E; [eauto|done|].
    eapply fs_le_trans; [|eauto]. apply fs_le_insert.
    unfold node_at. destruct (done ++ [c]) eqn:E'; [by destruct done|].
    by rewrite E.
Qed.

#[global] Instance world_le_preorder : PreOrder world_le.
Proof.
  split.
  - intros w. split; [apply fs_le_refl|done].
  - intros w1 w2 w3 [H1 H1'] [H2 H2']. split; [by eapply fs_le_trans|].
    by etrans.
Qed.

#[global] Instance same_heap_preorder : PreOrder same_heap.
Proof.
  split; [by intros w|]. intros w1 w2 w3 H1 H2. unfold same_heap in *. congruence.
Qed.

#[global] Instance quiet_preorder : PreOrder quiet.
Proof.
  split.
  - intros w. split; [apply fs_le_refl|done].
  - intros w1 w2 w3 [H1 H1'] [H2 H2']. split; [by eapply fs_le_trans|congruence].
Qed.

#[global] Instance fs_grows_preorder : PreOrder fs_grows.
Proof.
  split; [intros w; apply fs_le_refl|].
  intros w1 w2 w3. apply fs_le_trans.
Qed.

(** A step that only changes the filesystem, and only by adding to it. *)
Lemma world_le_fs {A} (m : M A) :
  (∀ w, fs_le (fs w) (fs (m w).2) ∧ calls (m w).2 = calls w) → keeps world_le m.
Proof. intros H w. destruct (H w) as [H1 H2]. split; [done|]. by rewrite H2. Qed.

#[global] Instance world_le_frame : Frame world_le.
Proof.
  split; [apply _|..]; intros;
    [| intros w; split; [apply fs_le_refl|simpl; set_solver] |..];
    apply world_le_fs; intros w.
  - split; [apply fs_le_refl|done].
  - unfold mkdir.
    destruct (node_at (fs w) p) as [[|?]|] eqn:E; try (split; [apply fs_le_refl|done]).
    destruct (node_at (fs w) (parent p)) as [[|?]|]; try (split; [apply fs_le_refl|done]).
    split; [|done]. simpl. apply fs_le_insert. by rewrite E.
  - unfold mkdir_parents.
    destruct (mkdir_from [] p (fs w)) as [e|m] eqn:E; [split; [apply fs_le_refl|done]|].
    split; [|done]. simpl. by eapply mkdir_from_le.
  - unfold open_w.
    destruct (node_at (fs w) p) as [[|?]|] eqn:E; try (split; [apply fs_le_refl|done]).
    + split; [|done]. simpl. apply fs_le_insert. by rewrite E.
    + destruct (node_at (fs w) (parent p)) as [[|?]|]; try (split; [apply fs_le_refl|done]).
      split; [|done]. simpl. apply fs_le_insert. by rewrite E.
  - unfold open_a.
    destruct (node_at (fs w) p) as [[|?]|] eqn:E; try (split; [apply fs_le_refl|done]).
    destruct (node_at (fs w) (parent p)) as [[|?]|]; try (split; [apply fs_le_refl|done]).
    split; [|done]. simpl. apply fs_le_insert. by rewrite E.
  - unfold write_a.
    destruct (node_at (fs w) p) as [[|?]|] eqn:E; try (split; [apply fs_le_refl|done]).
    destruct (encodable text); [|split; [apply fs_le_refl|done]].
    split; [|done]. simpl. apply fs_le_insert. by rewrite E.
  - unfold write_artifact.
    destruct (node_at (fs w) p) as [[|?]|] eqn:E; try (split; [apply fs_le_refl|done]);
      destruct (node_at (fs w) (parent p)) as [[|?]|]; try (split; [apply fs_le_refl|done]);
      (split; [|done]); simpl; apply fs_le_insert; by rewrite E.
Qed.

#[global] Instance world_le_heap_frame : HeapFrame world_le.
Proof. intros f w. split; [apply fs_le_refl|done]. Qed.

#[global] Instance same_heap_frame : Frame same_heap.
Proof.
  split; [apply _|..]; intros; intros w; unfold same_heap; try done.
  - unfold mkdir. destruct (node_at (fs w) p) as [[|?]|]; try done.
    by destruct (node_at (fs w) (parent p)) as [[|?]|].
  - unfold mkdir_parents. by destruct (mkdir_from [] p (fs w)).
  - unfold open_w. destruct (node_at (fs w) p) as [[|?]|]; try done.
    by destruct (node_at (fs w) (parent p)) as [[|?]|].
  - unfold open_a. destruct (node_at (fs w) p) as [[|?]|]; try done.
    by destruct (node_at (fs w) (parent p)) as [[|?]|].
  - unfold write_a. destruct (node_at (fs w) p) as [[|?]|]; try done.
    by destruct (encodable text).
  - unfold write_artifact.
    destruct (node_at (fs w) p) as [[|?]|];
      by destruct (node_at (fs w) (parent p)) as [[|?]|].
Qed.

Lemma DataFolder_ind' (P : DataFolder.t → Prop) :
  (∀ name files subs,
     Forall P (default [] subs) → P (DataFolder.mk name files subs)) →
  ∀ f, P f.
Proof.
  intros H. fix IH 1. intros [n files subs]. apply H.
  destruct subs as [l|]; [|constructor].
  induction l as [|x l IHl]; constructor; [apply IH | apply IHl].
Qed.

Create HintDb keeps.

Section Keeps.

Context (R : relation World) `{!Frame R}.

Lemma keeps_id {A} (m : M A) : (∀ w, (m w).2 = w) → keeps R m.
Proof. intros H w. by rewrite H. Qed.

Lemma keeps_ret {A} (a : A) : keeps R (mret a : M A).
Proof. by apply keeps_id. Qed.

Lemma keeps_raise {A} e : keeps R (raise e : M A).
Proof. by apply keeps_id. Qed.

Lemma keeps_gets {A} (f : World → A) : keeps R (gets f).
Proof. by apply keeps_id. Qed.

Lemma keeps_readlines p : keeps R (readlines p).
Proof.
  apply keeps_id. intros w. unfold readlines.
  by destruct (node_at (fs w) p) as [[|?]|].
Qed.

Lemma keeps_bind {A B} (m : M A) (f : A → M B) :
  keeps R m → (∀ a, keeps R (f a)) → keeps R (m ≫= f).
Proof.
  intros Hm Hf w. unfold mbind, M_bind. specialize (Hm w).
  destruct (m w) as [[a|e] w1]; simpl in *; [|done].
  etrans; [exact Hm|apply Hf].
Qed.

Lemma keeps_try {A} (m : M A) h :
  keeps R m → (∀ e, keeps R (h e)) → keeps R (try_except m h).
Proof.
  intros Hm Hh w. unfold try_except. specialize (Hm w).
  destruct (m w) as [[a|e] w1]; simpl in *; [done|].
  etrans; [exact Hm|apply Hh].
Qed.

Lemma keeps_for_each {A S} (xs : list A) (body : A → S → M S) :
  (∀ x acc, x ∈ xs → keeps R (body x acc)) →
  ∀ acc, keeps R (for_each xs body acc).
Proof.
  induction xs as [|x xs IH]; intros Hb acc; simpl.
  - apply keeps_ret.
  - apply keeps_bind; [apply Hb; left|].
    intros a. apply IH. intros y acc' Hy. apply Hb. by right.
Qed.

Hint Resolve keeps_ret keeps_raise keeps_gets keeps_readlines frame_log
  frame_call frame_mkdir frame_mkdir_parents frame_open_w frame_open_a
  frame_write_a frame_write_artifact : keeps.

(** Splits a computation along its binds, branches and loops. *)
Ltac keeps_steps :=
  repeat first
    [ progress intros
    | progress cbv zeta
    | solve [eauto with keeps]
    | apply keeps_bind
    | apply keeps_try
    | apply keeps_for_each
    | match goal with
      | |- keeps _ (if ?b then _ else _) => destruct b
      | |- keeps _ (match ?x with _ => _ end) => destruct x
      end ].

Lemma keeps_sanitize_filename name : keeps R (sanitize_filename name).
Proof. unfold sanitize_filename. keeps_steps. Qed.

Hint Resolve keeps_sanitize_filename : keeps.

Lemma keeps_export_filename ctx format file :
  keeps R (export_filename ctx format file).
Proof. unfold export_filename. keeps_steps. Qed.

Lemma keeps_api_write c o p : keeps R (api_write c o p).
Proof. unfold api_write. keeps_steps. Qed.

Hint Resolve keeps_export_filename keeps_api_write : keeps.

Lemma keeps_export_sketch ctx cn sk acc : keeps R (export_sketch ctx cn sk acc).
Proof. unfold export_sketch, path_exists. keeps_steps. Qed.

Hint Resolve keeps_export_sketch : keeps.

Lemma keeps_export_sketches component :
  ∀ ctx, keeps R (export_sketches ctx component).
Proof.
  induction component as [n s o IH] using Component_ind'. intros ctx. simpl.
  apply keeps_bind; [keeps_steps|]. intros acc. revert acc.
  induction IH as [|[on oc] o Hoc _ IHo]; intros acc; [keeps_steps|].
  simpl in Hoc. keeps_steps.
Qed.

Lemma keeps_unhide_all_in_component component :
  keeps R (unhide_all_in_component component).
Proof.
  induction component as [n s o IH] using Component_ind'. simpl.
  apply keeps_bind; [keeps_steps|]. intros _.
  induction IH as [|[on oc] o Hoc _ IHo]; [keeps_steps|].
  simpl in Hoc. keeps_steps.
Qed.

Hint Resolve keeps_export_sketches keeps_unhide_all_in_component : keeps.

Lemma keeps_design_from_document d : keeps R (design_from_document d).
Proof. unfold design_from_document. keeps_steps. Qed.

Hint Resolve keeps_design_from_document : keeps.

Lemma keeps_close doc : keeps R (LazyDocument.close doc).
Proof. unfold LazyDocument.close, LazyDocument.get_document. keeps_steps. Qed.

Lemma keeps_design doc : keeps R (LazyDocument.design doc).
Proof. unfold LazyDocument.design, LazyDocument.get_document. keeps_steps. Qed.

Hint Resolve keeps_close keeps_design : keeps.

Lemma keeps_rootComponent doc : keeps R (LazyDocument.rootComponent doc).
Proof. unfold LazyDocument.rootComponent. keeps_steps. Qed.

Hint Resolve keeps_rootComponent : keeps.

Variable fromtimestamp : Z → option str.

Lemma keeps_export_metadata ctx file :
  keeps R (export_metadata fromtimestamp ctx file).
Proof. unfold export_metadata, path_exists. keeps_steps. Qed.

Hint Resolve keeps_export_metadata : keeps.

Lemma keeps_metadata_stage ctx file acc :
  keeps R (metadata_stage fromtimestamp ctx file acc).
Proof. unfold metadata_stage, traceback_handler. keeps_steps. Qed.

(** [export_file] changes the heap only by opening the handle. *)
Lemma keeps_export_file_if ctx format file doc :
  keeps R (LazyDocument.open doc) → keeps R (export_file ctx format file doc).
Proof. intros Ho. unfold export_file, path_exists. keeps_steps. Qed.

Lemma keeps_formats_stage_if ctx file doc acc :
  keeps R (LazyDocument.open doc) → keeps R (formats_stage ctx file doc acc).
Proof.
  intros Ho. pose proof (λ format, keeps_export_file_if ctx format file doc Ho).
  unfold formats_stage, traceback_handler. keeps_steps.
Qed.

(** From here on the heap changes too. *)
Context `{!HeapFrame R}.

Hint Resolve frame_set_heap : keeps.

Lemma keeps_open doc : keeps R (LazyDocument.open doc).
Proof.
  unfold LazyDocument.open, LazyDocument.get_document,
    LazyDocument.set_document, unhide_all_in_document.
  keeps_steps.
Qed.

Lemma keeps_init ctx file : keeps R (LazyDocument.__init__ ctx file).
Proof. unfold LazyDocument.__init__. keeps_steps. Qed.

Hint Resolve keeps_open keeps_init : keeps.

Lemma keeps_export_file ctx format file doc :
  keeps R (export_file ctx format file doc).
Proof. unfold export_file, path_exists. keeps_steps. Qed.

Hint Resolve keeps_export_file : keeps.

Lemma keeps_visit_file ctx file : keeps R (visit_file fromtimestamp ctx file).
Proof. unfold visit_file. keeps_steps. Qed.

Hint Resolve keeps_visit_file : keeps.

Lemma keeps_visit_file_wrapper ctx file :
  keeps R (visit_file_wrapper fromtimestamp ctx file).
Proof. unfold visit_file_wrapper. keeps_steps. Qed.

Hint Resolve keeps_visit_file_wrapper : keeps.

Lemma keeps_visit_folder_file ctx file acc :
  keeps R (visit_folder_file fromtimestamp ctx file acc).
Proof. unfold visit_folder_file. keeps_steps. Qed.

Hint Resolve keeps_visit_folder_file : keeps.

Lemma keeps_visit_folder folder :
  ∀ ctx, keeps R (visit_folder fromtimestamp ctx folder).
Proof.
  induction folder as [n files subs IH] using DataFolder_ind'. intros ctx.
  simpl. apply keeps_bind; [keeps_steps|]. intros _.
  apply keeps_bind; [keeps_steps|]. intros s.
  apply keeps_bind; [keeps_steps|]. intros l.
  apply keeps_bind; [keeps_steps|]. intros acc.
  destruct subs as [subs|]; [|keeps_steps].
  simpl in IH. revert acc.
  induction IH as [|sub subs Hsub _ IHs]; intros acc; keeps_steps.
Qed.

Hint Resolve keeps_visit_folder : keeps.

Lemma keeps_main ctx : keeps R (main fromtimestamp ctx).
Proof. unfold main, init_directory, init_logging. keeps_steps. Qed.

End Keeps.

(** ** The second run: loops and wrappers *)

Lemma counter_eq a b :
  Counter.saved a = Counter.saved b → Counter.skipped a = Counter.skipped b →
  Counter.errored a = Counter.errored b → a = b.
Proof. destruct a, b. simpl. by intros -> -> ->. Qed.

Lemma iadd_skips acc n m :
  Counter.__iadd__ (Counter.__iadd__ acc (Counter.mk 0 n 0)) (Counter.mk 0 m 0)
  = Counter.__iadd__ acc (Counter.mk 0 (n + m) 0).
Proof. apply counter_eq; simpl; lia. Qed.

Lemma iadd_nothing acc : Counter.__iadd__ acc (Counter.mk 0 0 0) = acc.
Proof. apply counter_eq; simpl; lia. Qed.

Lemma add_skipped_iadd n acc :
  Counter.add_skipped n acc = Counter.__iadd__ acc (Counter.mk 0 n 0).
Proof. apply counter_eq; simpl; lia. Qed.

Lemma nonneg_iadd a b : nonneg a → nonneg b → nonneg (Counter.__iadd__ a b).
Proof. unfold nonneg. simpl. lia. Qed.

Lemma nonneg_zero : nonneg Counter.zero.
Proof. unfold nonneg. simpl. lia. Qed.

Lemma produced_le m m' c : fs_le m m' → produced m c → produced m' c.
Proof. intros H. destruct c; simpl; eauto using fs_le_exists. Qed.

Lemma later_le w w' v : world_le w w' → later w' v → later w v.
Proof.
  intros [H1 H2] [H3 H4]. split; [by eapply fs_le_trans|].
  intros c Hc. apply H4, H2, Hc.
Qed.

Lemma later_grows w v v' : later w v → fs_le (fs v) (fs v') → later w v'.
Proof.
  intros [H1 H2] H. split; [by eapply fs_le_trans|].
  intros c Hc. eapply produced_le; eauto.
Qed.

Section SecondRun.

Context (R : relation World) `{!PreOrder R}.
Hypothesis R_fs : ∀ v v', R v v' → fs_le (fs v) (fs v').

(** [for x in xs: counter = body(x, counter)] *)
Lemma for_each_skips {A} (xs : list A) (body body' : A → Counter → M Counter)
    (item : A → Z) :
  (∀ x acc, keeps world_le (body x acc)) →
  (∀ x, x ∈ xs → step_skips_again R (body x) (body' x) (item x)) →
  step_skips_again R (for_each xs body) (for_each xs body') (sumZ (item <$> xs)).
Proof.
  intros Hk. induction xs as [|x xs IH]; intros Hb acc w acc' w' Hrun Hacc.
  - simpl in Hrun. injection Hrun as <- <-.
    split; [done|]. split; [lia|]. intros _ v acc2 _. exists v.
    split; [|done]. simpl. by rewrite iadd_nothing.
  - simpl in Hrun. unfold mbind, M_bind in Hrun.
    destruct (body x acc w) as [[a1|e] w1] eqn:E1; [|done].
    destruct (Hb x (list_elem_of_here _ _) _ _ _ _ E1 Hacc) as (Hn1 & Hle1 & Hs1).
    assert (∀ y, y ∈ xs → step_skips_again R (body y) (body' y) (item y)) as Hb'
      by (intros y Hy; apply Hb; by right).
    destruct (IH Hb' _ _ _ _ Hrun Hn1) as (Hn & Hle & Hs).
    split; [done|]. split; [lia|].
    intros Herr v acc2 Hv.
    assert (world_le w1 w') as Hw1.
    { pose proof (keeps_for_each world_le xs body (λ y a _, Hk y a) a1 w1) as Hx.
      by rewrite Hrun in Hx. }
    destruct (Hs1 ltac:(lia) v acc2 (later_le _ _ _ Hw1 Hv)) as (v1 & Hv1 & HR1).
    destruct (Hs ltac:(lia) v1 (Counter.__iadd__ acc2 (Counter.mk 0 (item x) 0))
                (later_grows _ _ _ Hv (R_fs _ _ HR1))) as (v2 & Hv2 & HR2).
    exists v2. split; [|by etrans].
    simpl. unfold mbind, M_bind. rewrite Hv1, Hv2. by rewrite iadd_skips.
Qed.

(** [counter += f()] *)
Lemma acc_skips (f f' : M Counter) n :
  skips_again R f f' n →
  step_skips_again R (λ acc, c ← f; mret (Counter.__iadd__ acc c))
                     (λ acc, c ← f'; mret (Counter.__iadd__ acc c)) n.
Proof.
  intros Hf acc w acc' w' Hrun Hacc. unfold mbind, M_bind in Hrun.
  destruct (f w) as [[c|e] w1] eqn:E; [|done]. injection Hrun as <- <-.
  destruct (Hf _ _ _ E) as [Hn Hs].
  split; [by apply nonneg_iadd|]. destruct Hn as (_ & _ & Hn).
  split; [simpl; lia|]. simpl. intros Herr v acc2 Hv.
  destruct (Hs ltac:(lia) v Hv) as (v' & Hv' & HR).
  exists v'. split; [|done]. unfold mbind, M_bind. by rewrite Hv'.
Qed.

(** [try: counter += f() / except Exception: counter.errored += 1; ...] *)
Lemma try_skips (f f' : M Counter) (h : Exn → Counter → M Counter) n :
  skips_again R f f' n →
  (∀ e acc w, ∃ w', h e acc w = (Ok (Counter.add_errored 1 acc), w')) →
  step_skips_again R
    (λ acc, try_except (c ← f; mret (Counter.__iadd__ acc c)) (λ e, h e acc))
    (λ acc, try_except (c ← f'; mret (Counter.__iadd__ acc c)) (λ e, h e acc)) n.
Proof.
  intros Hf Hh acc w acc' w' Hrun Hacc.
  unfold try_except, mbind, M_bind in Hrun.
  destruct (f w) as [[c|e] w1] eqn:E.
  - injection Hrun as <- <-. destruct (Hf _ _ _ E) as [Hn Hs].
    split; [by apply nonneg_iadd|]. destruct Hn as (_ & _ & Hn).
    split; [simpl; lia|]. simpl. intros Herr v acc2 Hv.
    destruct (Hs ltac:(lia) v Hv) as (v' & Hv' & HR).
    exists v'. split; [|done]. unfold try_except, mbind, M_bind. by rewrite Hv'.
  - destruct (Hh e acc w1) as [w2 Hw2]. rewrite Hw2 in Hrun.
    injection Hrun as <- <-. unfold nonneg in *. simpl. split; [lia|].
    split; [lia|]. intros; lia.
Qed.

(** A loop started on [Counter()]. *)
Lemma from_zero (body body' : Counter → M Counter) n :
  step_skips_again R body body' n →
  skips_again R (body Counter.zero) (body' Counter.zero) n.
Proof.
  intros Hb w c w' Hrun.
  destruct (Hb _ _ _ _ Hrun nonneg_zero) as (Hn & _ & Hs).
  split; [done|]. intros Herr v Hv.
  destruct (Hs Herr v Counter.zero Hv) as (v' & Hv' & HR).
  exists v'. by split.
Qed.

End SecondRun.

(** ** The second run: the exporters *)

Lemma bind_inv {A B} (m : M A) (f : A → M B) w b w' :
  (m ≫= f) w = (Ok b, w') → ∃ a w1, m w = (Ok a, w1) ∧ f a w1 = (Ok b, w').
Proof.
  unfold mbind, M_bind. destruct (m w) as [[a|e] w1]; [eauto|done].
Qed.

Lemma try_inv {A} (m : M A) h w a w' :
  try_except m h w = (Ok a, w') →
  m w = (Ok a, w') ∨ ∃ e w1, m w = (Raise e, w1) ∧ h e w1 = (Ok a, w').
Proof.
  unfold try_except. destruct (m w) as [[a'|e] w1]; [by left|right; eauto].
Qed.

Lemma path_exists_run p w :
  path_exists p w = (Ok (bool_decide (is_Some (node_at (fs w) p))), w).
Proof. reflexivity. Qed.

Lemma later_add_log w l v : later w v → later w (add_log l v).
Proof. by intros [H1 H2]. Qed.

Lemma quiet_add_log l v : quiet v (add_log l v).
Proof. split; [apply fs_le_refl|done]. Qed.

Lemma fs_grows_add_log l v : fs_grows v (add_log l v).
Proof. apply fs_le_refl. Qed.

Lemma sumZ_ones {A} (l : list A) : sumZ ((λ _, 1) <$> l) = Z.of_nat (length l).
Proof.
  induction l as [|x l IH]; [done|].
  rewrite fmap_cons. simpl length. unfold sumZ in *. simpl foldr. rewrite IH. lia.
Qed.

Lemma api_write_call c o p w w' :
  api_write c o p w = (Ok tt, w') → c ∈ calls w'.
Proof.
  unfold api_write. intros ([] & w1 & Hc & H)%bind_inv.
  unfold call, modify in Hc. injection Hc as <-. destruct o; simpl in H.
  - done.
  - injection H as <-. simpl. set_solver.
  - pose proof (frame_write_artifact (R := world_le) p
                 (mkWorld (fs w) (heap w) (calls w ++ [c]) (log_fh w) (now w)))
      as [_ Hsub].
    rewrite H in Hsub. simpl in Hsub. apply Hsub. set_solver.
Qed.

Section SecondRunSteps.

Context (R : relation World) `{!PreOrder R}.
Hypothesis R_log : ∀ l v, R v (add_log l v).

(** Two steps in a row. *)
Lemma seq_skips (b1 b1' b2 b2' : Counter → M Counter) n1 n2 :
  (∀ v v', R v v' → fs_le (fs v) (fs v')) →
  (∀ acc, keeps world_le (b2 acc)) →
  step_skips_again R b1 b1' n1 → step_skips_again R b2 b2' n2 →
  step_skips_again R (λ acc, b1 acc ≫= b2) (λ acc, b1' acc ≫= b2') (n1 + n2).
Proof.
  intros R_fs Hk H1 H2 acc w acc' w' Hrun Hacc.
  apply bind_inv in Hrun as (a1 & w1 & E1 & E2).
  destruct (H1 _ _ _ _ E1 Hacc) as (Hn1 & Hle1 & Hs1).
  destruct (H2 _ _ _ _ E2 Hn1) as (Hn & Hle & Hs).
  split; [done|]. split; [lia|]. intros Herr v acc2 Hv.
  assert (world_le w1 w') as Hw1.
  { pose proof (Hk a1 w1) as Hx. by rewrite E2 in Hx. }
  destruct (Hs1 ltac:(lia) v acc2 (later_le _ _ _ Hw1 Hv)) as (v1 & Hv1 & HR1).
  destruct (Hs ltac:(lia) v1 (Counter.__iadd__ acc2 (Counter.mk 0 n1 0))
              (later_grows _ _ _ Hv (R_fs _ _ HR1))) as (v2 & Hv2 & HR2).
  exists v2. split; [|by etrans].
  erewrite bind_ok by exact Hv1. rewrite Hv2. by rewrite iadd_skips.
Qed.

(** A step that first sanitizes a name. *)
Lemma sanitize_then_skips name (g g' : str → M Counter) n :
  (∀ s, skips_again R (g s) (g' s) n) →
  skips_again R (s ← sanitize_filename name; g s)
                (s ← sanitize_filename name; g' s) n.
Proof.
  intros Hg w c w' Hrun. apply bind_inv in Hrun as (s & w1 & E1 & E2).
  destruct (sanitize_filename_run name w) as [l Hl]. rewrite Hl in E1.
  injection E1 as Es <-.
  destruct (Hg s _ _ _ E2) as [Hn Hs]. split; [done|].
  intros Herr v Hv. destruct (sanitize_filename_run name v) as [l' Hl'].
  destruct (Hs Herr (add_log l' v) (later_add_log _ _ _ Hv)) as (v' & Hv' & HR).
  exists v'. split; [|etrans; [apply R_log|exact HR]].
  erewrite bind_ok by (rewrite Hl', Es; reflexivity). exact Hv'.
Qed.

End SecondRunSteps.

Lemma export_sketch_skips ctx cn sk :
  step_skips_again quiet (export_sketch ctx cn sk) (export_sketch ctx cn sk) 1.
Proof.
  intros acc w acc' w' Hrun Hacc. unfold export_sketch in Hrun.
  apply bind_inv in Hrun as (s & w1 & E1 & Hrun).
  destruct (sanitize_filename_run (Sketch.name sk) w) as [l Hl].
  rewrite Hl in E1. injection E1 as Es <-.
  set (p := Ctx.folder ctx // (s ++ lit ".dxf")) in *.
  apply bind_inv in Hrun as (b & w1 & E1 & Hrun).
  rewrite path_exists_run in E1. injection E1 as <- <-.
  (* the second run, once the file exists *)
  assert (∀ v acc2, is_Some (node_at (fs v) p) →
    ∃ v', export_sketch ctx cn sk acc2 v
          = (Ok (Counter.__iadd__ acc2 (Counter.mk 0 1 0)), v') ∧ quiet v v')
    as Hagain.
  { intros v acc2 Hp. destruct (sanitize_filename_run (Sketch.name sk) v) as [l' Hl'].
    eexists. split.
    - unfold export_sketch. erewrite bind_ok by (rewrite Hl', Es; reflexivity).
      fold p. erewrite bind_ok by apply path_exists_run.
      rewrite bool_decide_eq_true_2 by exact Hp.
      erewrite bind_ok by apply log_run. rewrite <- add_skipped_iadd.
      apply ret_run.
    - split; [apply fs_le_refl|done]. }
  change (fs (add_log l w)) with (fs w) in Hrun.
  destruct (bool_decide (is_Some (node_at (fs w) p))) eqn:Hex.
  - apply bool_decide_eq_true in Hex.
    apply bind_inv in Hrun as ([] & w1 & E1 & Hrun). injection E1 as <-.
    injection Hrun as <- <-. unfold nonneg in *. simpl.
    split; [lia|]. split; [lia|]. intros _ v acc2 [Hv _].
    apply Hagain. eapply fs_le_exists; [exact Hv|exact Hex].
  - apply bind_inv in Hrun as ([] & w1 & E1 & Hrun). injection E1 as <-.
    apply try_inv in Hrun as [Hrun|(e & w2 & _ & Hrun)].
    + apply bind_inv in Hrun as ([] & w2 & _ & Hrun).
      apply bind_inv in Hrun as ([] & w3 & Hcall & Hrun).
      injection Hrun as <- <-. apply api_write_call in Hcall.
      unfold nonneg in *. simpl.
      split; [lia|]. split; [lia|]. intros _ v acc2 [_ Hv].
      apply Hagain. apply (Hv _ Hcall).
    + apply bind_inv in Hrun as ([] & w3 & _ & Hrun).
      injection Hrun as <- <-. unfold nonneg in *. simpl.
      split; [lia|]. split; [lia|]. intros; lia.
Qed.

Lemma export_sketches_unfold ctx name sketches occurrences w :
  export_sketches ctx (Component.mk name sketches occurrences) w
  = (for_each sketches (export_sketch ctx name) Counter.zero
     ≫= for_each occurrences (export_occurrence ctx)) w.
Proof.
  simpl. unfold mbind, M_bind.
  destruct (for_each sketches _ _ w) as [[acc|e] w1]; [|done].
  revert acc w1. induction occurrences as [|[on oc] o IH]; intros acc w1; [done|].
  simpl. unfold export_occurrence. simpl. unfold mbind, M_bind.
  destruct (sanitize_filename on w1) as [[s|e] w2]; [|done].
  destruct (export_sketches _ oc w2) as [[c|e] w3]; [|done].
  apply IH.
Qed.

Lemma keeps_export_occurrence R `{!Frame R} ctx o acc :
  keeps R (export_occurrence ctx o acc).
Proof.
  unfold export_occurrence.
  apply (keeps_bind R); [apply (keeps_bind R)|].
  - apply keeps_sanitize_filename, _.
  - intros s. apply keeps_export_sketches, _.
  - intros c. apply keeps_ret, _.
Qed.

Lemma quiet_fs v v' : quiet v v' → fs_le (fs v) (fs v').
Proof. by intros [H _]. Qed.

Lemma export_sketches_skips component :
  ∀ ctx, skips_again quiet (export_sketches ctx component)
           (export_sketches ctx component) (count_sketches component).
Proof.
  induction component as [n s o IH] using Component_ind'. intros ctx.
  assert (step_skips_again quiet
            (λ acc, for_each s (export_sketch ctx n) acc
                    ≫= for_each o (export_occurrence ctx))
            (λ acc, for_each s (export_sketch ctx n) acc
                    ≫= for_each o (export_occurrence ctx))
            (sumZ ((λ _, 1) <$> s)
             + sumZ ((λ oc : str * Component.t, count_sketches oc.2) <$> o)))
    as Hloop.
  { apply seq_skips; [apply _|apply quiet_fs| | |].
    - intros acc. apply keeps_for_each; [apply _|]. intros o' acc' _.
      apply keeps_export_occurrence, _.
    - apply for_each_skips; [apply _|apply quiet_fs| |].
      + intros. apply keeps_export_sketch. apply _.
      + intros sk _. apply export_sketch_skips.
    - apply for_each_skips; [apply _|apply quiet_fs| |].
      + intros o' acc'. apply keeps_export_occurrence, _.
      + intros [on oc] Hin. unfold export_occurrence.
        apply acc_skips. apply sanitize_then_skips; [apply _|apply quiet_add_log|].
        intros s'. rewrite Forall_forall in IH. apply (IH _ Hin). }
  apply from_zero in Hloop. rewrite sumZ_ones in Hloop.
  intros w c w' Hrun. rewrite export_sketches_unfold in Hrun.
  destruct (Hloop w c w' Hrun) as [Hn Hs]. split; [done|].
  intros Herr v Hv. destruct (Hs Herr v Hv) as (v' & Hv' & HR).
  exists v'. split; [|done]. rewrite export_sketches_unfold. exact Hv'.
Qed.

Lemma export_file_skips ctx format file doc doc' :
  skips_again quiet (export_file ctx format file doc)
    (export_file ctx format file doc') 1.
Proof.
  intros w c w' Hrun. unfold export_file in Hrun.
  apply bind_inv in Hrun as (p & w1 & E1 & Hrun).
  destruct (export_filename_run ctx format file w) as [l Hl].
  rewrite Hl in E1.
  destruct (sanitized (DataFile.name file)) as [s|e] eqn:Es; [|done].
  match type of E1 with (Ok ?q, _) = _ => set (p' := q) in * end.
  assert (p' = p ∧ add_log l w = w1) as [Hp <-] by (split; congruence).
  clear E1.
  apply bind_inv in Hrun as (b & w1 & E1 & Hrun).
  rewrite path_exists_run in E1. injection E1 as <- <-.
  change (fs (add_log l w)) with (fs w) in Hrun.
  assert (∀ v, is_Some (node_at (fs v) p) →
    ∃ v', export_file ctx format file doc' v = (Ok (Counter.mk 0 1 0), v')
          ∧ quiet v v') as Hagain.
  { intros v Hv. destruct (export_filename_run ctx format file v) as [l' Hl'].
    rewrite Es in Hl'. fold p' in Hl'. rewrite Hp in Hl'.
    eexists. split.
    - unfold export_file. erewrite bind_ok by exact Hl'.
      erewrite bind_ok by apply path_exists_run.
      change (fs (add_log l' v)) with (fs v).
      rewrite bool_decide_eq_true_2 by exact Hv.
      erewrite bind_ok by apply log_run. apply ret_run.
    - split; [apply fs_le_refl|done]. }
  destruct (bool_decide (is_Some (node_at (fs w) p))) eqn:Hex.
  - apply bool_decide_eq_true in Hex.
    apply bind_inv in Hrun as ([] & w1 & E1 & Hrun). injection E1 as <-.
    injection Hrun as <- <-. split; [unfold nonneg; simpl; lia|].
    intros _ v [Hv _]. apply Hagain. eapply fs_le_exists; [exact Hv|exact Hex].
  - apply bind_inv in Hrun as ([] & w1 & _ & Hrun).
    apply bind_inv in Hrun as (design & w2 & _ & Hrun).
    apply bind_inv in Hrun as ([] & w3 & _ & Hrun).
    apply bind_inv in Hrun as ([] & w4 & Hcall & Hrun).
    apply bind_inv in Hrun as ([] & w5 & Hlog & Hrun).
    injection Hrun as <- <-. rewrite log_run in Hlog. injection Hlog as <-.
    apply api_write_call in Hcall.
    split; [unfold nonneg; simpl; lia|].
    intros _ v [_ Hv]. apply Hagain.
    specialize (Hv _ Hcall). simpl in Hv. by destruct format.
Qed.

Lemma forallb_true_Forall {A} (f : A → bool) (l : list A) :
  forallb f l = true ↔ Forall (λ x, f x = true) l.
Proof.
  induction l as [|x l IH]; simpl; [by split; [constructor|]|].
  by rewrite andb_true_iff, Forall_cons, IH.
Qed.

Lemma ledger_ready_f3d fromtimestamp file :
  ledger_ready fromtimestamp file = true →
  negb (str_eqb (DataFile.fileExtension file) (lit "f3d")) = false →
  ∃ created, fromtimestamp (DataFile.dateCreated file) = Some created
             ∧ encodable (version_block file created) = true.
Proof.
  unfold ledger_ready. intros H Hext. rewrite Hext in H. simpl in H.
  destruct (fromtimestamp _) as [created|]; [|done]. by exists created.
Qed.

Section SecondRunLedger.

Variable fromtimestamp : Z → option str.

Lemma export_metadata_skips ctx file created :
  fromtimestamp (DataFile.dateCreated file) = Some created →
  encodable (version_block file created) = true →
  skips_again quiet (export_metadata fromtimestamp ctx file)
    (export_metadata fromtimestamp ctx file) 0.
Proof.
  intros Hclock Henc w c w' Hrun.
  destruct (sanitized (DataFile.name file)) as [s|e] eqn:Es.
  2:{ unfold export_metadata in Hrun.
      apply bind_inv in Hrun as (s & w1 & E1 & _).
      destruct (sanitize_filename_run (DataFile.name file) w) as [l Hl].
      rewrite Hl, Es in E1. done. }
  set (p := metadata_path ctx s).
  destruct (export_metadata_run fromtimestamp ctx file w s Es) as [l Hl].
  fold p in Hl. rewrite Hl in Hrun. clear Hl.
  assert (nonneg c ∧ ∃ content, node_at (fs w') p = Some (File content))
    as [Hn [content Hp]].
  { destruct (node_at (fs w) p) as [[|content]|] eqn:Hp; [done| |].
    - destruct (bool_decide (recorded file content)).
      + injection Hrun as <- <-. split; [apply nonneg_zero|eauto].
      + rewrite Hclock, Henc in Hrun. injection Hrun as <- <-.
        split; [apply nonneg_zero|]. simpl.
        rewrite node_at_insert_eq by (by intros E; rewrite E in Hp). eauto.
    - destruct (node_at (fs w) (parent p)) as [[|?]|]; [|done|done].
      rewrite Hclock, Henc in Hrun. injection Hrun as <- <-.
      split; [unfold nonneg; simpl; lia|]. simpl.
      rewrite node_at_insert_eq by (by intros E; rewrite E in Hp). eauto. }
  split; [done|]. intros _ v [Hv _].
  specialize (Hv p). rewrite Hp in Hv. destruct Hv as [content' Hv].
  destruct (export_metadata_run fromtimestamp ctx file v s Es) as [l' ->].
  fold p. rewrite Hv.
  destruct (bool_decide (recorded file content')).
  - eexists. split; [done|]. apply quiet_add_log.
  - rewrite Hclock, Henc.
    eexists. split; [done|]. split; [|done]. simpl.
    apply fs_le_insert. by rewrite Hv.
Qed.

End SecondRunLedger.

(** ** The second run: [visit_file] *)

Lemma keeps_weaken (R R' : relation World) {A} (m : M A) :
  (∀ w w', R w w' → R' w w') → keeps R m → keeps R' m.
Proof. intros H Hm w. apply H, Hm. Qed.

#[global] Instance holding_preorder doc d : PreOrder (holding doc d).
Proof.
  split; [by intros w|]. intros w1 w2 w3 H1 H2 Hd.
  specialize (H1 Hd). rewrite <- H1. apply H2.
  unfold document_of in *. by rewrite H1.
Qed.

#[global] Instance holding_frame doc d : Frame (holding doc d).
Proof.
  assert (∀ w w', same_heap w w' → holding doc d w w') as Hw
    by (by intros w w' H _).
  split; [apply _|..]; intros; eapply keeps_weaken; try exact Hw.
  - apply frame_log. - apply frame_call. - apply frame_mkdir.
  - apply frame_mkdir_parents. - apply frame_open_w. - apply frame_open_a.
  - apply frame_write_a. - apply frame_write_artifact.
Qed.

Lemma open_opened doc d w :
  document_of doc w = Some d → LazyDocument.open doc w = (Ok tt, w).
Proof.
  intros H. pose proof (open_run doc w) as [_ Ho]. by rewrite H in Ho.
Qed.

Lemma keeps_open_holding doc d : keeps (holding doc d) (LazyDocument.open doc).
Proof. intros w Hd. by rewrite (open_opened doc d w Hd). Qed.

Lemma handler_run e acc w :
  ∃ w', traceback_handler e acc w = (Ok (Counter.add_errored 1 acc), w').
Proof. eexists. reflexivity. Qed.

Lemma keeps_formats_stage ctx file doc acc :
  keeps world_le (formats_stage ctx file doc acc).
Proof. apply keeps_formats_stage_if; [apply _|]. apply keeps_open; apply _. Qed.

Lemma formats_stage_skips ctx file doc doc' :
  step_skips_again quiet (formats_stage ctx file doc) (formats_stage ctx file doc')
    (Z.of_nat (length (Ctx.formats ctx))).
Proof.
  rewrite <- sumZ_ones. unfold formats_stage.
  apply (for_each_skips quiet quiet_fs (Ctx.formats ctx) _ _ (λ _, 1)).
  - intros format acc. apply keeps_try; [apply _| |].
    + apply keeps_bind; [apply _| |intros; apply keeps_ret, _].
      apply keeps_export_file; apply _.
    + intros e. unfold traceback_handler.
      apply keeps_bind; [apply _|apply frame_log|intros; apply keeps_ret, _].
  - intros format _.
    apply (try_skips quiet (export_file ctx format file doc)
             (export_file ctx format file doc') traceback_handler).
    + apply export_file_skips.
    + apply handler_run.
Qed.

Lemma rootComponent_run doc w :
  LazyDocument.rootComponent doc w
  = (match document_of doc w ≫= Document.design with
     | Some design => Ok (Design.rootComponent design)
     | None => Raise AttributeError
     end, w).
Proof.
  unfold LazyDocument.rootComponent, LazyDocument.design, design_from_document.
  destruct (document_of doc w ≫= Document.design) as [design|] eqn:E.
  - erewrite bind_ok; [reflexivity|].
    erewrite bind_ok by apply get_document_run. by rewrite E.
  - erewrite bind_raise; [reflexivity|].
    erewrite bind_ok by apply get_document_run. by rewrite E.
Qed.

Lemma surjective_run {A} (m : M A) w : m w = ((m w).1, (m w).2).
Proof. by destruct (m w). Qed.

Lemma document_of_insert doc d w w' :
  (LazyDocument._document doc < length (heap w))%nat →
  heap w' = <[LazyDocument._document doc := Some d]> (heap w) →
  document_of doc w' = Some d.
Proof.
  intros Ha H. unfold document_of. by rewrite H, list_lookup_insert_eq.
Qed.

Lemma document_of_heap doc w w' :
  heap w' = heap w → document_of doc w' = document_of doc w.
Proof. intros H. unfold document_of. by rewrite H. Qed.

(** The sketches stage on a fresh handle, read backwards: what a run that
    returned went through. *)
Lemma sketches_stage_inv ctx doc w c w' :
  Ctx.save_sketches ctx = true →
  document_of doc w = None →
  (LazyDocument._document doc < length (heap w))%nat →
  sketches_stage ctx doc Counter.zero w = (Ok c, w') →
  ∃ d design s wm c_sk,
    DataFile.document (LazyDocument._file doc) = Some d
    ∧ Document.activate d = true
    ∧ Document.design d = Some design
    ∧ sanitized (Component.name (Design.rootComponent design)) = Ok s
    ∧ document_of doc wm = Some d
    ∧ export_sketches (Ctx.extend ctx s) (Design.rootComponent design) wm
      = (Ok c_sk, w')
    ∧ c = Counter.__iadd__ Counter.zero c_sk.
Proof.
  intros Hsk Hnone Ha Hrun. unfold sketches_stage in Hrun. rewrite Hsk in Hrun.
  apply bind_inv in Hrun as ([] & w1 & Hopen & Hrun).
  pose proof (open_run doc w) as [Hfs Ho]. rewrite Hnone, Hopen in Ho.
  simpl in Ho, Hfs.
  destruct (DataFile.document (LazyDocument._file doc)) as [d|]; [|by destruct Ho].
  destruct Ho as [Hheap Hr].
  pose proof (document_of_insert doc d w w1 Ha Hheap) as Hd1.
  apply bind_inv in Hrun as (root & w2 & Hroot & Hrun).
  rewrite rootComponent_run, Hd1 in Hroot. simpl in Hroot.
  destruct (Document.design d) as [design|] eqn:Hdes; [|done].
  injection Hroot as <- <-.
  apply bind_inv in Hrun as (s & w2 & Hs & Hrun).
  destruct (sanitize_filename_run (Component.name (Design.rootComponent design)) w1)
    as [l Hl].
  rewrite Hl in Hs. injection Hs as Hs <-.
  apply bind_inv in Hrun as (root & w2 & Hroot & Hrun).
  rewrite rootComponent_run in Hroot.
  change (document_of doc (add_log l w1)) with (document_of doc w1) in Hroot.
  rewrite Hd1 in Hroot. simpl in Hroot. rewrite Hdes in Hroot.
  injection Hroot as <- <-.
  apply bind_inv in Hrun as (c_sk & w2 & Hexp & Hrun).
  injection Hrun as <- <-.
  exists d, design, s, (add_log l w1), c_sk.
  repeat split; try done.
  by destruct (Document.activate d).
Qed.

(** The same stage read forwards: on a fresh handle whose document opens,
    it comes down to [export_sketches] in a world with the same files. *)
Lemma sketches_stage_intro ctx doc v d design s :
  Ctx.save_sketches ctx = true →
  document_of doc v = None →
  (LazyDocument._document doc < length (heap v))%nat →
  DataFile.document (LazyDocument._file doc) = Some d →
  Document.activate d = true →
  Document.design d = Some design →
  sanitized (Component.name (Design.rootComponent design)) = Ok s →
  ∃ vm, fs vm = fs v ∧ document_of doc vm = Some d
        ∧ length (heap vm) = length (heap v)
        ∧ ∀ c_sk v',
            export_sketches (Ctx.extend ctx s) (Design.rootComponent design) vm
            = (Ok c_sk, v') →
            sketches_stage ctx doc Counter.zero v
            = (Ok (Counter.__iadd__ Counter.zero c_sk), v').
Proof.
  intros Hsk Hnone Ha Hd Hact Hdes Hs.
  pose proof (open_run doc v) as [Hfs Ho]. rewrite Hnone, Hd in Ho.
  simpl in Ho, Hfs. destruct Ho as [Hheap Hr].
  rewrite Hact, Hdes in Hr.
  assert ((LazyDocument.open doc v).1 = Ok tt) as Hr'
    by (rewrite Hr; by destruct (Ctx.unhide_all _)).
  set (v1 := (LazyDocument.open doc v).2) in *.
  pose proof (document_of_insert doc d v v1 Ha Hheap) as Hd1.
  destruct (sanitize_filename_run (Component.name (Design.rootComponent design)) v1)
    as [l Hl].
  exists (add_log l v1). split; [done|]. split; [done|].
  split; [simpl; by rewrite Hheap, length_insert|].
  intros c_sk v' Hexp. unfold sketches_stage. rewrite Hsk.
  erewrite bind_ok by (rewrite surjective_run, Hr'; reflexivity).
  fold v1.
  erewrite bind_ok by (rewrite rootComponent_run, Hd1; simpl; rewrite Hdes; reflexivity).
  erewrite bind_ok by (rewrite Hl, Hs; reflexivity).
  erewrite bind_ok.
  2:{ rewrite rootComponent_run.
      change (document_of doc (add_log l v1)) with (document_of doc v1).
      rewrite Hd1. simpl. rewrite Hdes. reflexivity. }
  erewrite bind_ok by exact Hexp. reflexivity.
Qed.

Section SecondRunFile.

Variable fromtimestamp : Z → option str.

Lemma metadata_stage_skips ctx file created :
  fromtimestamp (DataFile.dateCreated file) = Some created →
  encodable (version_block file created) = true →
  step_skips_again quiet (metadata_stage fromtimestamp ctx file)
    (metadata_stage fromtimestamp ctx file) 0.
Proof.
  intros Hclock Henc.
  apply (try_skips quiet (export_metadata fromtimestamp ctx file)
           (export_metadata fromtimestamp ctx file) traceback_handler).
  - by eapply export_metadata_skips.
  - apply handler_run.
Qed.

Lemma exports_skips ctx file created doc doc' :
  fromtimestamp (DataFile.dateCreated file) = Some created →
  encodable (version_block file created) = true →
  step_skips_again quiet
    (λ acc, formats_stage ctx file doc acc ≫= metadata_stage fromtimestamp ctx file)
    (λ acc, formats_stage ctx file doc' acc ≫= metadata_stage fromtimestamp ctx file)
    (Z.of_nat (length (Ctx.formats ctx)) + 0).
Proof.
  intros Hclock Henc.
  apply seq_skips; [apply _|apply quiet_fs| | |].
  - intros acc. apply keeps_metadata_stage, _.
  - apply formats_stage_skips.
  - by eapply metadata_stage_skips.
Qed.

Lemma visit_file_unfold ctx file :
  visit_file fromtimestamp ctx file
  = (log (LogVisitingVersion (DataFile.name file) (DataFile.versionNumber file)
            (DataFile.fileExtension file));;
     if negb (str_eqb (DataFile.fileExtension file) (lit "f3d")) then
       log (LogNotHandled (DataFile.name file) (DataFile.fileExtension file));;
       mret skipped1
     else
       doc ← LazyDocument.__init__ ctx file;
       counter ← sketches_stage ctx doc Counter.zero;
       counter ← formats_stage ctx file doc counter;
       counter ← metadata_stage fromtimestamp ctx file counter;
       LazyDocument.close doc;;
       mret counter).
Proof. reflexivity. Qed.

Lemma close_run_opened doc d w :
  document_of doc w = Some d → Document.close d = true →
  ∃ w', LazyDocument.close doc w = (Ok tt, w') ∧ fs w' = fs w.
Proof.
  intros Hd Hc. destruct (close_opened doc w d Hd) as (_ & _ & Hfs & Hr).
  rewrite Hc in Hr. exists (LazyDocument.close doc w).2.
  split; [|done]. by rewrite surjective_run, Hr.
Qed.

Lemma visit_file_skips ctx file :
  ledger_ready fromtimestamp file = true →
  skips_again fs_grows (visit_file fromtimestamp ctx file)
    (visit_file fromtimestamp ctx file) (items_version ctx file).
Proof.
  intros Hready w c w' Hrun. rewrite visit_file_unfold in Hrun.
  apply bind_inv in Hrun as ([] & w0 & Hlog & Hrun).
  rewrite log_run in Hlog. injection Hlog as <-.
  unfold items_version.
  destruct (negb (str_eqb (DataFile.fileExtension file) (lit "f3d"))) eqn:Hext.
  { apply bind_inv in Hrun as ([] & w1 & _ & Hrun). injection Hrun as <- <-.
    split; [unfold nonneg; simpl; lia|]. intros _ v Hv.
    eexists. split.
    - rewrite visit_file_unfold. erewrite bind_ok by apply log_run.
      rewrite Hext. erewrite bind_ok by apply log_run. reflexivity.
    - apply fs_le_refl. }
  destruct (ledger_ready_f3d _ _ Hready Hext) as (created & Hclock & Henc).
  apply bind_inv in Hrun as (doc & w1 & Hinit & Hrun).
  rewrite init_run in Hinit. injection Hinit as <- <-.
  set (doc := LazyDocument.mk ctx file (length (heap w))) in *.
  set (w1 := set_heap _ _) in *.
  assert (document_of doc w1 = None) as Hfresh
    by (by apply (fresh_handle_unopened ctx file w)).
  assert (LazyDocument._document doc < length (heap w1))%nat as Haddr
    by (simpl; rewrite length_app; simpl; lia).
  apply bind_inv in Hrun as (cs & w2 & Hsk & Hrun).
  apply bind_inv in Hrun as (cf & w3 & Hfm & Hrun).
  apply bind_inv in Hrun as (cm & w4 & Hmd & Hrun).
  apply bind_inv in Hrun as ([] & w5 & Hclose & Hrun).
  injection Hrun as <- <-.
  assert ((formats_stage ctx file doc cs
           ≫= metadata_stage fromtimestamp ctx file) w2 = (Ok cm, w4)) as Hexp
    by (by erewrite bind_ok by exact Hfm).
  assert (world_le w4 w5) as H45.
  { pose proof (keeps_close world_le doc w4) as H. by rewrite Hclose in H. }
  assert (world_le w2 w4) as H24.
  { etrans.
    - pose proof (keeps_formats_stage ctx file doc cs w2) as H.
      rewrite Hfm in H. exact H.
    - pose proof (keeps_metadata_stage world_le fromtimestamp ctx file cf w3) as H.
      rewrite Hmd in H. exact H. }
  (* the second run up to the handle *)
  assert (∀ v, ∃ doc2 v1,
    fs v1 = fs v ∧ document_of doc2 v1 = None
    ∧ (LazyDocument._document doc2 < length (heap v1))%nat
    ∧ LazyDocument._file doc2 = file
    ∧ ∀ r, (counter ← sketches_stage ctx doc2 Counter.zero;
            counter ← formats_stage ctx file doc2 counter;
            counter ← metadata_stage fromtimestamp ctx file counter;
            LazyDocument.close doc2;; mret counter) v1 = r →
           visit_file fromtimestamp ctx file v = r) as Hstart.
  { intros v.
    exists (LazyDocument.mk ctx file (length (heap v))),
      (set_heap (λ h, h ++ [None])
         (add_log [LogVisitingVersion (DataFile.name file)
                     (DataFile.versionNumber file) (DataFile.fileExtension file)] v)).
    split; [reflexivity|].
    split; [by apply (fresh_handle_unopened ctx file v)|].
    split; [simpl; rewrite length_app; simpl; lia|]. split; [done|].
    intros r Hr. rewrite visit_file_unfold. erewrite bind_ok by apply log_run.
    rewrite Hext. erewrite bind_ok by apply init_run. exact Hr. }
  (* the two export stages and the closing, in the second run *)
  assert (nonneg cs →
    nonneg cm
    ∧ (Counter.errored cm = 0 → Counter.errored cs = 0)
    ∧ ∀ doc2 v2 acc2 n,
        Counter.errored cm = 0 → later w4 v2 →
        (document_of doc2 v2 = None
         ∨ ∃ d, document_of doc2 v2 = Some d ∧ Document.close d = true) →
        Counter.__iadd__ acc2
          (Counter.mk 0 (Z.of_nat (length (Ctx.formats ctx)) + 0) 0)
        = Counter.mk 0 n 0 →
        ∃ v', (counter ← formats_stage ctx file doc2 acc2;
               counter ← metadata_stage fromtimestamp ctx file counter;
               LazyDocument.close doc2;; mret counter) v2
              = (Ok (Counter.mk 0 n 0), v')
              ∧ fs_le (fs v2) (fs v')) as Hrest.
  { intros Hncs. split; [|split].
    - by destruct (exports_skips ctx file created doc doc Hclock Henc cs w2 cm w4
                     Hexp Hncs).
    - destruct (exports_skips ctx file created doc doc Hclock Henc cs w2 cm w4
                  Hexp Hncs) as (_ & Hle & _).
      destruct Hncs as (_ & _ & ?). lia.
    - intros doc2 v2 acc2 n Herr Hv2 Hdoc Hn.
      destruct (exports_skips ctx file created doc doc2 Hclock Henc cs w2 cm w4
                  Hexp Hncs) as (_ & Hle & Hs).
      assert (Counter.errored cm = Counter.errored cs) as Heq
        by (destruct Hncs as (_ & _ & ?); lia).
      destruct (Hs Heq v2 acc2 Hv2) as (v4 & Hv4 & [Hfs4 Hheap4]).
      rewrite Hn in Hv4.
      apply bind_inv in Hv4 as (cf2 & v3 & Hf2 & Hm2).
      assert (∃ v5, LazyDocument.close doc2 v4 = (Ok tt, v5) ∧ fs v5 = fs v4)
        as (v5 & Hc5 & Hfs5).
      { destruct Hdoc as [Hnone|(d & Hd & Hcl)].
        - exists v4. split; [|done]. apply close_unopened.
          by rewrite (document_of_heap doc2 v2 v4 Hheap4).
        - apply (close_run_opened doc2 d); [|done].
          by rewrite (document_of_heap doc2 v2 v4 Hheap4). }
      exists v5. split; [|by rewrite Hfs5].
      erewrite bind_ok by exact Hf2. erewrite bind_ok by exact Hm2.
      erewrite bind_ok by exact Hc5. reflexivity. }
  destruct (Ctx.save_sketches ctx) eqn:Hss.
  - (* sketches are saved: the document is opened again *)
    destruct (sketches_stage_inv ctx doc w1 cs w2 Hss Hfresh Haddr Hsk)
      as (d & design & s & wm & c_sk & Hd & Hact & Hdes & Hs & Hdwm & Hexp_sk & Hcs).
    simpl in Hd.
    destruct (export_sketches_skips (Design.rootComponent design)
                (Ctx.extend ctx s) wm c_sk w2 Hexp_sk) as [Hn_sk Hs_sk].
    assert (nonneg cs) as Hncs
      by (rewrite Hcs; apply nonneg_iadd; [apply nonneg_zero|done]).
    destruct (Hrest Hncs) as (Hncm & Herrs & Hagain).
    split; [done|]. intros Herr v Hv.
    destruct (Hstart v) as (doc2 & v1 & Hfs1 & Hfresh2 & Haddr2 & Hfile2 & Hvisit).
    pose proof Hd as Hd_file. rewrite <- Hfile2 in Hd.
    destruct (sketches_stage_intro ctx doc2 v1 d design s Hss Hfresh2 Haddr2
                Hd Hact Hdes Hs) as (vm & Hfsm & Hdvm & _ & Hintro).
    assert (later w2 vm) as Hlvm.
    { apply (later_grows _ v); [|rewrite Hfsm, Hfs1; apply fs_le_refl].
      eapply later_le; [|exact Hv]. by etrans. }
    assert (Counter.errored c_sk = 0) as Herr_sk.
    { specialize (Herrs Herr). rewrite Hcs in Herrs. simpl in Herrs. lia. }
    destruct (Hs_sk Herr_sk vm Hlvm) as (v2 & Hv2 & [Hfs2 Hheap2]).
    specialize (Hintro _ _ Hv2).
    (* the handle held the document up to the closing, which returned *)
    assert (Document.close d = true) as Hcl.
    { assert (heap w2 = heap wm) as Hh2.
      { pose proof (keeps_export_sketches same_heap (Design.rootComponent design)
                      (Ctx.extend ctx s) wm) as H. by rewrite Hexp_sk in H. }
      assert (document_of doc w2 = Some d) as Hdw2
        by (by rewrite (document_of_heap doc wm w2 Hh2)).
      assert (heap w3 = heap w2) as Hh3.
      { pose proof (keeps_formats_stage_if (holding doc d) ctx file doc cs
                      (keeps_open_holding doc d) w2) as H.
        rewrite Hfm in H. by apply H. }
      assert (heap w4 = heap w3) as Hh4.
      { pose proof (keeps_metadata_stage same_heap fromtimestamp ctx file cf w3) as H.
        by rewrite Hmd in H. }
      assert (document_of doc w4 = Some d) as Hdw4.
      { rewrite (document_of_heap doc w3 w4 Hh4).
        by rewrite (document_of_heap doc w2 w3 Hh3). }
      destruct (close_opened doc w4 d Hdw4) as (_ & _ & _ & Hr).
      rewrite Hclose in Hr. simpl in Hr. by destruct (Document.close d). }
    destruct (Hagain doc2 v2 (Counter.__iadd__ Counter.zero
                (Counter.mk 0 (count_sketches (Design.rootComponent design)) 0))
                (count_sketches (Design.rootComponent design)
                 + Z.of_nat (length (Ctx.formats ctx))) Herr)
      as (v' & Hv' & Hfs').
    + apply (later_grows _ vm); [|exact Hfs2].
      apply (later_grows _ v); [|rewrite Hfsm, Hfs1; apply fs_le_refl].
      eapply later_le; [exact H45|exact Hv].
    + right. exists d. split; [|done].
      by rewrite (document_of_heap doc2 vm v2 Hheap2).
    + apply counter_eq; simpl; lia.
    + exists v'. split.
      * apply Hvisit. erewrite bind_ok by exact Hintro.
        rewrite Hd_file. simpl. rewrite Hdes. exact Hv'.
      * unfold fs_grows. rewrite <- Hfs1, <- Hfsm.
        eapply fs_le_trans; [exact Hfs2|exact Hfs'].
  - (* no sketches: the handle is never opened *)
    unfold sketches_stage in Hsk. rewrite Hss in Hsk. injection Hsk as <- <-.
    destruct (Hrest nonneg_zero) as (Hncm & _ & Hagain).
    split; [done|]. intros Herr v Hv.
    destruct (Hstart v) as (doc2 & v1 & Hfs1 & Hfresh2 & Haddr2 & Hfile2 & Hvisit).
    destruct (Hagain doc2 v1 Counter.zero
                (0 + Z.of_nat (length (Ctx.formats ctx))) Herr)
      as (v' & Hv' & Hfs').
    + apply (later_grows _ v); [|rewrite Hfs1; apply fs_le_refl].
      eapply later_le; [exact H45|exact Hv].
    + by left.
    + apply counter_eq; simpl; lia.
    + exists v'. split.
      * apply Hvisit. unfold sketches_stage. rewrite Hss.
        erewrite bind_ok by apply ret_run. exact Hv'.
      * unfold fs_grows. by rewrite <- Hfs1.
Qed.

End SecondRunFile.

(** ** The second run: the tree walker *)

Lemma items_folder_extend folder :
  ∀ ctx s, items_folder (Ctx.extend ctx s) folder = items_folder ctx folder.
Proof.
  induction folder as [n files subs IH] using DataFolder_ind'. intros ctx s.
  simpl. f_equal. destruct subs as [subs|]; [|done]. simpl in IH. f_equal.
  induction IH as [|sub subs Hsub _ IHs]; [done|]. simpl. by rewrite Hsub, IHs.
Qed.

Lemma visit_folder_unfold fromtimestamp ctx name files subs w :
  visit_folder fromtimestamp ctx (DataFolder.mk name files subs) w
  = (log (LogVisitingFolder name);;
     sanitized ← sanitize_filename name;
     let new_ctx := Ctx.extend ctx sanitized in
     files ← match files with Some l => mret l | None => raise RuntimeError end;
     counter ← for_each files (visit_folder_file fromtimestamp new_ctx) Counter.zero;
     match subs with
     | None => raise RuntimeError
     | Some sub_folders =>
         for_each sub_folders (visit_sub_folder fromtimestamp new_ctx) counter
     end) w.
Proof.
  simpl. unfold mbind, M_bind.
  destruct (log _ w) as [[[]|e] w1]; [|done].
  destruct (sanitize_filename name w1) as [[s|e] w2]; [|done].
  destruct files as [l|]; [|done]. simpl.
  destruct (for_each l _ _ w2) as [[acc|e] w4]; [|done].
  destruct subs as [subs|]; [|done].
  revert acc w4. induction subs as [|sub subs IH]; intros acc w4; [done|].
  simpl. unfold visit_sub_folder. unfold mbind, M_bind.
  destruct (visit_folder _ _ sub w4) as [[c|e] w5]; [|done].
  apply IH.
Qed.

Section SecondRunPrefix.

Context (R : relation World) `{!PreOrder R}.
Hypothesis R_log : ∀ l v, R v (add_log l v).

(** A step that first logs a line. *)
Lemma log_then_skips msg (m m' : M Counter) n :
  skips_again R m m' n → skips_again R (log msg;; m) (log msg;; m') n.
Proof.
  intros Hm w c w' Hrun. apply bind_inv in Hrun as ([] & w1 & E1 & E2).
  rewrite log_run in E1. injection E1 as <-.
  destruct (Hm _ _ _ E2) as [Hn Hs]. split; [done|].
  intros Herr v Hv.
  destruct (Hs Herr (add_log [msg] v) (later_add_log _ _ _ Hv)) as (v' & Hv' & HR).
  exists v'. split; [|etrans; [apply R_log|exact HR]].
  erewrite bind_ok by apply log_run. exact Hv'.
Qed.

(** A step that adds nothing. *)
Lemma pass_skips :
  step_skips_again R (λ acc, mret acc) (λ acc, mret acc) 0.
Proof.
  intros acc w acc' w' Hrun Hacc. injection Hrun as <- <-.
  split; [done|]. split; [lia|]. intros _ v acc2 _. exists v.
  split; [|done]. by rewrite iadd_nothing.
Qed.

End SecondRunPrefix.

Section SecondRunWalker.

Variable fromtimestamp : Z → option str.

Lemma visit_file_wrapper_skips ctx file :
  Forall (λ v, ledger_ready fromtimestamp v = true)
    (versions_visited (Ctx.save_all_versions ctx) file) →
  skips_again fs_grows (visit_file_wrapper fromtimestamp ctx file)
    (visit_file_wrapper fromtimestamp ctx file) (items_file ctx file).
Proof.
  unfold visit_file_wrapper, items_file, versions_visited. intros Hready.
  apply log_then_skips; [apply _|apply fs_grows_add_log|].
  destruct (Ctx.save_all_versions ctx).
  - apply (from_zero fs_grows).
    apply (for_each_skips fs_grows (λ _ _ H, H) (DataFile.versions file)
             _ _ (items_version ctx)).
    + intros v acc. apply keeps_bind; [apply _| |intros; apply keeps_ret, _].
      apply keeps_visit_file; apply _.
    + intros v Hv.
      apply (acc_skips fs_grows (visit_file fromtimestamp ctx v)).
      apply visit_file_skips. rewrite Forall_forall in Hready. by apply Hready.
  - apply visit_file_skips. by apply Forall_inv in Hready.
Qed.

Lemma visit_folder_file_skips ctx file :
  Forall (λ v, ledger_ready fromtimestamp v = true)
    (versions_visited (Ctx.save_all_versions ctx) file) →
  step_skips_again fs_grows (visit_folder_file fromtimestamp ctx file)
    (visit_folder_file fromtimestamp ctx file) (items_file ctx file).
Proof.
  intros Hready.
  apply (try_skips fs_grows (visit_file_wrapper fromtimestamp ctx file)
           (visit_file_wrapper fromtimestamp ctx file)
           (λ e acc, log (LogExceptionVisitingFile e);;
                     mret (Counter.add_errored 1 acc))).
  - by apply visit_file_wrapper_skips.
  - intros e acc w. eexists. reflexivity.
Qed.

Lemma visit_folder_skips folder :
  ∀ ctx, Forall (λ v, ledger_ready fromtimestamp v = true)
           (visited_in (Ctx.save_all_versions ctx) folder) →
         skips_again fs_grows (visit_folder fromtimestamp ctx folder)
           (visit_folder fromtimestamp ctx folder) (items_folder ctx folder).
Proof.
  induction folder as [n files subs IH] using DataFolder_ind'. intros ctx Hready.
  (* the two loops, for the files and for the sub-folders *)
  assert (∀ new_ctx l ls, files = Some l → subs = Some ls →
    Ctx.save_all_versions new_ctx = Ctx.save_all_versions ctx →
    step_skips_again fs_grows
      (λ acc, for_each l (visit_folder_file fromtimestamp new_ctx) acc
              ≫= for_each ls (visit_sub_folder fromtimestamp new_ctx))
      (λ acc, for_each l (visit_folder_file fromtimestamp new_ctx) acc
              ≫= for_each ls (visit_sub_folder fromtimestamp new_ctx))
      (sumZ (items_file new_ctx <$> l) + sumZ (items_folder new_ctx <$> ls)))
    as Hloops.
  { intros new_ctx l ls -> -> Hall. simpl in IH.
    change (Forall (λ v, ledger_ready fromtimestamp v = true)
              (concat (versions_visited (Ctx.save_all_versions ctx) <$> l)
               ++ concat (visited_in (Ctx.save_all_versions ctx) <$> ls)))
      in Hready.
    apply Forall_app in Hready as [Hfiles Hsubs].
    rewrite Forall_concat, Forall_fmap, Forall_forall in Hfiles.
    rewrite Forall_concat, Forall_fmap, Forall_forall in Hsubs.
    apply seq_skips; [apply _|by intros|..].
    - intros acc. apply keeps_for_each; [apply _|]. intros sub acc' _.
      unfold visit_sub_folder.
      apply keeps_bind; [apply _| |intros; apply keeps_ret, _].
      apply keeps_visit_folder; apply _.
    - apply (for_each_skips fs_grows (λ _ _ H, H)).
      + intros f acc. apply keeps_visit_folder_file; apply _.
      + intros f Hf. apply visit_folder_file_skips. rewrite Hall.
        by apply Hfiles.
    - apply (for_each_skips fs_grows (λ _ _ H, H)).
      + intros sub acc. unfold visit_sub_folder.
        apply keeps_bind; [apply _| |intros; apply keeps_ret, _].
        apply keeps_visit_folder; apply _.
      + intros sub Hin. unfold visit_sub_folder.
        apply (acc_skips fs_grows). rewrite Forall_forall in IH.
        apply IH; [done|]. rewrite Hall. by apply Hsubs. }
  intros w c w' Hrun. rewrite visit_folder_unfold in Hrun.
  apply bind_inv in Hrun as ([] & w1 & Hlog & Hrun).
  rewrite log_run in Hlog. injection Hlog as <-.
  apply bind_inv in Hrun as (s & w2 & Hs & Hrun).
  destruct (sanitize_filename_run n (add_log [LogVisitingFolder n] w)) as [l0 Hl0].
  rewrite Hl0 in Hs. injection Hs as Hs <-. cbv zeta in Hrun.
  apply bind_inv in Hrun as (l & w3 & Hfiles & Hrun).
  destruct files as [files|]; [|done]. injection Hfiles as <- <-.
  destruct subs as [subs|].
  2:{ apply bind_inv in Hrun as (? & ? & _ & ?). done. }
  pose proof (from_zero fs_grows _ _ _
                (Hloops (Ctx.extend ctx s) files subs eq_refl eq_refl eq_refl))
    as Hloop.
  destruct (Hloop _ _ _ Hrun) as [Hn Hagain].
  split; [done|]. intros Herr v Hv.
  destruct (sanitize_filename_run n (add_log [LogVisitingFolder n] v)) as [l1 Hl1].
  destruct (Hagain Herr (add_log l1 (add_log [LogVisitingFolder n] v)))
    as (v' & Hv' & HR).
  { by destruct Hv. }
  exists v'. split; [|exact HR].
  rewrite visit_folder_unfold. erewrite bind_ok by apply log_run.
  erewrite bind_ok by (rewrite Hl1, Hs; reflexivity). cbv zeta.
  erewrite bind_ok by apply ret_run.
  etrans; [exact Hv'|].
  do 3 f_equal. simpl. f_equal.
  clear. induction subs as [|sub subs IHs]; [done|].
  rewrite fmap_cons. unfold sumZ in *. simpl foldr.
  by rewrite items_folder_extend, IHs.
Qed.

Lemma log_file_path folder stamp :
  folder // (stamp ++ lit ".txt") = folder ++ [stamp ++ lit ".txt"].
Proof.
  unfold truediv. rewrite bool_decide_eq_false_2; [done|].
  intros [H|H]; apply (f_equal length) in H; rewrite length_app in H;
    simpl in H; lia.
Qed.

(** C4, as the code has it: let a first run of [main], whose lines the
    log file takes, return with [errored = 0], every export request it
    made having produced its file.  Take a second run over the same tree,
    started from any world that keeps the files of the first, in which
    the path of the log file is not a directory, the log file takes every
    line the run prints, and the version block of every visited [f3d]
    version can be written (its creation date converts to text and the
    block has an encoding).  That run returns [saved = 0], [errored = 0]
    and [skipped = items ctx]: one per export output (each visited [f3d]
    version times each format, plus each sketch when sketches are saved)
    and one per visited version of another extension; the ledgers, which
    exist, add nothing. *)
Theorem second_run_skips ctx w c1 w1 :
  main fromtimestamp ctx w = (Ok c1, w1) →
  log_takes w w1 →
  Counter.errored c1 = 0 →
  (∀ c, c ∈ calls w1 → produced (fs w1) c) →
  forallb (ledger_ready fromtimestamp) (visited ctx) = true →
  ∀ v, fs_le (fs w1) (fs v) →
       node_at (fs v) (Ctx.folder ctx // (now v ++ lit ".txt")) ≠ Some Dir →
       log_takes v (main fromtimestamp ctx v).2 →
       ∃ v', main fromtimestamp ctx v = (Ok (Counter.mk 0 (items ctx) 0), v')
             ∧ fs_le (fs v) (fs v').
Proof.
  intros Hrun _ Herr Hprod Hready v Hv Hlogfile _. unfold main in Hrun.
  apply forallb_true_Forall in Hready. unfold visited in Hready.
  rewrite Forall_concat, Forall_fmap, Forall_forall in Hready.
  apply bind_inv in Hrun as (root & wa & Hdir & Hrun).
  apply bind_inv in Hrun as ([] & wb & Hlog & Hrun). cbv zeta in Hrun.
  (* the loop over the projects *)
  set (body := λ (project : DataProject.t) (counter : Counter),
         if bool_decide (DataProject.name project ∈ Ctx.projects ctx) then
           c ← visit_folder fromtimestamp ctx (DataProject.rootFolder project);
           mret (Counter.__iadd__ counter c)
         else mret counter) in *.
  assert (∀ project acc, keeps world_le (body project acc)) as Hk.
  { intros project acc. unfold body. destruct (bool_decide _).
    - apply keeps_bind; [apply _| |intros; apply keeps_ret, _].
      apply keeps_visit_folder; apply _.
    - apply keeps_ret, _. }
  assert (skips_again fs_grows
            (for_each (Application.dataProjects (Ctx.app ctx)) body Counter.zero)
            (for_each (Application.dataProjects (Ctx.app ctx)) body Counter.zero)
            (items ctx)) as Hloop.
  { apply (from_zero fs_grows).
    apply (for_each_skips fs_grows (λ _ _ H, H) _ body body
             (λ project,
                if bool_decide (DataProject.name project ∈ Ctx.projects ctx)
                then items_folder ctx (DataProject.rootFolder project) else 0));
      [exact Hk|].
    intros project Hin. unfold body. specialize (Hready project Hin).
    simpl in Hready. destruct (bool_decide _).
    - apply (acc_skips fs_grows). by apply visit_folder_skips.
    - apply pass_skips, _. }
  destruct (Hloop _ _ _ Hrun) as [_ Hagain].
  (* the output directory exists after the first run *)
  assert (world_le wa w1) as Ha1.
  { etrans.
    - assert (keeps world_le (init_logging (Ctx.folder ctx))) as H.
      { unfold init_logging. apply keeps_bind; [apply _|apply keeps_gets, _|].
        intros stamp. apply frame_open_w. }
      specialize (H wa). rewrite Hlog in H. exact H.
    - pose proof (keeps_for_each world_le (Application.dataProjects (Ctx.app ctx))
                    body (λ p a _, Hk p a) Counter.zero wb) as H.
      rewrite Hrun in H. exact H. }
  assert (node_at (fs v) (Ctx.folder ctx) = Some Dir) as Hroot.
  { unfold init_directory in Hdir.
    apply bind_inv in Hdir as ([] & wa' & Hmk & Hret). injection Hret as _ <-.
    assert (node_at (fs wa') (Ctx.folder ctx) = Some Dir) as Hd.
    { unfold mkdir in Hmk.
      destruct (node_at (fs w) (Ctx.folder ctx)) as [[|?]|] eqn:E; [|done|].
      - by injection Hmk as <-.
      - destruct (node_at (fs w) (parent (Ctx.folder ctx))) as [[|?]|]; try done.
        injection Hmk as <-. simpl.
        apply node_at_insert_eq. by intros E'; rewrite E' in E. }
    destruct Ha1 as [Ha1 _]. pose proof (fs_le_trans _ _ _ Ha1 Hv (Ctx.folder ctx)) as H.
    by rewrite Hd in H. }
  (* the second run opens its log file and walks the tree *)
  set (logp := Ctx.folder ctx // (now v ++ lit ".txt")) in *.
  assert (∃ vb, open_w logp v = (Ok tt, vb) ∧ fs_le (fs v) (fs vb))
    as (vb & Hopen & Hvb).
  { pose proof (frame_open_w (R := world_le) logp v) as [Hle _].
    unfold open_w in *.
    destruct (node_at (fs v) logp) as [[|?]|] eqn:E;
      [done|eexists; split; [reflexivity|exact Hle]|].
    assert (parent logp = Ctx.folder ctx) as Hpar.
    { unfold logp, parent. by rewrite log_file_path, removelast_last. }
    rewrite Hpar, Hroot in *. eexists; split; [reflexivity|exact Hle]. }
  destruct (Hagain Herr vb) as (v' & Hv' & HR).
  { split; [by eapply fs_le_trans|].
    intros c Hc. eapply produced_le; [|by apply Hprod].
    by eapply fs_le_trans. }
  exists v'. split; [|by eapply fs_le_trans].
  unfold main. erewrite bind_ok.
  2:{ unfold init_directory. erewrite bind_ok; [apply ret_run|].
      unfold mkdir. by rewrite Hroot. }
  erewrite bind_ok.
  2:{ unfold init_logging. erewrite bind_ok by reflexivity. exact Hopen. }
  exact Hv'.
Qed.

End SecondRunWalker.

(** ** The clock matters only through its values *)

Lemma bind_ext {A B} (m m' : M A) (f f' : A → M B) w :
  (∀ w, m w = m' w) → (∀ a w, f a w = f' a w) → (m ≫= f) w = (m' ≫= f') w.
Proof.
  intros Hm Hf. unfold mbind, M_bind. rewrite Hm.
  destruct (m' w) as [[a|e] w1]; [apply Hf|done].
Qed.

Lemma try_ext {A} (m m' : M A) h w :
  (∀ w, m w = m' w) → try_except m h w = try_except m' h w.
Proof. intros Hm. unfold try_except. by rewrite Hm. Qed.

Lemma for_each_ext {A S} (xs : list A) (body body' : A → S → M S) :
  (∀ x acc w, x ∈ xs → body x acc w = body' x acc w) →
  ∀ acc w, for_each xs body acc w = for_each xs body' acc w.
Proof.
  induction xs as [|x xs IH]; intros Hb acc w; [done|]. simpl.
  apply bind_ext.
  - intros w'. apply Hb. left.
  - intros a w'. apply IH. intros y acc' w'' Hy. apply Hb. by right.
Qed.

Section Clock.

Variables fromtimestamp fromtimestamp' : Z → option str.
Hypothesis same_clock : ∀ t, fromtimestamp t = fromtimestamp' t.

Lemma visit_file_clock ctx file :
  visit_file fromtimestamp ctx file = visit_file fromtimestamp' ctx file.
Proof.
  unfold visit_file, export_metadata.
  by rewrite (same_clock (DataFile.dateCreated file)).
Qed.

Lemma visit_folder_file_clock ctx file acc w :
  visit_folder_file fromtimestamp ctx file acc w
  = visit_folder_file fromtimestamp' ctx file acc w.
Proof.
  unfold visit_folder_file. apply try_ext. intros w'.
  apply bind_ext; [|done]. intros w''. unfold visit_file_wrapper.
  apply bind_ext; [done|]. intros _ w3.
  destruct (Ctx.save_all_versions ctx); [|by rewrite visit_file_clock].
  apply for_each_ext. intros v acc' w4 _. by rewrite visit_file_clock.
Qed.

Lemma visit_folder_clock folder :
  ∀ ctx w, visit_folder fromtimestamp ctx folder w
           = visit_folder fromtimestamp' ctx folder w.
Proof.
  induction folder as [n files subs IH] using DataFolder_ind'. intros ctx w.
  rewrite !visit_folder_unfold.
  apply bind_ext; [done|]. intros _ w1.
  apply bind_ext; [done|]. intros s w2. cbv zeta.
  apply bind_ext; [done|]. intros l w3.
  apply bind_ext.
  - intros w4. apply for_each_ext. intros f acc w5 _.
    apply visit_folder_file_clock.
  - intros acc w4. destruct subs as [subs|]; [|done]. simpl in IH.
    apply for_each_ext. intros sub acc' w5 Hin. unfold visit_sub_folder.
    apply bind_ext; [|done]. intros w6. rewrite Forall_forall in IH.
    by apply IH.
Qed.

Lemma main_clock ctx w : main fromtimestamp ctx w = main fromtimestamp' ctx w.
Proof.
  unfold main. apply bind_ext; [done|]. intros _ w1.
  apply bind_ext; [done|]. intros _ w2. cbv zeta.
  apply for_each_ext. intros project acc w3 _.
  destruct (bool_decide _); [|done].
  apply bind_ext; [|done]. intros w4. apply visit_folder_clock.
Qed.

End Clock.

(** ** Where the walker does catch *)

Lemma try_total {A} (m : M A) h w :
  (∀ e w, ∃ a w', h e w = (Ok a, w')) → ∃ a w', try_except m h w = (Ok a, w').
Proof.
  intros Hh. unfold try_except. destruct (m w) as [[a|e] w1]; [eauto|apply Hh].
Qed.

Lemma for_each_total {A S} (xs : list A) (body : A → S → M S) :
  (∀ x acc w, ∃ acc' w', body x acc w = (Ok acc', w')) →
  ∀ acc w, ∃ acc' w', for_each xs body acc w = (Ok acc', w').
Proof.
  intros Hb. induction xs as [|x xs IH]; intros acc w; simpl; [by eexists _, _|].
  destruct (Hb x acc w) as (a1 & w1 & E1). destruct (IH a1 w1) as (a2 & w2 & E2).
  exists a2, w2. by erewrite bind_ok by exact E1.
Qed.

Lemma formats_stage_total ctx file doc acc w :
  ∃ acc' w', formats_stage ctx file doc acc w = (Ok acc', w').
Proof.
  apply for_each_total. intros format acc' w'. apply try_total.
  intros e w''. by eexists _, _.
Qed.

Section Catches.

Variable fromtimestamp : Z → option str.

Lemma metadata_stage_total ctx file acc w :
  ∃ acc' w', metadata_stage fromtimestamp ctx file acc w = (Ok acc', w').
Proof. apply try_total. intros e w'. by eexists _, _. Qed.

(** An exception raised while visiting a file never leaves the loop over
    the files of a folder. *)
Lemma visit_folder_file_total ctx file acc w :
  ∃ acc' w', visit_folder_file fromtimestamp ctx file acc w = (Ok acc', w').
Proof. apply try_total. intros e w'. by eexists _, _. Qed.

(** X19: without sketches, [visit_file] reaches [doc.close()] whatever the
    exports and the ledger do: when the handle ends up holding a document,
    the last API request is the closing of that document. *)
Lemma visit_file_closes_without_sketches ctx file w :
  Ctx.save_sketches ctx = false →
  DataFile.fileExtension file = lit "f3d" →
  let r := visit_file fromtimestamp ctx file w in
  let doc := LazyDocument.mk ctx file (length (heap w)) in
  match document_of doc r.2 with
  | Some d =>
      last (calls r.2)
      = Some (DocumentClose (DataFile.name file) (DataFile.versionNumber file))
  | None => True
  end.
Proof.
  intros Hsk Hext r doc. subst r. rewrite visit_file_unfold.
  erewrite bind_ok by apply log_run. rewrite Hext.
  change (negb (str_eqb (lit "f3d") (lit "f3d"))) with false. cbv iota.
  erewrite bind_ok by apply init_run.
  change (LazyDocument.mk ctx file (length (heap (add_log _ w)))) with doc.
  assert (LazyDocument._file doc = file) as Hfile by reflexivity.
  clearbody doc.
  unfold sketches_stage. rewrite Hsk. erewrite bind_ok by apply ret_run.
  set (w1 := set_heap _ _).
  destruct (formats_stage_total ctx file doc Counter.zero w1) as (c2 & w2 & E2).
  erewrite bind_ok by exact E2.
  destruct (metadata_stage_total ctx file c2 w2) as (c3 & w3 & E3).
  erewrite bind_ok by exact E3.
  destruct (document_of doc w3) as [d|] eqn:Hd.
  - destruct (close_opened doc w3 d Hd) as (Hcalls & Hheap & _ & Hr).
    rewrite Hfile in Hcalls.
    unfold mbind, M_bind.
    destruct (LazyDocument.close doc w3) as [[[]|e] w4] eqn:Ec; simpl in *.
    all: unfold document_of in *; simpl; rewrite Hheap, Hd, Hcalls;
      apply last_snoc.
  - rewrite (bind_ok _ _ _ tt w3) by (by apply close_unopened).
    simpl. by rewrite Hd.
Qed.

End Catches.

(** ** Tree Walker on concrete inputs *)

Lemma run_ok {A} (m : M A) w a : (m w).1 = Ok a → m w = (Ok a, (m w).2).
Proof. intros H. rewrite <- H. apply surjective_pairing. Qed.

Lemma try_ok {A} (m : M A) h w a w' :
  m w = (Ok a, w') → try_except m h w = (Ok a, w').
Proof. intros H. unfold try_except. by rewrite H. Qed.

Lemma encodable_app a b : encodable (a ++ b) = encodable a && encodable b.
Proof.
  unfold encodable. induction a as [|c a IH]; simpl.
  - by destruct (encode b).
  - destruct (encode_char c); [|done]. revert IH.
    by destruct (encode (a ++ b)), (encode a), (encode b).
Qed.

Lemma sanitize_filename_plain name w :
  re_sub_bad name = name → sanitize_filename name w = (Ok name, w).
Proof.
  intros H. unfold sanitize_filename, str_eqb.
  by rewrite bool_decide_eq_true_2.
Qed.

Lemma export_metadata_creates fromtimestamp ctx file w created :
  re_sub_bad (DataFile.name file) = DataFile.name file →
  let p := metadata_path ctx (DataFile.name file) in
  node_at (fs w) p = None →
  node_at (fs w) (parent p) = Some Dir →
  fromtimestamp (DataFile.dateCreated file) = Some created →
  encodable (version_block file created) = true →
  export_metadata fromtimestamp ctx file w
  = (Ok saved1,
     add_log [LogCreated p; LogUpdated p]
       (set_fs <[p := File (version_block file created)]> w)).
Proof.
  intros Hname p Hp Hdir Hclock Henc. unfold export_metadata.
  erewrite bind_ok by (by apply sanitize_filename_plain). fold p.
  pose proof (node_at_None_ne _ _ Hp) as Hne.
  erewrite bind_ok by apply path_exists_run.
  rewrite Hp, bool_decide_eq_false_2 by (by intros [? ?]). cbn [negb].
  erewrite bind_ok.
  2:{ erewrite bind_ok by (unfold open_w; rewrite Hp, Hdir; reflexivity).
      erewrite bind_ok by apply log_run. apply ret_run. }
  erewrite bind_ok.
  2:{ unfold readlines; simpl. rewrite node_at_insert_eq by done. reflexivity. }
  change (strip <$> split_lines [] (universal_newlines [])) with (@nil str).
  rewrite bool_decide_eq_false_2 by (apply not_elem_of_nil).
  erewrite bind_ok.
  2:{ unfold open_a; simpl. rewrite node_at_insert_eq by done. reflexivity. }
  rewrite Hclock. erewrite bind_ok by apply ret_run.
  erewrite bind_ok.
  2:{ unfold write_a; simpl. rewrite node_at_insert_eq by done.
      rewrite Henc. reflexivity. }
  erewrite bind_ok by apply log_run. rewrite ret_run.
  unfold add_log, set_fs. simpl. by rewrite insert_insert_eq, <- app_assoc.
Qed.

Lemma for_each_cons {A S} (x : A) xs (body : A → S → M S) acc w :
  for_each (x :: xs) body acc w = (body x acc ≫= for_each xs body) w.
Proof. reflexivity. Qed.

(** C8: a fresh run of the scenario (project ["P"], folder ["F"], file
    ["Model"], extension ["f3d"], version 1, formats native archive and
    STEP, the three flags off), with any clock that converts the file's
    date to a text that has an encoding, returns
    [saved=3, skipped=0, errored=0] and leaves [Model_v1.f3d],
    [Model_v1.step] and [Model_metadata.txt] under [P/F/Model/] of the
    output root.  The ledger holds the three lines of the block of
    version 1, the first of which reads ["Version: 1"], and the log file
    takes every line the run prints. *)
Theorem scenario_fresh_run fromtimestamp created :
  fromtimestamp (DataFile.dateCreated Scenario.Model) = Some created →
  encodable created = true →
  let r := main fromtimestamp Scenario.ctx Scenario.world in
  let ledger := lit "Version: 1" ++ [10]
                ++ [9] ++ lit "created: " ++ created ++ [10]
                ++ [9] ++ lit "description: first draft" ++ [10] in
  r.1 = Ok (Counter.mk 3 0 0)
  ∧ node_at (fs r.2) (Scenario.dir // lit "Model_v1.f3d") = Some (File [])
  ∧ node_at (fs r.2) (Scenario.dir // lit "Model_v1.step") = Some (File [])
  ∧ node_at (fs r.2) (Scenario.dir // lit "Model_metadata.txt")
    = Some (File ledger)
  ∧ head (ledger_lines ledger) = Some (lit "Version: 1")
  ∧ log_takes Scenario.world r.2
  ∧ Scenario.dir
    = [lit "Desktop"; lit "Fusion360Export"; lit "P"; lit "F"; lit "Model"].
Proof.
  intros Hclock Henc r ledger. subst r.
  assert (encodable (version_block Scenario.Model created) = true) as Hblock.
  { change (version_block Scenario.Model created)
      with (lit "Version: 1" ++ [10] ++ [9] ++ lit "created: " ++ created
            ++ [10] ++ [9] ++ lit "description: first draft" ++ [10]).
    rewrite !encodable_app, Henc. reflexivity. }
  eassert (main fromtimestamp Scenario.ctx Scenario.world
           = (Ok (Counter.mk 3 0 0), _)) as Hrun.
  { unfold main.
    erewrite (bind_ok _ _ _ Scenario.out) by (apply run_ok; vm_compute; reflexivity).
    erewrite (bind_ok _ _ _ tt) by (apply run_ok; vm_compute; reflexivity).
    change (Application.dataProjects (Ctx.app Scenario.ctx)) with [Scenario.P].
    rewrite for_each_cons. erewrite bind_ok; cycle 1.
    { cbv beta.
      assert (bool_decide (DataProject.name Scenario.P ∈ Ctx.projects Scenario.ctx)
              = true) as -> by (vm_compute; reflexivity).
      erewrite bind_ok; [apply ret_run|].
      (* the root folder of the project *)
      change (DataProject.rootFolder Scenario.P)
        with (DataFolder.mk (lit "P") (Some []) (Some [Scenario.F])).
      rewrite visit_folder_unfold. erewrite bind_ok by apply log_run.
      erewrite bind_ok by (by apply sanitize_filename_plain). cbv zeta.
      erewrite bind_ok by apply ret_run. erewrite bind_ok by reflexivity.
      rewrite for_each_cons. erewrite bind_ok; [apply ret_run|].
      unfold visit_sub_folder. erewrite bind_ok; [apply ret_run|].
      (* folder F *)
      change Scenario.F
        with (DataFolder.mk (lit "F") (Some [Scenario.Model]) (Some [])).
      rewrite visit_folder_unfold. erewrite bind_ok by apply log_run.
      erewrite bind_ok by (by apply sanitize_filename_plain). cbv zeta.
      erewrite bind_ok by apply ret_run.
      erewrite bind_ok; [apply ret_run|].
      rewrite for_each_cons. erewrite bind_ok; [apply ret_run|].
      unfold visit_folder_file. eapply try_ok. erewrite bind_ok; [apply ret_run|].
      unfold visit_file_wrapper. erewrite bind_ok by apply log_run.
      change (Ctx.save_all_versions _) with false. cbv iota.
      (* the file *)
      rewrite visit_file_unfold. erewrite bind_ok by apply log_run.
      change (negb (str_eqb (DataFile.fileExtension Scenario.Model) (lit "f3d")))
        with false. cbv iota.
      erewrite bind_ok by apply init_run.
      erewrite (bind_ok _ _ _ Counter.zero) by (apply run_ok; vm_compute; reflexivity).
      erewrite (bind_ok _ _ _ (Counter.mk 2 0 0))
        by (apply run_ok; vm_compute; reflexivity).
      erewrite bind_ok; cycle 1.
      { unfold metadata_stage. eapply try_ok. erewrite bind_ok; [apply ret_run|].
        eapply export_metadata_creates;
          [reflexivity|vm_compute; reflexivity|vm_compute; reflexivity
          |exact Hclock|exact Hblock]. }
      erewrite (bind_ok _ _ _ tt) by (apply run_ok; vm_compute; reflexivity).
      apply ret_run. }
    reflexivity. }
  rewrite Hrun. clear Hrun.
  split; [reflexivity|].
  repeat split; vm_compute; reflexivity.
Qed.

(** C1 fails on this input: with sketches enabled, a document that opens
    but whose [activate()] raises makes [visit_file] raise; the open
    request was sent, the handle holds the document, and no close request
    follows. *)
Theorem visit_file_leaves_document_open fromtimestamp :
  let r := visit_file fromtimestamp Failing.ctx_sketches Failing.Model
             Failing.world in
  let doc := LazyDocument.mk Failing.ctx_sketches Failing.Model 0 in
  r.1 = Raise RuntimeError
  ∧ calls r.2 = [DocumentsOpen (lit "Model") 1; DocumentActivate (lit "Model") 1]
  ∧ document_of doc r.2 = Some Failing.document
  ∧ DocumentClose (lit "Model") 1 ∉ calls r.2.
Proof.
  vm_compute. repeat split. intros H.
  repeat (apply elem_of_cons in H as [H|H]; [discriminate H|]).
  by apply elem_of_nil in H.
Qed.

(** C2 fails on this input: listing the files of sub-folder ["A"] raises;
    the exception leaves [visit_folder] of ["A"], of the root folder and
    [main], so that folder ["B"] is never visited and no counter comes
    back, where the same run with ["A"] listable saves three items. *)
Theorem visit_folder_aborts_on_sub_folder fromtimestamp :
  let r := main fromtimestamp Failing.ctx Scenario.world in
  r.1 = Raise RuntimeError
  ∧ node_at (fs r.2) (Scenario.out // lit "P" // lit "B") = None
  ∧ calls r.2 = []
  ∧ (main Scenario.fromtimestamp Failing.ctx_ok Scenario.world).1
    = Ok (Counter.mk 3 0 0).
Proof. vm_compute. repeat split. Qed.

(** ** The contracts at concrete inputs *)

Lemma scenario_fresh_run_witness :
  Scenario.fromtimestamp (DataFile.dateCreated Scenario.Model)
  = Some (lit "1970-01-01 00:00:00")
  ∧ encodable (lit "1970-01-01 00:00:00") = true
  ∧ (main Scenario.fromtimestamp Scenario.ctx Scenario.world).1
    = Ok (Counter.mk 3 0 0).
Proof.
  split; [reflexivity|]. split; [reflexivity|].
  apply (scenario_fresh_run Scenario.fromtimestamp _ eq_refl eq_refl).
Defined.

Lemma export_file_contract_witness :
  let doc := LazyDocument.mk Failing.ctx Scenario.Model 0 in
  let w := set_heap (λ _, [None]) Failing.world in
  let p := Scenario.out // lit "Model" // lit "Model_v1.f3d" in
  export_filename Failing.ctx F3D Scenario.Model w = (Ok p, w)
  ∧ log_takes w (export_file Failing.ctx F3D Scenario.Model doc w).2
  ∧ (export_file Failing.ctx F3D Scenario.Model doc w).1
    = export_steps F3D doc p w
  ∧ (export_file Failing.ctx F3D Scenario.Model doc w).1 = Ok saved1.
Proof.
  intros doc w p.
  assert (export_filename Failing.ctx F3D Scenario.Model w = (Ok p, w)) as H
    by (vm_compute; reflexivity).
  assert (log_takes w (export_file Failing.ctx F3D Scenario.Model doc w).2)
    as Hlog by (vm_compute; reflexivity).
  split; [exact H|]. split; [exact Hlog|]. split.
  - refine (proj1 (proj2 (export_file_contract _ _ _ doc _ _ _ H Hlog) _ _)).
    + vm_compute; reflexivity.
    + vm_compute. lia.
  - vm_compute; reflexivity.
Defined.

Lemma export_metadata_contract_witness :
  let ctx := Ctx.extend (Ctx.extend Scenario.ctx (lit "P")) (lit "F") in
  let w := (main Scenario.fromtimestamp Scenario.ctx Scenario.world).2 in
  let r := export_metadata Scenario.fromtimestamp ctx Scenario.Model w in
  let r7 := export_metadata Scenario.fromtimestamp Scenario.ctx Scenario.Model
              Exported.ledger_world in
  let unwritable :=
    DataFile.mk (lit "Model") 1 (lit "f3d") [55296] 0 (Some Scenario.document) [] in
  let ru := export_metadata Scenario.fromtimestamp Scenario.ctx unwritable
              Exported.ledger_world in
  sanitized (DataFile.name Scenario.Model) = Ok (lit "Model")
  ∧ (r.1 = Ok Counter.zero ∧ fs r.2 = fs w)
  ∧ (log_takes Exported.ledger_world r7.2 ∧ r7.1 = Ok Counter.zero)
  ∧ (log_takes Exported.ledger_world ru.2 ∧ ru.1 = Raise UnicodeEncodeError
     ∧ fs ru.2 = fs Exported.ledger_world).
Proof.
  intros ctx w r r7 unwritable ru.
  assert (sanitized (DataFile.name Scenario.Model) = Ok (lit "Model")) as H
    by (vm_compute; reflexivity).
  assert (node_at (fs Exported.ledger_world)
            (metadata_path Scenario.ctx (lit "Model"))
          = Some (File (lit "Version: 7" ++ [10]))) as Hnode
    by (vm_compute; reflexivity).
  split; [exact H|]. split; [|split].
  - refine (proj1 (proj2 (export_metadata_contract Scenario.fromtimestamp
              ctx Scenario.Model w _ H))
              (version_block Scenario.Model (lit "1970-01-01 00:00:00")) _ _).
    + vm_compute; reflexivity.
    + apply (bool_decide_unpack _). vm_compute. exact I.
  - assert (log_takes Exported.ledger_world r7.2) as Hlog
      by (vm_compute; reflexivity).
    split; [exact Hlog|].
    assert (¬ recorded Scenario.Model (lit "Version: 7" ++ [10])) as Hn
      by (apply (bool_decide_eq_false_1 _); vm_compute; reflexivity).
    pose proof (proj1 (proj2 (proj2 (export_metadata_contract
                  Scenario.fromtimestamp Scenario.ctx Scenario.Model
                  Exported.ledger_world _ H)))
                  _ (lit "1970-01-01 00:00:00") Hnode Hn eq_refl Hlog) as H3.
    assert (encodable (version_block Scenario.Model (lit "1970-01-01 00:00:00"))
            = true) as E by (vm_compute; reflexivity).
    rewrite E in H3. exact (proj1 H3).
  - assert (log_takes Exported.ledger_world ru.2) as Hlog
      by (vm_compute; reflexivity).
    split; [exact Hlog|].
    assert (¬ recorded unwritable (lit "Version: 7" ++ [10])) as Hn
      by (apply (bool_decide_eq_false_1 _); vm_compute; reflexivity).
    pose proof (proj1 (proj2 (proj2 (export_metadata_contract
                  Scenario.fromtimestamp Scenario.ctx unwritable
                  Exported.ledger_world _ H)))
                  _ (lit "1970-01-01 00:00:00") Hnode Hn eq_refl Hlog) as H3.
    assert (encodable (version_block unwritable (lit "1970-01-01 00:00:00"))
            = false) as E by (vm_compute; reflexivity).
    rewrite E in H3. exact H3.
Defined.

Lemma scenario_world_wf : fs_wf (fs Scenario.world).
Proof.
  intros p n H. unfold Scenario.world, fs in H.
  apply lookup_singleton_Some in H as [<- _]. reflexivity.
Defined.

Lemma export_metadata_needs_directory_witness :
  let ctx := Ctx.mk Scenario.out [] Scenario.app ∅ false false false in
  let r := export_metadata Scenario.fromtimestamp ctx Scenario.Model
             Scenario.world in
  let v := visit_file Scenario.fromtimestamp ctx Scenario.Model Scenario.world in
  sanitized (DataFile.name Scenario.Model) = Ok (lit "Model")
  ∧ is_dir (fs Scenario.world) (parent (metadata_path ctx (lit "Model"))) = false
  ∧ (∃ e, r.1 = Raise e) ∧ fs r.2 = fs Scenario.world
  ∧ v.1 = Ok errored1.
Proof.
  intros ctx r v.
  assert (sanitized (DataFile.name Scenario.Model) = Ok (lit "Model")) as H
    by (vm_compute; reflexivity).
  assert (is_dir (fs Scenario.world) (parent (metadata_path ctx (lit "Model")))
          = false) as Hd by (vm_compute; reflexivity).
  destruct (export_metadata_needs_directory Scenario.fromtimestamp ctx
              Scenario.Model Scenario.world _ H scenario_world_wf Hd)
    as (H1 & H2 & _ & _ & H3).
  split; [exact H|]. split; [exact Hd|]. split; [exact H1|]. split; [exact H2|].
  apply H3; reflexivity.
Defined.

(** C4 as stated fails on the scenario: the second run skips the two
    exports and counts nothing for the ledger, so [skipped] is 2, not 3. *)
Lemma second_run_scenario_skips_two :
  let r1 := main Scenario.fromtimestamp Scenario.ctx Scenario.world in
  let r2 := main Scenario.fromtimestamp Scenario.ctx r1.2 in
  r1.1 = Ok (Counter.mk 3 0 0)
  ∧ r2.1 = Ok (Counter.mk 0 2 0)
  ∧ r2.1 ≠ Ok (Counter.mk 0 3 0).
Proof. vm_compute. repeat split. discriminate. Qed.

Lemma second_run_skips_witness :
  let r1 := main Scenario.fromtimestamp Scenario.ctx Scenario.world in
  r1.1 = Ok (Counter.mk 3 0 0)
  ∧ log_takes Scenario.world r1.2
  ∧ forallb (ledger_ready Scenario.fromtimestamp) (visited Scenario.ctx) = true
  ∧ log_takes r1.2 (main Scenario.fromtimestamp Scenario.ctx r1.2).2
  ∧ items Scenario.ctx = 2
  ∧ ∃ v', main Scenario.fromtimestamp Scenario.ctx r1.2
          = (Ok (Counter.mk 0 (items Scenario.ctx) 0), v')
          ∧ fs_le (fs r1.2) (fs v').
Proof.
  intros r1.
  assert (r1.1 = Ok (Counter.mk 3 0 0)) as H1 by (vm_compute; reflexivity).
  assert (log_takes Scenario.world r1.2) as Hlog1 by (vm_compute; reflexivity).
  assert (forallb (ledger_ready Scenario.fromtimestamp) (visited Scenario.ctx)
          = true) as Hready by (vm_compute; reflexivity).
  assert (log_takes r1.2 (main Scenario.fromtimestamp Scenario.ctx r1.2).2)
    as Hlog by (vm_compute; reflexivity).
  split; [exact H1|]. split; [exact Hlog1|]. split; [exact Hready|].
  split; [exact Hlog|]. split; [vm_compute; reflexivity|].
  apply (second_run_skips Scenario.fromtimestamp Scenario.ctx Scenario.world
           (Counter.mk 3 0 0) r1.2).
  - rewrite <- H1. apply surjective_pairing.
  - exact Hlog1.
  - reflexivity.
  - apply Forall_forall.
    remember (calls r1.2) as l eqn:Hl. vm_compute in Hl. subst l.
    repeat (constructor; [first [exact I | vm_compute; by eexists]|]).
    constructor.
  - exact Hready.
  - apply fs_le_refl.
  - intros H. vm_compute in H. discriminate H.
  - exact Hlog.
Defined.

(** * Further properties of the exporter *)

(** ** [str(n)] *)

Lemma digits_spec fuel : ∀ n acc,
  0 ≤ n < 2 ^ Z.of_nat (S fuel) →
  ∃ d, digits (S fuel) n acc = d ++ acc ∧ Forall is_digit d ∧ d ≠ []
       ∧ int_of_digits d = n.
Proof.
  induction fuel as [|fuel IH]; intros n acc Hn.
  - exists [48 + n]. change (2 ^ Z.of_nat 1) with 2 in Hn.
    assert (n mod 10 = n) as Hm by (apply Z.mod_small; lia).
    simpl. rewrite Hm. replace (n <? 10) with true by (symmetry; apply Z.ltb_lt; lia).
    repeat split; [|done|unfold int_of_digits; simpl; lia].
    constructor; [unfold is_digit; lia|constructor].
  - change (digits (S (S fuel)) n acc)
      with (let acc' := (48 + n mod 10) :: acc in
            if n <? 10 then acc' else digits (S fuel) (n / 10) acc').
    cbv zeta. pose proof (Z.mod_pos_bound n 10 ltac:(lia)) as Hm.
    destruct (Z.ltb_spec n 10) as [Hlt|Hge].
    + exists [48 + n mod 10]. rewrite Z.mod_small by lia.
      repeat split; [|done|unfold int_of_digits; simpl; lia].
      constructor; [unfold is_digit; lia|constructor].
    + destruct (IH (n / 10) ((48 + n mod 10) :: acc)) as (d & Hd & Hdig & Hne & Hval).
      { split; [apply Z.div_pos; lia|].
        apply Z.div_lt_upper_bound; [lia|].
        rewrite (Nat2Z.inj_succ (S fuel)), Z.pow_succ_r in Hn by lia. lia. }
      exists (d ++ [48 + n mod 10]). rewrite Hd, <- app_assoc. split; [done|].
      split; [|split].
      * apply Forall_app. split; [done|]. constructor; [unfold is_digit; lia|constructor].
      * by destruct d.
      * unfold int_of_digits in *. rewrite foldl_app. simpl. rewrite Hval.
        pose proof (Z.div_mod n 10 ltac:(lia)). lia.
Qed.

Lemma log2_up_fuel n : 0 ≤ n → n < 2 ^ Z.of_nat (S (Z.to_nat (Z.log2_up n))).
Proof.
  intros Hn. rewrite Nat2Z.inj_succ, Z2Nat.id by apply Z.log2_up_nonneg.
  rewrite Z.pow_succ_r by apply Z.log2_up_nonneg.
  destruct (Z.le_gt_cases n 1) as [H1|H1].
  - pose proof (Z.pow_pos_nonneg 2 (Z.log2_up n) ltac:(lia) (Z.log2_up_nonneg n)). lia.
  - pose proof (Z.log2_up_spec n H1). lia.
Qed.

Lemma str_of_int_spec n :
  ∃ d, Forall is_digit d ∧ d ≠ [] ∧ int_of_digits d = Z.abs n
       ∧ str_of_int n = if n <? 0 then 45 :: d else d.
Proof.
  unfold str_of_int. rewrite !Nat.add_1_r.
  destruct (Z.ltb_spec n 0) as [Hneg|Hpos].
  - destruct (digits_spec (Z.to_nat (Z.log2_up (- n))) (- n) []) as (d & Hd & H1 & H2 & H3).
    { split; [lia|]. apply log2_up_fuel. lia. }
    exists d. rewrite Hd, app_nil_r. repeat split; try done. lia.
  - destruct (digits_spec (Z.to_nat (Z.log2_up n)) n []) as (d & Hd & H1 & H2 & H3).
    { split; [lia|]. by apply log2_up_fuel. }
    exists d. rewrite Hd, app_nil_r. repeat split; try done. lia.
Qed.

Lemma int_of_str_of_int n : int_of_str (str_of_int n) = n.
Proof.
  destruct (str_of_int_spec n) as (d & Hdig & Hne & Hval & ->).
  destruct (Z.ltb_spec n 0); simpl; [lia|].
  destruct d as [|c d]; [done|]. apply Forall_cons in Hdig as [Hc _].
  unfold is_digit in Hc. unfold int_of_str.
  destruct (Z.eqb_spec c 45); lia.
Qed.

Lemma str_of_int_inj a b : str_of_int a = str_of_int b → a = b.
Proof.
  intros H. rewrite <- (int_of_str_of_int a), <- (int_of_str_of_int b). by rewrite H.
Qed.

Lemma str_of_int_chars n : Forall (λ c, is_digit c ∨ c = 45) (str_of_int n).
Proof.
  destruct (str_of_int_spec n) as (d & Hdig & _ & _ & ->).
  assert (Forall (λ c, is_digit c ∨ c = 45) d) as H
    by (eapply Forall_impl; [exact Hdig|]; auto).
  destruct (n <? 0); [constructor; auto|done].
Qed.

(** ** The sanitizer applied to its own output *)

Lemma sanitized_clean name s :
  sanitized name = Ok s → Forall (λ c, bad_char c = false) s.
Proof.
  unfold sanitized, str_eqb. case_bool_decide as Heq.
  - intros [= <-]. by apply re_sub_bad_id.
  - unfold hash8. destruct (encode name) as [b|]; [|done]. simpl. intros [= <-].
    apply Forall_app. split; [apply re_sub_bad_clean|].
    constructor; [done|].
    apply Forall_take. destruct (hexdigest_spec b) as [_ Hhex].
    eapply Forall_impl; [exact Hhex|]. intros c Hc. simpl in Hc.
    assert (Forall (λ c, bad_char c = false) (lit "0123456789abcdef")) as Hall
      by (by repeat constructor).
    rewrite Forall_forall in Hall. by apply Hall.
Qed.

Lemma sanitize_filename_clean s w :
  Forall (λ c, bad_char c = false) s → sanitize_filename s w = (Ok s, w).
Proof.
  intros H. unfold sanitize_filename, str_eqb.
  rewrite bool_decide_eq_true_2; [done|]. symmetry. by apply re_sub_bad_id.
Qed.

(** X1: what [sanitize_filename] returns holds none of the characters it
    replaces, so sanitizing it again returns it as it is and logs nothing;
    when the input held such a character, the input and the output are two
    different names that sanitize to the same string. *)
Theorem sanitize_filename_idempotent name w s w1 :
  sanitize_filename name w = (Ok s, w1) →
  Forall (λ c, c ∉ lit ":\/*?<>|") s
  ∧ (∀ w', sanitize_filename s w' = (Ok s, w'))
  ∧ (Exists (λ c, c ∈ lit ":\/*?<>|") name →
     s ≠ name ∧ ∀ w', (sanitize_filename s w').1 = (sanitize_filename name w').1).
Proof.
  intros Hrun. destruct (sanitize_filename_run name w) as [l Hl].
  rewrite Hl in Hrun. assert (sanitized name = Ok s) as Hs by congruence.
  clear Hrun Hl. pose proof (sanitized_clean _ _ Hs) as Hclean.
  split; [|split].
  - eapply Forall_impl; [exact Hclean|]. intros c Hc Hin. simpl in Hc.
    apply bad_char_spec in Hin. congruence.
  - intros w'. by apply sanitize_filename_clean.
  - intros Hex. split.
    + intros ->. apply Exists_exists in Hex as (c & Hin & Hc).
      rewrite Forall_forall in Hclean. apply bad_char_spec in Hc.
      rewrite (Hclean c Hin) in Hc. discriminate Hc.
    + intros w'. rewrite sanitize_filename_clean by done.
      destruct (sanitize_filename_run name w') as [l' ->]. by rewrite Hs.
Qed.

Lemma sanitize_filename_idempotent_witness :
  (sanitize_filename (lit "Model 1/2") empty_world).1 = Ok (lit "Model 1 2_23e85974")
  ∧ ∀ w', sanitize_filename (lit "Model 1 2_23e85974") w'
          = (Ok (lit "Model 1 2_23e85974"), w').
Proof.
  split; [vm_compute; reflexivity|].
  refine (proj1 (proj2 (sanitize_filename_idempotent (lit "Model 1/2") empty_world
                          (lit "Model 1 2_23e85974")
                          (add_log [LogBadChars (lit "Model 1/2") (lit "Model 1 2")]
                                   empty_world) _))).
  vm_compute. reflexivity.
Defined.

(** ** Output paths of different versions and formats *)

Lemma app_sep_inj (c : Z) (a b x y : str) :
  c ∉ a → c ∉ b → a ++ c :: x = b ++ c :: y → a = b ∧ x = y.
Proof.
  revert b. induction a as [|a0 a IH]; intros [|b0 b] Ha Hb H; simpl in H.
  - by injection H.
  - injection H as -> _. exfalso. apply Hb. apply list_elem_of_here.
  - injection H as -> _. exfalso. apply Ha. apply list_elem_of_here.
  - injection H as -> H. destruct (IH b) as [-> ->]; try done.
    + intros Hin. apply Ha. by apply list_elem_of_further.
    + intros Hin. apply Hb. by apply list_elem_of_further.
Qed.

Lemma str_of_int_no_dot n : 46 ∉ str_of_int n.
Proof.
  intros H. pose proof (str_of_int_chars n) as Hall.
  rewrite Forall_forall in Hall. destruct (Hall _ H) as [Hd|Hd]; [|done].
  unfold is_digit in Hd. lia.
Qed.

Lemma Format_value_inj f f' : Format.value f = Format.value f' → f = f'.
Proof. destruct f, f'; intros H; first [reflexivity | discriminate H]. Qed.

Lemma truediv_cases (p : Path) (s : str) :
  (s = [] ∨ s = lit ".") ∧ p // s = p ∨ (s ≠ [] ∧ s ≠ lit "." ∧ p // s = p ++ [s]).
Proof.
  unfold truediv. case_bool_decide as H; [by left|right].
  split; [|split]; [intros ->; apply H; auto..|done].
Qed.

Lemma truediv_snoc (p : Path) (s t : str) : (2 ≤ length t)%nat → p // (s ++ t) = p ++ [s ++ t].
Proof.
  intros Ht. destruct (truediv_cases p (s ++ t)) as [[[H|H] _]|(_ & _ & H)]; [| |done].
  all: apply (f_equal length) in H; rewrite length_app in H; simpl in H; lia.
Qed.

(** X2: the path [export_filename] resolves determines the file's
    sanitized name, its version number and the format: two exports into
    the same folder whose versions, formats or sanitized names differ
    never share an output path. *)
Theorem export_filename_injective ctx format format' file file' w w' p p' w1 w1' :
  export_filename ctx format file w = (Ok p, w1) →
  export_filename ctx format' file' w' = (Ok p', w1') →
  DataFile.versionNumber file ≠ DataFile.versionNumber file'
  ∨ format ≠ format'
  ∨ (sanitize_filename (DataFile.name file) w).1
    ≠ (sanitize_filename (DataFile.name file') w').1 →
  p ≠ p'.
Proof.
  intros H H' Hdiff Hp.
  destruct (export_filename_run ctx format file w) as [l Hl].
  destruct (export_filename_run ctx format' file' w') as [l' Hl'].
  rewrite Hl in H. rewrite Hl' in H'. clear Hl Hl'.
  destruct (sanitize_filename_run (DataFile.name file) w) as [k Hk].
  destruct (sanitize_filename_run (DataFile.name file') w') as [k' Hk'].
  rewrite Hk, Hk' in Hdiff. clear Hk Hk'. simpl in Hdiff.
  destruct (sanitized (DataFile.name file)) as [s|e]; [|done].
  destruct (sanitized (DataFile.name file')) as [s'|e']; [|done].
  set (t := lit "_v" ++ str_of_int (DataFile.versionNumber file) ++ lit "."
            ++ Format.value format) in *.
  set (t' := lit "_v" ++ str_of_int (DataFile.versionNumber file') ++ lit "."
             ++ Format.value format') in *.
  assert (Ctx.folder ctx // s // (s ++ t) = Ctx.folder ctx // s' // (s' ++ t')) as Heq
    by congruence.
  clear H H' Hp.
  rewrite !truediv_snoc in Heq by (subst t t'; simpl; lia).
  assert (s = s' ∧ t = t') as [<- Ht].
  { destruct (truediv_cases (Ctx.folder ctx) s) as [[Hs E]|(Hs1 & Hs2 & E)];
      destruct (truediv_cases (Ctx.folder ctx) s') as [[Hs' E']|(Hs1' & Hs2' & E')];
      rewrite E, E' in Heq; clear E E'.
    - apply app_inv_head in Heq. injection Heq as Heq.
      assert (∃ r r', t = 95 :: r ∧ t' = 95 :: r') as (r & r' & Hr & Hr')
        by (by eexists _, _).
      destruct Hs as [->| ->], Hs' as [->| ->].
      + done.
      + rewrite Hr in Heq. discriminate Heq.
      + rewrite Hr' in Heq. discriminate Heq.
      + by apply app_inv_head in Heq.
    - apply (f_equal length) in Heq. rewrite !length_app in Heq. simpl in Heq. lia.
    - apply (f_equal length) in Heq. rewrite !length_app in Heq. simpl in Heq. lia.
    - rewrite <- !app_assoc in Heq. apply app_inv_head in Heq.
      injection Heq as -> Heq. split; [done|]. by apply app_inv_head in Heq. }
  subst t t'. injection Ht as Ht.
  apply app_sep_inj in Ht as [Hv Hf]; [|apply str_of_int_no_dot..].
  apply str_of_int_inj in Hv. apply Format_value_inj in Hf.
  destruct Hdiff as [?|[?|?]]; done.
Qed.

Lemma export_filename_injective_witness :
  let p := Scenario.out // lit "Model" // lit "Model_v1.f3d" in
  let p' := Scenario.out // lit "Model" // lit "Model_v1.step" in
  export_filename Scenario.ctx F3D Scenario.Model empty_world = (Ok p, empty_world)
  ∧ export_filename Scenario.ctx STEP Scenario.Model empty_world = (Ok p', empty_world)
  ∧ p ≠ p'.
Proof.
  intros p p'.
  assert (export_filename Scenario.ctx F3D Scenario.Model empty_world
          = (Ok p, empty_world)) as H by (vm_compute; reflexivity).
  assert (export_filename Scenario.ctx STEP Scenario.Model empty_world
          = (Ok p', empty_world)) as H' by (vm_compute; reflexivity).
  split; [exact H|]. split; [exact H'|].
  apply (export_filename_injective _ _ _ _ _ _ _ _ _ _ _ H H').
  right. left. discriminate.
Defined.

(** ** Opening a handle twice *)

(** X3: [open()] assigns [_document] before it activates the document.
    Once the document has been handed out by the API the handle holds it,
    whether or not [activate()] or the unhiding then raised, and every
    later [open()] returns at once without a request; in particular a
    returning [open()] leaves the handle open, and a second [open()]
    changes nothing. *)
Theorem open_idempotent doc w :
  (LazyDocument._document doc < length (heap w))%nat →
  let r := LazyDocument.open doc w in
  (r.1 = Ok tt →
     is_Some (document_of doc r.2) ∧ LazyDocument.open doc r.2 = (Ok tt, r.2))
  ∧ (∀ d, document_of doc w = None →
          DataFile.document (LazyDocument._file doc) = Some d →
          document_of doc r.2 = Some d
          ∧ LazyDocument.open doc r.2 = (Ok tt, r.2)
          ∧ (Document.activate d = false → r.1 = Raise RuntimeError)).
Proof.
  intros Hslot r. subst r. pose proof (open_run doc w) as [_ H]. simpl in H.
  assert (∀ d, document_of doc w = None →
               DataFile.document (LazyDocument._file doc) = Some d →
               document_of doc (LazyDocument.open doc w).2 = Some d) as Hset.
  { intros d Hnone Hd. rewrite Hnone, Hd in H. destruct H as [Hheap _].
    by eapply document_of_insert. }
  split.
  - intros Hok. destruct (document_of doc w) as [d0|] eqn:Hd0.
    + rewrite H. simpl. rewrite Hd0. split; [eauto|]. by eapply open_opened.
    + destruct (DataFile.document (LazyDocument._file doc)) as [d|] eqn:Hd.
      * specialize (Hset d eq_refl eq_refl). rewrite Hset. split; [eauto|].
        by eapply open_opened.
      * destruct H as [H _]. congruence.
  - intros d Hnone Hd. specialize (Hset d Hnone Hd). split; [done|].
    split; [by eapply open_opened|]. intros Hact. rewrite Hnone, Hd in H.
    destruct H as [_ ->]. by rewrite Hact.
Qed.

Lemma open_idempotent_witness :
  let w := set_heap (λ _, [None]) Failing.world in
  let doc := LazyDocument.mk Failing.ctx Failing.Model 0 in
  let r := LazyDocument.open doc w in
  r.1 = Raise RuntimeError
  ∧ document_of doc r.2 = Some Failing.document
  ∧ LazyDocument.open doc r.2 = (Ok tt, r.2).
Proof.
  intros w doc r.
  assert ((LazyDocument._document doc < length (heap w))%nat) as Hslot
    by (vm_compute; lia).
  destruct (proj2 (open_idempotent doc w Hslot) Failing.document eq_refl eq_refl)
    as (H1 & H2 & H3).
  split; [by apply H3|]. split; [exact H1|exact H2].
Defined.

(** ** An export that returns [False] *)

(** X4: [export_file] ignores what [ExportManager.execute] returns.  When
    the output is missing, the document opens and the directories can be
    made, an [execute] that returns [False] without writing still gives
    [saved(1)] and the log line [Saved ...]; the output path is as absent
    after the call as before. *)
Theorem export_file_saved_unwritten ctx format file doc w output_path design :
  (export_filename ctx format file w).1 = Ok output_path →
  node_at (fs w) output_path = None →
  (LazyDocument._document doc < length (heap w))%nat →
  opened_design doc w = Ok design →
  Design.exportManager design format = ReturnsFalse →
  export_steps format doc output_path w = Ok saved1 →
  let r := export_file ctx format file doc w in
  r.1 = Ok saved1
  ∧ node_at (fs r.2) output_path = None
  ∧ last (log_fh r.2) = Some (LogSaved output_path)
  ∧ ∃ o, last (calls r.2) = Some (Execute o) ∧ options_filename o = output_path.
Proof.
  intros Hname Hnone Hslot Hdesign Hem Hsteps r. subst r.
  assert (∃ m, mkdir_from [] (parent output_path) (fs w) = inr m) as [m Hmk].
  { unfold export_steps in Hsteps. rewrite Hdesign in Hsteps.
    destruct (mkdir_from [] (parent output_path) (fs w)) as [e|m]; [done|by exists m]. }
  destruct (export_filename_run ctx format file w) as [l Hrun].
  unfold export_file.
  assert (export_filename ctx format file w = (Ok output_path, add_log l w)) as Hn
    by (rewrite Hrun in Hname |- *; f_equal; exact Hname).
  erewrite bind_ok by exact Hn. erewrite bind_ok by apply path_exists_run.
  change (fs (add_log l w)) with (fs w). rewrite Hnone.
  rewrite bool_decide_eq_false_2 by (by intros [? ?]).
  pose proof (open_run doc (add_log l w)) as [Hfs Hopen]. simpl in Hopen.
  change (document_of doc (add_log l w)) with (document_of doc w) in Hopen.
  change (heap (add_log l w)) with (heap w) in Hopen.
  change (fs (add_log l w)) with (fs w) in Hfs.
  unfold opened_design in Hdesign.
  destruct (LazyDocument.open doc (add_log l w)) as [ro w1] eqn:Eopen. simpl in *.
  assert (ro = Ok tt ∧ ∃ d, document_of doc w1 = Some d
                            ∧ Document.design d = Some design) as (-> & d & Hd1 & Hdd).
  { destruct (document_of doc w) as [d0|] eqn:Hd0.
    - injection Hopen as -> ->. split; [done|]. exists d0.
      change (document_of doc (add_log l w)) with (document_of doc w).
      split; [done|]. by destruct (Document.design d0); simplify_eq.
    - destruct (DataFile.document (LazyDocument._file doc)) as [d|]; [|done].
      destruct Hopen as [Hheap ->].
      destruct (Document.activate d); [|done].
      destruct (Document.design d) as [des|] eqn:Hdes; [|done].
      injection Hdesign as ->. split; [by destruct (Ctx.unhide_all _)|].
      exists d. split; [|done]. by eapply document_of_insert. }
  erewrite bind_ok by exact Eopen.
  unfold LazyDocument.design.
  erewrite bind_ok; [|erewrite bind_ok by apply get_document_run; rewrite Hd1;
                      unfold design_from_document; simpl; rewrite Hdd; apply ret_run].
  rewrite (bind_ok _ _ _ tt (set_fs (λ _, m) w1))
    by (by rewrite mkdir_parents_run, Hfs, Hmk).
  rewrite Hem. unfold api_write.
  erewrite bind_ok; [|erewrite bind_ok by reflexivity; apply ret_run].
  erewrite bind_ok by apply log_run. rewrite ret_run. simpl.
  split; [done|]. split; [by eapply mkdir_from_parent_absent|].
  split; [apply last_snoc|]. eexists. split; [apply last_snoc|]. by destruct format.
Qed.

Lemma export_file_saved_unwritten_witness :
  let p := Scenario.out // lit "Model" // lit "Model_v1.f3d" in
  let r := export_file Scenario.ctx F3D Unwritten.Model Unwritten.doc
             Unwritten.world in
  node_at (fs Unwritten.world) p = None
  ∧ r.1 = Ok saved1 ∧ node_at (fs r.2) p = None.
Proof.
  intros p r.
  assert (node_at (fs Unwritten.world) p = None) as Hn by (vm_compute; reflexivity).
  split; [exact Hn|].
  destruct (export_file_saved_unwritten Scenario.ctx F3D Unwritten.Model
              Unwritten.doc Unwritten.world p Unwritten.design)
    as (H1 & H2 & _); try (vm_compute; reflexivity).
  split; [exact H1|exact H2].
Defined.

(** ** What [visit_file] counts and when it returns *)

Lemma export_file_returns ctx format file doc w c w' :
  export_file ctx format file doc w = (Ok c, w') → c = saved1 ∨ c = skipped1.
Proof.
  intros Hrun. unfold export_file in Hrun.
  apply bind_inv in Hrun as (p & w1 & _ & Hrun).
  apply bind_inv in Hrun as (b & w2 & _ & Hrun).
  destruct b.
  - apply bind_inv in Hrun as ([] & w3 & _ & Hrun). injection Hrun as <- _. by right.
  - apply bind_inv in Hrun as ([] & w3 & _ & Hrun).
    apply bind_inv in Hrun as (design & w4 & _ & Hrun).
    apply bind_inv in Hrun as ([] & w5 & _ & Hrun).
    apply bind_inv in Hrun as ([] & w6 & _ & Hrun).
    apply bind_inv in Hrun as ([] & w7 & _ & Hrun).
    injection Hrun as <- _. by left.
Qed.

Lemma formats_loop_outcomes ctx file doc formats : ∀ acc w acc' w',
  for_each formats (λ format counter,
    try_except
      (c ← export_file ctx format file doc; mret (Counter.__iadd__ counter c))
      (λ e, traceback_handler e counter)) acc w = (Ok acc', w') →
  nonneg acc →
  nonneg acc' ∧ outcomes acc' = outcomes acc + Z.of_nat (length formats).
Proof.
  induction formats as [|format formats IH]; intros acc w acc' w' Hrun Hacc.
  - injection Hrun as <- _. split; [done|simpl; lia].
  - simpl in Hrun. apply bind_inv in Hrun as (acc1 & w1 & Hstep & Hrun).
    assert (nonneg acc1 ∧ outcomes acc1 = outcomes acc + 1) as [Hn1 Ho1].
    { apply try_inv in Hstep as [Hstep|(e & w2 & _ & Hstep)].
      - apply bind_inv in Hstep as (c & w2 & Hc & Hstep). injection Hstep as <- _.
        apply export_file_returns in Hc. unfold nonneg, outcomes in *.
        destruct Hc as [-> | ->]; simpl; lia.
      - injection Hstep as <- _. unfold nonneg, outcomes in *. simpl. lia. }
    destruct (IH _ _ _ _ Hrun Hn1) as [Hn Ho]. split; [done|].
    rewrite Ho, Ho1. simpl length. lia.
Qed.

#[global] Instance own_document_preorder doc : PreOrder (own_document doc).
Proof.
  split; [by left|]. intros w1 w2 w3 [H1|H1] [H2|H2]; unfold own_document.
  - left. congruence.
  - by right.
  - right. congruence.
  - by right.
Qed.

#[global] Instance own_document_frame doc : Frame (own_document doc).
Proof.
  assert (∀ w w', same_heap w w' → own_document doc w w') as Hw.
  { intros w w' H. left. by apply document_of_heap. }
  split; [apply _|..]; intros; eapply keeps_weaken; try exact Hw.
  - apply frame_log. - apply frame_call. - apply frame_mkdir.
  - apply frame_mkdir_parents. - apply frame_open_w. - apply frame_open_a.
  - apply frame_write_a. - apply frame_write_artifact.
Qed.

Lemma keeps_open_own doc : keeps (own_document doc) (LazyDocument.open doc).
Proof.
  intros w. pose proof (open_run doc w) as [_ H]. simpl in H.
  destruct (document_of doc w) as [d0|] eqn:Hd0.
  - rewrite H. simpl. by left.
  - destruct (DataFile.document (LazyDocument._file doc)) as [d|] eqn:Hd.
    + destruct H as [Hheap _].
      destruct (decide (LazyDocument._document doc < length (heap w))%nat) as [Hslot|Hslot].
      * right. rewrite Hd. by eapply document_of_insert.
      * left. apply document_of_heap. rewrite Hheap.
        apply list_insert_ge. lia.
    + destruct H as [_ Hheap]. left. by apply document_of_heap.
Qed.

Section Accounting.

Variable fromtimestamp : Z → option str.

Lemma export_metadata_returns ctx file w c w' :
  export_metadata fromtimestamp ctx file w = (Ok c, w') →
  c = saved1 ∨ c = Counter.zero.
Proof.
  intros Hrun. destruct (sanitized (DataFile.name file)) as [s|e] eqn:Es.
  2:{ unfold export_metadata in Hrun.
      apply bind_inv in Hrun as (s & w1 & E1 & _).
      destruct (sanitize_filename_run (DataFile.name file) w) as [l Hl].
      rewrite Hl, Es in E1. done. }
  destruct (export_metadata_run fromtimestamp ctx file w s Es) as [l Hl].
  rewrite Hl in Hrun. clear Hl.
  destruct (node_at (fs w) (metadata_path ctx s)) as [[|content]|]; [done| |].
  - destruct (bool_decide (recorded file content)); [injection Hrun as <- _; by right|].
    destruct (fromtimestamp _); [|done]. destruct (encodable _); [|done].
    injection Hrun as <- _. by right.
  - destruct (node_at (fs w) (parent (metadata_path ctx s))) as [[|?]|]; [|done|done].
    destruct (fromtimestamp _); [|done]. destruct (encodable _); [|done].
    injection Hrun as <- _. by left.
Qed.

Lemma metadata_stage_outcomes ctx file acc w acc' w' :
  metadata_stage fromtimestamp ctx file acc w = (Ok acc', w') →
  nonneg acc →
  nonneg acc' ∧ outcomes acc ≤ outcomes acc' ≤ outcomes acc + 1.
Proof.
  intros Hrun Hacc. apply try_inv in Hrun as [Hrun|(e & w2 & _ & Hrun)].
  - apply bind_inv in Hrun as (c & w2 & Hc & Hrun). injection Hrun as <- _.
    apply export_metadata_returns in Hc. unfold nonneg, outcomes in *.
    destruct Hc as [-> | ->]; simpl; lia.
  - injection Hrun as <- _. unfold nonneg, outcomes in *. simpl. lia.
Qed.

Lemma visit_file_not_handled ctx file w :
  DataFile.fileExtension file ≠ lit "f3d" →
  ∃ l, visit_file fromtimestamp ctx file w = (Ok skipped1, add_log l w).
Proof.
  intros Hext. rewrite visit_file_unfold. erewrite bind_ok by apply log_run.
  unfold str_eqb. rewrite bool_decide_eq_false_2 by done. cbn [negb].
  erewrite bind_ok by apply log_run. rewrite ret_run.
  eexists [_; _]. unfold add_log. simpl. by rewrite <- app_assoc.
Qed.

(** Without sketches, an [f3d] version comes down to the closing of a
    handle that holds nothing or the document of the file, with the counts
    of the formats and of the ledger in hand. *)
Lemma visit_file_stages ctx file w :
  Ctx.save_sketches ctx = false →
  DataFile.fileExtension file = lit "f3d" →
  ∃ doc w3 c3,
    visit_file fromtimestamp ctx file w = (LazyDocument.close doc;; mret c3) w3
    ∧ nonneg c3
    ∧ Z.of_nat (length (Ctx.formats ctx)) ≤ outcomes c3
      ≤ Z.of_nat (length (Ctx.formats ctx)) + 1
    ∧ (document_of doc w3 = None ∨ document_of doc w3 = DataFile.document file).
Proof.
  intros Hsk Hext. rewrite visit_file_unfold.
  erewrite bind_ok by apply log_run. rewrite Hext.
  change (negb (str_eqb (lit "f3d") (lit "f3d"))) with false. cbv iota.
  erewrite bind_ok by apply init_run.
  set (w0 := add_log _ w). set (doc := LazyDocument.mk ctx file (length (heap w0))).
  unfold sketches_stage. rewrite Hsk. erewrite bind_ok by apply ret_run.
  set (w1 := set_heap _ _).
  assert (document_of doc w1 = None) as Hfresh
    by (by apply (fresh_handle_unopened ctx file w0 w1)).
  destruct (formats_stage_total ctx file doc Counter.zero w1) as (c2 & w2 & E2).
  erewrite bind_ok by exact E2.
  destruct (metadata_stage_total fromtimestamp ctx file c2 w2) as (c3 & w3 & E3).
  erewrite bind_ok by exact E3.
  pose proof (keeps_formats_stage_if (own_document doc) ctx file doc Counter.zero
                (keeps_open_own doc) w1) as K2.
  pose proof (keeps_metadata_stage (own_document doc) fromtimestamp ctx file c2 w2)
    as K3.
  rewrite E2 in K2. rewrite E3 in K3. simpl in K2, K3.
  destruct (formats_loop_outcomes _ _ _ _ _ _ _ _ E2 nonneg_zero) as [Hn2 Ho2].
  destruct (metadata_stage_outcomes _ _ _ _ _ _ E3 Hn2) as [Hn3 Ho3].
  change (outcomes Counter.zero) with 0 in Ho2.
  exists doc, w3, c3. split; [done|]. split; [done|]. split; [lia|].
  assert (own_document doc w1 w3) as [K|K] by (by etrans).
  - left. congruence.
  - by right.
Qed.

Lemma visit_file_counts ctx file w c w' :
  Ctx.save_sketches ctx = false →
  visit_file fromtimestamp ctx file w = (Ok c, w') →
  nonneg c ∧ items_version ctx file ≤ outcomes c ≤ items_version ctx file + 1.
Proof.
  intros Hsk Hrun. unfold items_version. rewrite Hsk.
  destruct (decide (DataFile.fileExtension file = lit "f3d")) as [Hext|Hext].
  - rewrite Hext. change (negb (str_eqb (lit "f3d") (lit "f3d"))) with false.
    cbv iota. destruct (visit_file_stages ctx file w Hsk Hext)
      as (doc & w3 & c3 & E & Hn & Ho & _).
    rewrite E in Hrun. unfold mbind, M_bind in Hrun.
    destruct (LazyDocument.close doc w3) as [[[]|e] w4]; [|done].
    injection Hrun as <- _. split; [done|lia].
  - destruct (visit_file_not_handled ctx file w Hext) as [l E].
    rewrite E in Hrun. injection Hrun as <- _.
    unfold str_eqb. rewrite bool_decide_eq_false_2 by done. cbn [negb].
    unfold nonneg, outcomes. simpl. lia.
Qed.

Lemma visit_file_returns_if ctx file w :
  Ctx.save_sketches ctx = false →
  (∀ d, DataFile.document file = Some d → Document.close d = true) →
  ∃ c w', visit_file fromtimestamp ctx file w = (Ok c, w').
Proof.
  intros Hsk Hclose.
  destruct (decide (DataFile.fileExtension file = lit "f3d")) as [Hext|Hext].
  - destruct (visit_file_stages ctx file w Hsk Hext)
      as (doc & w3 & c3 & -> & _ & _ & K).
    destruct (document_of doc w3) as [d|] eqn:Hd.
    + assert (DataFile.document file = Some d) as Hfd by (by destruct K).
      destruct (close_run_opened doc d w3 Hd (Hclose d Hfd)) as (w4 & E4 & _).
      erewrite bind_ok by exact E4. by eexists _, _.
    + erewrite bind_ok by (by apply close_unopened). by eexists _, _.
  - destruct (visit_file_not_handled ctx file w Hext) as [l ->]. by eexists _, _.
Qed.

(** X5: with sketches disabled, when the log file takes the lines of the
    call, [visit_file] on an [f3d] version returns unless [doc.close()]
    raises (no failure of an export or of the ledger makes it raise), and
    on another extension it returns [skipped(1)].  Whenever it returns on
    an [f3d] version, the counter accounts for every requested format
    exactly once, as saved, skipped or errored, plus at most one outcome
    for the ledger. *)
Theorem visit_file_outcomes ctx file w :
  Ctx.save_sketches ctx = false →
  let r := visit_file fromtimestamp ctx file w in
  let n := Z.of_nat (length (Ctx.formats ctx)) in
  (DataFile.fileExtension file ≠ lit "f3d" → log_takes w r.2 →
   r.1 = Ok skipped1)
  ∧ (DataFile.fileExtension file = lit "f3d" →
     (∀ c, r.1 = Ok c → nonneg c ∧ n ≤ outcomes c ≤ n + 1)
     ∧ ((∀ d, DataFile.document file = Some d → Document.close d = true) →
        log_takes w r.2 →
        ∃ c, r.1 = Ok c)).
Proof.
  intros Hsk r n. subst r n. split.
  - intros Hext _. by destruct (visit_file_not_handled ctx file w Hext) as [l ->].
  - intros Hext. split.
    + intros c Hc.
      destruct (visit_file_counts ctx file w c (visit_file fromtimestamp ctx file w).2
                  Hsk) as [Hn Ho].
      { rewrite <- Hc. apply surjective_pairing. }
      split; [done|]. unfold items_version in Ho. rewrite Hsk, Hext in Ho.
      change (negb (str_eqb (lit "f3d") (lit "f3d"))) with false in Ho.
      cbv iota in Ho. lia.
    + intros Hclose _.
      destruct (visit_file_returns_if ctx file w Hsk Hclose) as (c & w' & ->).
      by exists c.
Qed.

End Accounting.

Lemma visit_file_outcomes_witness :
  let r := visit_file Scenario.fromtimestamp Scenario.ctx Unwritten.Model
             Failing.world in
  Ctx.save_sketches Scenario.ctx = false
  ∧ log_takes Failing.world r.2
  ∧ r.1 = Ok (Counter.mk 3 0 0)
  ∧ 2 ≤ outcomes (Counter.mk 3 0 0) ≤ 2 + 1.
Proof.
  intros r. split; [reflexivity|].
  assert (log_takes Failing.world r.2) as Hlog by (vm_compute; reflexivity).
  split; [exact Hlog|].
  pose proof (visit_file_outcomes Scenario.fromtimestamp Scenario.ctx
                Unwritten.Model Failing.world eq_refl) as [_ H].
  destruct (H eq_refl) as [Hcount Hret].
  destruct Hret as [c Hc]; [|exact Hlog|].
  { intros d Hd. injection Hd as <-. reflexivity. }
  assert (r.1 = Ok (Counter.mk 3 0 0)) as Hr by (vm_compute; reflexivity).
  split; [exact Hr|]. exact (proj2 (Hcount _ Hr)).
Defined.

(** ** A version whose outputs exist is never opened *)

Lemma add_log_app l l' w : add_log l' (add_log l w) = add_log (l ++ l') w.
Proof. unfold add_log. simpl. by rewrite app_assoc. Qed.

Lemma export_filename_any_world ctx format file w p v :
  (export_filename ctx format file w).1 = Ok p →
  ∃ k, export_filename ctx format file v = (Ok p, add_log k v).
Proof.
  intros H. destruct (export_filename_run ctx format file w) as [l Hl].
  destruct (export_filename_run ctx format file v) as [k Hk].
  exists k. rewrite Hk. rewrite Hl in H. f_equal. exact H.
Qed.

Lemma export_file_exists_run ctx format file doc w p :
  (export_filename ctx format file w).1 = Ok p →
  is_Some (node_at (fs w) p) →
  ∃ l, export_file ctx format file doc w = (Ok skipped1, add_log l w).
Proof.
  intros H Hex. destruct (export_filename_any_world _ _ _ _ _ w H) as [k Hk].
  exists (k ++ [LogExists p]). unfold export_file.
  erewrite bind_ok by exact Hk. erewrite bind_ok by apply path_exists_run.
  change (fs (add_log k w)) with (fs w). rewrite bool_decide_eq_true_2 by exact Hex.
  erewrite bind_ok by apply log_run. by rewrite ret_run, add_log_app.
Qed.

Lemma formats_stage_exists ctx file doc formats : ∀ acc w,
  (∀ format, format ∈ formats →
     ∃ p, (export_filename ctx format file w).1 = Ok p
          ∧ is_Some (node_at (fs w) p)) →
  ∃ l, for_each formats (λ format counter,
         try_except
           (c ← export_file ctx format file doc; mret (Counter.__iadd__ counter c))
           (λ e, traceback_handler e counter)) acc w
       = (Ok (Counter.__iadd__ acc (Counter.mk 0 (Z.of_nat (length formats)) 0)),
          add_log l w).
Proof.
  induction formats as [|format formats IH]; intros acc w Hall.
  - exists []. simpl. rewrite iadd_nothing. unfold add_log. rewrite app_nil_r.
    by destruct w.
  - destruct (Hall format) as (p & Hp & Hex); [apply list_elem_of_here|].
    destruct (export_file_exists_run ctx format file doc w p Hp Hex) as [l Hl].
    destruct (IH (Counter.__iadd__ acc skipped1) (add_log l w)) as [l' Hl'].
    { intros f Hf. destruct (Hall f) as (q & Hq & Hqex);
        [by apply list_elem_of_further|].
      destruct (export_filename_any_world _ _ _ _ _ (add_log l w) Hq) as [k Hk].
      exists q. by rewrite Hk. }
    exists (l ++ l'). simpl.
    erewrite bind_ok.
    2:{ unfold try_except. erewrite bind_ok by exact Hl. by rewrite ret_run. }
    rewrite Hl', add_log_app. f_equal. f_equal. unfold skipped1.
    rewrite iadd_skips. f_equal. f_equal. lia.
Qed.

Section Lazy.

Variable fromtimestamp : Z → option str.

Lemma export_metadata_no_request ctx file w :
  no_request w (export_metadata fromtimestamp ctx file w).2.
Proof.
  destruct (sanitized (DataFile.name file)) as [s|e] eqn:Es.
  - destruct (export_metadata_run fromtimestamp ctx file w s Es) as [l ->].
    destruct (node_at (fs w) (metadata_path ctx s)) as [[|content]|]; [done| |].
    + destruct (bool_decide (recorded file content)); [done|].
      destruct (fromtimestamp _); [|done]. by destruct (encodable _).
    + destruct (node_at (fs w) (parent (metadata_path ctx s))) as [[|?]|]; [|done|done].
      destruct (fromtimestamp _); [|done]. by destruct (encodable _).
  - unfold export_metadata.
    destruct (sanitize_filename_run (DataFile.name file) w) as [l Hl].
    rewrite Es in Hl. by erewrite bind_raise by exact Hl.
Qed.

Lemma metadata_stage_no_request ctx file acc w :
  no_request w (metadata_stage fromtimestamp ctx file acc w).2.
Proof.
  pose proof (export_metadata_no_request ctx file w) as [Hc Hh].
  unfold metadata_stage, try_except, mbind, M_bind.
  destruct (export_metadata fromtimestamp ctx file w) as [[c|e] w1]; simpl in *; done.
Qed.

(** X6: the handle is lazy.  With sketches disabled, when the output of
    every requested format exists, [visit_file] sends no request to the
    API: the document is never opened, so never closed.  When the log
    file takes the lines of the call, it returns with one skip for each
    format and at most one more outcome, that of the ledger. *)
Theorem visit_file_lazy ctx file w :
  Ctx.save_sketches ctx = false →
  DataFile.fileExtension file = lit "f3d" →
  (∀ format, format ∈ Ctx.formats ctx →
     ∃ p, (export_filename ctx format file w).1 = Ok p
          ∧ is_Some (node_at (fs w) p)) →
  let r := visit_file fromtimestamp ctx file w in
  calls r.2 = calls w
  ∧ document_of (LazyDocument.mk ctx file (length (heap w))) r.2 = None
  ∧ (log_takes w r.2 →
     ∃ c, r.1 = Ok c
          ∧ Counter.skipped c = Z.of_nat (length (Ctx.formats ctx))
          ∧ 0 ≤ Counter.saved c ∧ 0 ≤ Counter.errored c
          ∧ Counter.saved c + Counter.errored c ≤ 1).
Proof.
  intros Hsk Hext Hall r. subst r. rewrite visit_file_unfold.
  erewrite bind_ok by apply log_run. rewrite Hext.
  change (negb (str_eqb (lit "f3d") (lit "f3d"))) with false. cbv iota.
  erewrite bind_ok by apply init_run.
  set (w0 := add_log _ w).
  change (length (heap w)) with (length (heap w0)).
  set (doc := LazyDocument.mk ctx file (length (heap w0))).
  unfold sketches_stage. rewrite Hsk. erewrite bind_ok by apply ret_run.
  set (w1 := set_heap _ _).
  assert (document_of doc w1 = None) as Hfresh
    by (by apply (fresh_handle_unopened ctx file w0 w1)).
  destruct (formats_stage_exists ctx file doc (Ctx.formats ctx) Counter.zero w1)
    as [l E2].
  { intros f Hf. destruct (Hall f Hf) as (p & Hp & Hex).
    destruct (export_filename_any_world _ _ _ _ _ w1 Hp) as [k Hk].
    exists p. by rewrite Hk. }
  unfold formats_stage. erewrite bind_ok by exact E2.
  set (c2 := Counter.__iadd__ _ _).
  destruct (metadata_stage_total fromtimestamp ctx file c2 (add_log l w1))
    as (c3 & w3 & E3).
  pose proof (metadata_stage_no_request ctx file c2 (add_log l w1)) as [Hc Hh].
  assert (nonneg c2) as Hn2 by (unfold nonneg; simpl; lia).
  pose proof (metadata_stage_outcomes _ _ _ _ _ _ _ E3 Hn2) as [Hn3 Ho3].
  assert (Counter.skipped c2 ≤ Counter.skipped c3
          ∧ Counter.skipped c3 ≤ Counter.skipped c2) as Hskip.
  { apply try_inv in E3 as [E|(e & w4 & _ & E)].
    - apply bind_inv in E as (c & w4 & Hcm & E). injection E as <- _.
      apply export_metadata_returns in Hcm as [-> | ->]; simpl; lia.
    - injection E as <- _. simpl. lia. }
  rewrite E3 in Hc, Hh. simpl in Hc, Hh.
  erewrite bind_ok by exact E3.
  assert (document_of doc w3 = None) as Hd3
    by (rewrite (document_of_heap doc (add_log l w1) w3 Hh); exact Hfresh).
  erewrite bind_ok by (by apply close_unopened). rewrite ret_run. simpl.
  split; [by rewrite Hc|]. split; [exact Hd3|]. intros _.
  exists c3. split; [done|]. unfold nonneg, outcomes in *. simpl in *. lia.
Qed.

End Lazy.

Lemma visit_file_lazy_witness :
  let r := visit_file Scenario.fromtimestamp Scenario.ctx Scenario.Model
             Exported.world in
  calls r.2 = [] ∧ log_takes Exported.world r.2 ∧ r.1 = Ok (Counter.mk 1 2 0).
Proof.
  intros r.
  destruct (visit_file_lazy Scenario.fromtimestamp Scenario.ctx Scenario.Model
              Exported.world eq_refl eq_refl) as (H1 & _ & _).
  - intros f Hf.
    exists (Exported.dir // (lit "Model_v1." ++ Format.value f)).
    apply elem_of_cons in Hf as [->|Hf];
      [|apply elem_of_cons in Hf as [->|Hf]; [|by apply elem_of_nil in Hf]].
    all: split; [vm_compute; reflexivity|vm_compute; by eexists].
  - split; [exact H1|]. split; vm_compute; reflexivity.
Defined.

(** ** Loops that count *)

Lemma for_each_returns {A S} (P : A → Prop) (xs : list A) (body : A → S → M S) :
  (∀ x acc w, x ∈ xs → (∃ acc' w', body x acc w = (Ok acc', w')) ↔ P x) →
  ∀ acc w, (∃ acc' w', for_each xs body acc w = (Ok acc', w')) ↔ Forall P xs.
Proof.
  induction xs as [|x xs IH]; intros Hb acc w.
  - split; [constructor|]. intros _. by eexists _, _.
  - assert (∀ y acc w, y ∈ xs → (∃ acc' w', body y acc w = (Ok acc', w')) ↔ P y)
      as Hb' by (intros; apply Hb; by apply list_elem_of_further).
    simpl. split.
    + intros (acc' & w' & Hrun). apply bind_inv in Hrun as (a1 & w1 & H1 & Hrun).
      constructor.
      * apply (Hb x acc w); [apply list_elem_of_here|by eexists _, _].
      * apply (IH Hb' a1 w1). by eexists _, _.
    + intros HP. apply Forall_cons in HP as [Hx Hxs].
      apply (Hb x acc w) in Hx as (a1 & w1 & H1); [|apply list_elem_of_here].
      apply (IH Hb' a1 w1) in Hxs as (acc' & w' & H2).
      exists acc', w'. by erewrite bind_ok by exact H1.
Qed.

Lemma for_each_outcomes {A} (xs : list A) (body : A → Counter → M Counter)
    (item : A → Z) :
  (∀ x acc w acc' w', x ∈ xs → body x acc w = (Ok acc', w') → nonneg acc →
     nonneg acc' ∧ outcomes acc' = outcomes acc + item x) →
  ∀ acc w acc' w', for_each xs body acc w = (Ok acc', w') → nonneg acc →
    nonneg acc' ∧ outcomes acc' = outcomes acc + sumZ (item <$> xs).
Proof.
  induction xs as [|x xs IH]; intros Hb acc w acc' w' Hrun Hacc.
  - injection Hrun as <- _. split; [done|simpl; lia].
  - simpl in Hrun. apply bind_inv in Hrun as (a1 & w1 & H1 & Hrun).
    destruct (Hb x acc w a1 w1 (list_elem_of_here _ _) H1 Hacc) as [Hn1 Ho1].
    destruct (IH (λ y a v a' v' Hy, Hb y a v a' v' (list_elem_of_further _ _ _ Hy))
                a1 w1 acc' w' Hrun Hn1) as [Hn Ho].
    split; [done|]. rewrite Ho, Ho1.
    change (sumZ (item <$> x :: xs)) with (item x + sumZ (item <$> xs)). lia.
Qed.

Lemma outcomes_iadd a b :
  outcomes (Counter.__iadd__ a b) = outcomes a + outcomes b.
Proof. unfold outcomes. simpl. lia. Qed.

(** ** What [export_sketches] counts and when it returns *)

Lemma sanitizes_run name w :
  (∃ s w', sanitize_filename name w = (Ok s, w')) ↔ sanitizes name = true.
Proof.
  destruct (sanitize_filename_run name w) as [l ->]. unfold sanitizes.
  destruct (sanitized name) as [s|e]; split; try done.
  - intros _. by eexists _, _.
  - by intros (s & w' & [=]).
Qed.

Lemma export_sketch_outcome ctx cn sk acc w acc' w' :
  export_sketch ctx cn sk acc w = (Ok acc', w') → nonneg acc →
  nonneg acc' ∧ outcomes acc' = outcomes acc + 1.
Proof.
  intros Hrun Hacc. unfold export_sketch in Hrun.
  apply bind_inv in Hrun as (s & w1 & _ & Hrun).
  apply bind_inv in Hrun as (b & w2 & _ & Hrun).
  unfold nonneg, outcomes in *. destruct b.
  - apply bind_inv in Hrun as ([] & w3 & _ & Hrun). injection Hrun as <- _.
    simpl. lia.
  - apply bind_inv in Hrun as ([] & w3 & _ & Hrun).
    apply try_inv in Hrun as [Hrun|(e & w4 & _ & Hrun)].
    + apply bind_inv in Hrun as ([] & w4 & _ & Hrun).
      apply bind_inv in Hrun as ([] & w5 & _ & Hrun).
      injection Hrun as <- _. simpl. lia.
    + apply bind_inv in Hrun as ([] & w5 & _ & Hrun).
      injection Hrun as <- _. simpl. lia.
Qed.

Lemma export_sketch_returns ctx cn sk acc w :
  (∃ acc' w', export_sketch ctx cn sk acc w = (Ok acc', w'))
  ↔ sanitizes (Sketch.name sk) = true.
Proof.
  rewrite <- (sanitizes_run _ w). unfold export_sketch. split.
  - intros (acc' & w' & Hrun). apply bind_inv in Hrun as (s & w1 & Hs & _).
    by eexists _, _.
  - intros (s & w1 & Hs). erewrite bind_ok by exact Hs.
    erewrite bind_ok by apply path_exists_run.
    destruct (bool_decide _).
    + erewrite bind_ok by apply log_run. by eexists _, _.
    + erewrite bind_ok by apply log_run. apply try_total.
      intros e v. by eexists _, _.
Qed.

(** The run of [export_sketches] when every line is recorded. *)
Lemma export_sketches_runs component : ∀ ctx w,
  (∀ c w', export_sketches ctx component w = (Ok c, w') →
     nonneg c ∧ outcomes c = count_sketches component)
  ∧ ((∃ c w', export_sketches ctx component w = (Ok c, w'))
     ↔ sketch_names_ok component = true).
Proof.
  induction component as [n s o IH] using Component_ind'. intros ctx w.
  rewrite Forall_forall in IH. split.
  - intros c w' Hrun. rewrite export_sketches_unfold in Hrun.
    apply bind_inv in Hrun as (c1 & w1 & H1 & Hrun).
    eapply (for_each_outcomes s _ (λ _, 1)) in H1 as [Hn1 Ho1];
      [|intros; by eapply export_sketch_outcome|exact nonneg_zero].
    eapply (for_each_outcomes o _ (λ oc, count_sketches oc.2)) in Hrun as [Hn Ho];
      [| |exact Hn1].
    + split; [done|]. rewrite Ho, Ho1, sumZ_ones.
      change (outcomes Counter.zero) with 0.
      change (count_sketches (Component.mk n s o))
        with (Z.of_nat (length s)
              + sumZ ((λ oc : str * Component.t, count_sketches oc.2) <$> o)).
      lia.
    + intros [on oc] acc v acc' v' Hin Hocc Hacc. unfold export_occurrence in Hocc.
      apply bind_inv in Hocc as (c2 & v2 & Hc2 & Hocc). injection Hocc as <- _.
      apply bind_inv in Hc2 as (s2 & v3 & _ & Hc2).
      apply (IH _ Hin) in Hc2 as [Hn2 Ho2].
      split; [by apply nonneg_iadd|]. by rewrite outcomes_iadd, Ho2.
  - assert (∀ x acc v, x ∈ o →
              (∃ acc' v', export_occurrence ctx x acc v = (Ok acc', v'))
              ↔ sanitizes x.1 = true ∧ sketch_names_ok x.2 = true) as Hocc.
    { intros [on oc] acc v1 Hin. unfold export_occurrence. split.
      - intros (acc' & v' & Hrun).
        apply bind_inv in Hrun as (c2 & v2 & Hc2 & _).
        apply bind_inv in Hc2 as (s2 & v3 & Hs2 & Hc2). split.
        + apply (sanitizes_run on v1). by eexists _, _.
        + apply (IH _ Hin (Ctx.extend ctx s2) v3). by eexists _, _.
      - intros [Hs2 Hok]. apply (sanitizes_run on v1) in Hs2 as (s2 & v3 & Hs2).
        apply (IH _ Hin (Ctx.extend ctx s2) v3) in Hok as (c2 & v2 & Hc2).
        eexists _, _. erewrite bind_ok; [apply ret_run|].
        erewrite bind_ok by exact Hs2. exact Hc2. }
    pose proof (for_each_returns _ s (export_sketch ctx n)
                  (λ x acc v _, export_sketch_returns ctx n x acc v)) as Hs.
    pose proof (for_each_returns _ o (export_occurrence ctx) Hocc) as Ho.
    change (sketch_names_ok (Component.mk n s o))
      with (forallb (λ sketch, sanitizes (Sketch.name sketch)) s
            && forallb (λ oc : str * Component.t,
                          sanitizes oc.1 && sketch_names_ok oc.2) o).
    rewrite andb_true_iff, !forallb_true_Forall.
    rewrite <- (Hs Counter.zero w).
    assert (Forall (λ oc : str * Component.t,
                      sanitizes oc.1 && sketch_names_ok oc.2 = true) o
            ↔ Forall (λ oc : str * Component.t,
                        sanitizes oc.1 = true ∧ sketch_names_ok oc.2 = true) o) as ->.
    { rewrite !Forall_forall. by setoid_rewrite andb_true_iff. }
    split.
    + intros (c & w' & Hrun). rewrite export_sketches_unfold in Hrun.
      apply bind_inv in Hrun as (c1 & w1 & H1 & Hrun).
      split; [by eexists _, _|]. apply (Ho c1 w1). by eexists _, _.
    + intros [(c1 & w1 & H1) Hall]. apply (Ho c1 w1) in Hall as (c & w' & Hrun).
      exists c, w'. rewrite export_sketches_unfold. by erewrite bind_ok by exact H1.
Qed.

(** X7: [export_sketches] accounts for every sketch of the component
    tree exactly once: when it returns, the three counts add up to the
    number of sketches of the component and of the components below it.
    No failure of [saveAsDXF] or of the file system makes it raise: when
    the log file takes the lines of the call, it returns exactly when
    every sketch name and occurrence name of the tree can be sanitized,
    and it never returns otherwise. *)
Theorem export_sketches_outcomes component ctx w :
  (∀ c w', export_sketches ctx component w = (Ok c, w') →
     nonneg c ∧ outcomes c = count_sketches component)
  ∧ ((∃ c w', export_sketches ctx component w = (Ok c, w')) →
     sketch_names_ok component = true)
  ∧ (sketch_names_ok component = true →
     log_takes w (export_sketches ctx component w).2 →
     ∃ c w', export_sketches ctx component w = (Ok c, w')).
Proof.
  destruct (export_sketches_runs component ctx w) as [Hcount Hret].
  split; [exact Hcount|]. split; [apply Hret|]. intros Hok _. by apply Hret.
Qed.

Lemma export_sketches_outcomes_witness :
  let arm := Component.mk (lit "Arm") [Sketch.mk (lit "Profile") ReturnsFalse] [] in
  let component :=
    Component.mk (lit "Model") [Sketch.mk (lit "Base") Succeeds]
      [(lit "Arm:1", arm)] in
  let r := export_sketches Scenario.ctx component Failing.world in
  sketch_names_ok component = true
  ∧ log_takes Failing.world r.2
  ∧ ∃ c w', export_sketches Scenario.ctx component Failing.world = (Ok c, w').
Proof.
  intros arm component r.
  assert (sketch_names_ok component = true) as Hok by (vm_compute; reflexivity).
  assert (log_takes Failing.world r.2) as Hlog by (vm_compute; reflexivity).
  split; [exact Hok|]. split; [exact Hlog|].
  exact (proj2 (proj2 (export_sketches_outcomes component Scenario.ctx
                         Failing.world)) Hok Hlog).
Defined.

(** ** When the walker returns *)

Section Returns.

Variable fromtimestamp : Z → option str.

Lemma visit_sub_folder_returns ctx sub acc w :
  (∃ acc' w', visit_sub_folder fromtimestamp ctx sub acc w = (Ok acc', w'))
  ↔ (∃ c w', visit_folder fromtimestamp ctx sub w = (Ok c, w')).
Proof.
  unfold visit_sub_folder. split.
  - intros (acc' & w' & Hrun). apply bind_inv in Hrun as (c & w1 & Hc & _).
    by eexists _, _.
  - intros (c & w1 & Hc). eexists _, _. erewrite bind_ok by exact Hc. apply ret_run.
Qed.

(** The run of [visit_folder] when every line is recorded. *)
Lemma visit_folder_runs folder : ∀ ctx w,
  (∃ c w', visit_folder fromtimestamp ctx folder w = (Ok c, w'))
  ↔ listable folder = true.
Proof.
  induction folder as [name files subs IH] using DataFolder_ind'. intros ctx w.
  change (listable (DataFolder.mk name files subs))
    with (sanitizes name
          && match files with Some _ => true | None => false end
          && match subs with
             | Some sub_folders => forallb listable sub_folders
             | None => false
             end).
  rewrite !andb_true_iff. rewrite Forall_forall in IH. split.
  - intros (c & w' & Hrun). rewrite visit_folder_unfold in Hrun.
    apply bind_inv in Hrun as ([] & w1 & _ & Hrun).
    apply bind_inv in Hrun as (s & w2 & Hs & Hrun).
    apply bind_inv in Hrun as (l & w3 & Hl & Hrun).
    apply bind_inv in Hrun as (c1 & w4 & _ & Hrun).
    split; [split|].
    + apply (sanitizes_run name w1). by eexists _, _.
    + by destruct files.
    + destruct subs as [sub_folders|]; [|done]. apply forallb_true_Forall.
      eapply (for_each_returns _ sub_folders
                (visit_sub_folder fromtimestamp (Ctx.extend ctx s)));
        [|by eexists _, _].
      intros sub acc v Hin. rewrite visit_sub_folder_returns. by apply IH.
  - intros [[Hs Hfiles] Hsubs]. rewrite visit_folder_unfold.
    erewrite bind_ok by apply log_run.
    apply (sanitizes_run name (add_log [LogVisitingFolder name] w)) in Hs
      as (s & w2 & Hs).
    erewrite bind_ok by exact Hs.
    destruct files as [l|]; [|done]. erewrite bind_ok by apply ret_run.
    destruct (for_each_total l (visit_folder_file fromtimestamp (Ctx.extend ctx s))
                (visit_folder_file_total fromtimestamp (Ctx.extend ctx s))
                Counter.zero w2) as (c1 & w4 & H1).
    erewrite bind_ok by exact H1.
    destruct subs as [sub_folders|]; [|done]. apply forallb_true_Forall in Hsubs.
    eapply (for_each_returns _ sub_folders
              (visit_sub_folder fromtimestamp (Ctx.extend ctx s))); [|exact Hsubs].
    intros sub acc v Hin. rewrite visit_sub_folder_returns. by apply IH.
Qed.

(** X8: no failure inside a file can make [visit_folder] raise: the loop
    over the files catches every exception and always returns.  When the
    log file takes the lines of the walk, [visit_folder] returns exactly
    when, throughout the folder tree, every folder name can be sanitized
    and both listings ([dataFiles], [dataFolders]) can be read; when that
    is not the case it raises, whatever the world. *)
Theorem visit_folder_returns folder ctx w :
  let r := visit_folder fromtimestamp ctx folder w in
  (log_takes w r.2 → (∃ c, r.1 = Ok c) ↔ listable folder = true)
  ∧ (listable folder = false → ∃ e, r.1 = Raise e)
  ∧ (∀ files new_ctx acc v,
       ∃ acc' v', for_each files (visit_folder_file fromtimestamp new_ctx) acc v
                  = (Ok acc', v')).
Proof.
  intros r. subst r.
  pose proof (visit_folder_runs folder ctx w) as Hruns.
  assert ((∃ c, (visit_folder fromtimestamp ctx folder w).1 = Ok c)
          ↔ listable folder = true) as Hiff.
  { rewrite <- Hruns. split.
    - intros [c Hc]. exists c, (visit_folder fromtimestamp ctx folder w).2.
      rewrite <- Hc. apply surjective_pairing.
    - intros (c & w' & ->). by exists c. }
  split; [by intros _|]. split.
  - intros Hl.
    destruct (visit_folder fromtimestamp ctx folder w) as [[c|e] w'] eqn:E;
      [|by exists e].
    assert (listable folder = true) as Ht by (apply Hiff; by exists c).
    congruence.
  - intros files new_ctx. apply for_each_total, visit_folder_file_total.
Qed.

Lemma mkdir_returns p w :
  node_at (fs w) p = Some Dir ∧ mkdir p w = (Ok tt, w)
  ∨ (node_at (fs w) p = None ∧ node_at (fs w) (parent p) = Some Dir
     ∧ mkdir p w = (Ok tt, set_fs <[p := Dir]> w))
  ∨ (node_at (fs w) p ≠ Some Dir
     ∧ ¬ (node_at (fs w) p = None ∧ node_at (fs w) (parent p) = Some Dir)
     ∧ ∃ e, mkdir p w = (Raise e, w)).
Proof.
  unfold mkdir. destruct (node_at (fs w) p) as [[|c]|]; [by left| |].
  - right; right. split; [done|]. split; [by intros [? _]|by eexists].
  - destruct (node_at (fs w) (parent p)) as [[|c]|]; [right; by left|..];
      right; right; (split; [done|]); (split; [by intros [_ ?]|by eexists]).
Qed.

Lemma open_w_in_directory p w :
  node_at (fs w) (parent p) = Some Dir →
  (∃ w', open_w p w = (Ok tt, w')) ↔ node_at (fs w) p ≠ Some Dir.
Proof.
  intros Hp. unfold open_w. rewrite Hp.
  destruct (node_at (fs w) p) as [[|c]|]; split; try done; try by eexists.
  by intros [w' [=]].
Qed.

Lemma init_returns ctx w :
  (∃ w', (init_directory (Ctx.folder ctx);; init_logging (Ctx.folder ctx)) w
         = (Ok tt, w'))
  ↔ output_ready ctx w.
Proof.
  unfold output_ready, init_directory, init_logging.
  set (folder := Ctx.folder ctx). rewrite log_file_path.
  assert (parent (folder ++ [now w ++ lit ".txt"]) = folder) as Hpar
    by apply removelast_last.
  assert (folder ++ [now w ++ lit ".txt"] ≠ folder) as Hne.
  { intros H. apply (f_equal length) in H. rewrite length_app in H. simpl in H. lia. }
  destruct (mkdir_returns folder w) as [[Hd Hm]|[(Hn & Hd & Hm)|(H1 & H2 & e & Hm)]].
  - erewrite bind_ok by (erewrite bind_ok by exact Hm; apply ret_run).
    erewrite bind_ok by reflexivity. cbv beta. rewrite log_file_path.
    rewrite open_w_in_directory by (by rewrite Hpar). tauto.
  - erewrite bind_ok by (erewrite bind_ok by exact Hm; apply ret_run).
    erewrite bind_ok by reflexivity. cbv beta. rewrite log_file_path.
    change (now (set_fs _ w)) with (now w).
    rewrite open_w_in_directory.
    2:{ rewrite Hpar. simpl. apply node_at_insert_eq. by intros E; rewrite E in Hn. }
    simpl. rewrite node_at_insert_ne by done. tauto.
  - erewrite bind_raise by (erewrite bind_raise by exact Hm; reflexivity).
    split; [by intros [w' [=]]|]. intros [[?|?] _]; tauto.
Qed.

(** The run of [main] when every line is recorded. *)
Lemma main_runs ctx w :
  (∃ c w', main fromtimestamp ctx w = (Ok c, w'))
  ↔ output_ready ctx w
    ∧ Forall (λ project, DataProject.name project ∈ Ctx.projects ctx →
                         listable (DataProject.rootFolder project) = true)
        (Application.dataProjects (Ctx.app ctx)).
Proof.
  rewrite <- init_returns. unfold main.
  set (body := λ (project : DataProject.t) (counter : Counter), _).
  assert (∀ project acc v,
            (∃ acc' v', body project acc v = (Ok acc', v'))
            ↔ (DataProject.name project ∈ Ctx.projects ctx →
               listable (DataProject.rootFolder project) = true)) as Hbody.
  { intros project acc v. subst body. cbv beta. case_bool_decide as Hin.
    - rewrite <- (visit_folder_runs _ ctx v). split.
      + intros (acc' & v' & Hrun) _. apply bind_inv in Hrun as (c & v1 & Hc & _).
        by eexists _, _.
      + intros H. destruct (H Hin) as (c & v1 & Hc). eexists _, _.
        erewrite bind_ok by exact Hc. apply ret_run.
    - split; [done|]. intros _. by eexists _, _. }
  pose proof (for_each_returns _ (Application.dataProjects (Ctx.app ctx)) body
                (λ x acc v _, Hbody x acc v) Counter.zero) as Hloop.
  split.
  - intros (c & w' & Hrun).
    apply bind_inv in Hrun as (p & w1 & H1 & Hrun).
    apply bind_inv in Hrun as ([] & w2 & H2 & Hrun). split.
    + exists w2. erewrite bind_ok by exact H1. exact H2.
    + apply (Hloop w2). by eexists _, _.
  - intros [(w2 & Hinit) Hall].
    apply bind_inv in Hinit as (p & w1 & H1 & H2).
    apply (Hloop w2) in Hall as (c & w' & Hrun). exists c, w'.
    erewrite bind_ok by exact H1. by erewrite bind_ok by exact H2.
Qed.

(** X9: when the log file takes the lines of the run, [main] returns
    exactly when the output directory exists or can be made in its parent
    ([mkdir] without [parents=True]), the path of the log file is not a
    directory, and the folder tree of every selected project can be
    listed and its folder names sanitized.  In every other case it
    raises; nothing that happens to a file makes it raise, and a project
    that is not selected cannot make it raise. *)
Theorem main_returns ctx w :
  let r := main fromtimestamp ctx w in
  let ready :=
    output_ready ctx w
    ∧ Forall (λ project, DataProject.name project ∈ Ctx.projects ctx →
                         listable (DataProject.rootFolder project) = true)
        (Application.dataProjects (Ctx.app ctx)) in
  (log_takes w r.2 → (∃ c, r.1 = Ok c) ↔ ready)
  ∧ (¬ ready → ∃ e, r.1 = Raise e).
Proof.
  intros r ready. subst r ready.
  pose proof (main_runs ctx w) as Hruns.
  assert ((∃ c, (main fromtimestamp ctx w).1 = Ok c)
          ↔ (∃ c w', main fromtimestamp ctx w = (Ok c, w'))) as Hiff.
  { split.
    - intros [c Hc]. exists c, (main fromtimestamp ctx w).2.
      rewrite <- Hc. apply surjective_pairing.
    - intros (c & w' & ->). by exists c. }
  split.
  - intros _. by rewrite Hiff.
  - intros Hnot. destruct (main fromtimestamp ctx w) as [[c|e] w'] eqn:E;
      [|by exists e].
    destruct Hnot. apply Hruns. by exists c, w'.
Qed.

(** X10: a run of [main] never removes a node of the file system and
    never changes its kind: a directory stays a directory and a file
    stays a file, whether the run returns or raises. *)
Theorem main_keeps_nodes ctx w p :
  let w' := (main fromtimestamp ctx w).2 in
  (node_at (fs w) p = Some Dir → node_at (fs w') p = Some Dir)
  ∧ (∀ content, node_at (fs w) p = Some (File content) →
       ∃ content', node_at (fs w') p = Some (File content')).
Proof.
  intros w'. subst w'.
  destruct (keeps_main world_le fromtimestamp ctx w) as [Hfs _].
  specialize (Hfs p). split.
  - intros H. by rewrite H in Hfs.
  - intros content H. by rewrite H in Hfs.
Qed.

End Returns.

Lemma visit_folder_returns_witness :
  let r := visit_folder Scenario.fromtimestamp Scenario.ctx Scenario.F
             Failing.world in
  log_takes Failing.world r.2
  ∧ listable Scenario.F = true
  ∧ ∃ c, r.1 = Ok c.
Proof.
  intros r.
  assert (log_takes Failing.world r.2) as Hlog by (vm_compute; reflexivity).
  split; [exact Hlog|]. split; [reflexivity|].
  destruct (visit_folder_returns Scenario.fromtimestamp Scenario.F Scenario.ctx
              Failing.world) as [Hiff _].
  apply (Hiff Hlog). reflexivity.
Defined.

Lemma main_returns_witness :
  let r := main Scenario.fromtimestamp Scenario.ctx Scenario.world in
  log_takes Scenario.world r.2
  ∧ output_ready Scenario.ctx Scenario.world
  ∧ ∃ c, r.1 = Ok c.
Proof.
  intros r.
  assert (log_takes Scenario.world r.2) as Hlog by (vm_compute; reflexivity).
  assert (output_ready Scenario.ctx Scenario.world) as Hready.
  { split.
    - right. split; vm_compute; reflexivity.
    - intros H. vm_compute in H. discriminate H. }
  split; [exact Hlog|]. split; [exact Hready|].
  destruct (main_returns Scenario.fromtimestamp Scenario.ctx Scenario.world)
    as [Hiff _].
  apply (Hiff Hlog). split; [exact Hready|].
  constructor; [|constructor]. intros _. reflexivity.
Defined.

(** ** Reading back what the ledger holds *)

Lemma universal_newlines_cons c s :
  c ≠ 13 → universal_newlines (c :: s) = c :: universal_newlines s.
Proof.
  intros Hc. destruct c as [|p|p]; try reflexivity.
  do 4 (destruct p as [p|p|]; try reflexivity). done.
Qed.

Lemma universal_newlines_cr s :
  universal_newlines (13 :: s)
  = 10 :: universal_newlines (match s with 10 :: s' => s' | _ => s end).
Proof.
  destruct s as [|c s]; [reflexivity|].
  destruct c as [|p|p]; try reflexivity.
  do 4 (destruct p as [p|p|]; try reflexivity).
Qed.

Lemma universal_newlines_plain a b :
  13 ∉ a → universal_newlines (a ++ b) = a ++ universal_newlines b.
Proof.
  induction a as [|c a IH]; intros Ha; [done|]. rewrite <- !app_comm_cons.
  rewrite universal_newlines_cons.
  - rewrite IH; [done|]. intros H. apply Ha. by apply list_elem_of_further.
  - intros ->. apply Ha. apply list_elem_of_here.
Qed.

(** Text that ends a line can be translated on its own. *)
Lemma universal_newlines_line n : ∀ a b,
  (length a ≤ n)%nat →
  universal_newlines ((a ++ [10]) ++ b)
  = universal_newlines (a ++ [10]) ++ universal_newlines b
  ∧ ∃ x, universal_newlines (a ++ [10]) = x ++ [10].
Proof.
  assert (universal_newlines [10] = [10]) as Hnl by reflexivity.
  assert (∀ b, universal_newlines (10 :: b) = 10 :: universal_newlines b) as Hnl'
    by (intros; by apply universal_newlines_cons).
  induction n as [|n IH]; intros a b Hn.
  - destruct a; [|simpl in Hn; lia].
    rewrite !app_nil_l, <- app_comm_cons, app_nil_l, Hnl, Hnl'.
    split; [done|]. by exists [].
  - destruct a as [|c a].
    { rewrite !app_nil_l, <- app_comm_cons, app_nil_l, Hnl, Hnl'.
      split; [done|]. by exists []. }
    simpl in Hn. rewrite <- !app_comm_cons.
    destruct (decide (c = 13)) as [->|Hc].
    + rewrite !universal_newlines_cr.
      destruct a as [|c' a].
      { rewrite !app_nil_l, <- app_comm_cons, app_nil_l.
        change (universal_newlines []) with (@nil Z).
        split; [done|]. by exists []. }
      destruct (decide (c' = 10)) as [->|Hc'].
      * rewrite <- !app_comm_cons. simpl in Hn.
        destruct (IH a b ltac:(lia)) as [H1 [x Hx]].
        rewrite H1. split; [done|]. exists (10 :: x). by rewrite Hx.
      * assert (∀ t : str, match c' :: t with 10 :: s' => s' | _ => c' :: t end
                           = c' :: t) as Hm.
        { intros t. destruct c' as [|p|p]; try reflexivity.
          do 4 (destruct p as [p|p|]; try reflexivity). done. }
        rewrite <- !app_comm_cons, !Hm, !app_comm_cons.
        destruct (IH (c' :: a) b ltac:(simpl in *; lia)) as [H1 [x Hx]].
        rewrite H1. split; [done|]. exists (10 :: x). by rewrite Hx.
    + rewrite !universal_newlines_cons by done.
      destruct (IH a b ltac:(lia)) as [H1 [x Hx]].
      rewrite H1. split; [done|]. exists (c :: x). by rewrite Hx.
Qed.

Lemma split_lines_line a : ∀ cur b,
  split_lines cur ((a ++ [10]) ++ b)
  = split_lines cur (a ++ [10]) ++ split_lines [] b.
Proof.
  induction a as [|c a IH]; intros cur b; simpl.
  - by destruct b.
  - destruct (c =? 10); [|apply IH]. simpl. f_equal. apply IH.
Qed.

Lemma split_lines_first a : ∀ cur b,
  10 ∉ a →
  split_lines cur (a ++ 10 :: b) = (rev cur ++ a ++ [10]) :: split_lines [] b.
Proof.
  induction a as [|c a IH]; intros cur b Ha; simpl.
  - done.
  - destruct (Z.eqb_spec c 10) as [->|Hc]; [exfalso; apply Ha, list_elem_of_here|].
    rewrite IH by (intros H; apply Ha; by apply list_elem_of_further).
    simpl. by rewrite <- app_assoc.
Qed.

Lemma strip_line c s :
  isspace c = false → strip ((c :: s) ++ [10]) = strip (c :: s).
Proof.
  intros Hc. unfold strip. simpl lstrip at 2 4. rewrite Hc.
  change (c :: s ++ [10]) with ((c :: s) ++ [10]).
  rewrite rev_app_distr. simpl rev at 1. simpl app at 1.
  by change (lstrip (10 :: rev (c :: s))) with (lstrip (rev (c :: s))).
Qed.

Lemma version_line_chars file :
  (10 ∉ version_line file) ∧ (13 ∉ version_line file).
Proof.
  assert (∀ c, c ∈ version_line file → c ≠ 10 ∧ c ≠ 13) as H.
  { intros c Hc. unfold version_line in Hc. apply elem_of_app in Hc as [Hc|Hc].
    - assert (Forall (λ c, c ≠ 10 ∧ c ≠ 13) (lit "Version: ")) as Hall
        by (by repeat constructor).
      rewrite Forall_forall in Hall. by apply Hall.
    - pose proof (str_of_int_chars (DataFile.versionNumber file)) as Hall.
      rewrite Forall_forall in Hall. destruct (Hall c Hc) as [Hd| ->]; [|done].
      unfold is_digit in Hd. lia. }
  split; intros Hc; by destruct (H _ Hc).
Qed.

Lemma version_block_eq file created :
  ∃ rest, version_block file created = version_line file ++ 10 :: rest ++ [10].
Proof.
  exists ([9] ++ lit "created: " ++ created ++ [10]
          ++ [9] ++ lit "description: " ++ DataFile.description file).
  unfold version_block. cbn [join]. by simplify_list_eq.
Qed.

Lemma ledger_lines_app content text :
  ends_lines content →
  ledger_lines (content ++ text) = ledger_lines content ++ ledger_lines text.
Proof.
  intros [->|Hlast]; [done|]. apply last_Some in Hlast as [a ->].
  unfold ledger_lines.
  destruct (universal_newlines_line (length a) a text (le_n _)) as [-> [x Hx]].
  by rewrite Hx, split_lines_line, fmap_app.
Qed.

Lemma recorded_block file created : recorded file (version_block file created).
Proof.
  destruct (version_block_eq file created) as [rest ->].
  destruct (version_line_chars file) as [H10 H13].
  unfold recorded, ledger_lines.
  rewrite universal_newlines_plain by done.
  rewrite universal_newlines_cons by done.
  rewrite split_lines_first by done. rewrite fmap_cons. simpl rev. rewrite app_nil_l.
  unfold version_line at 2. change (lit "Version: " ++ ?x) with (86 :: lit "ersion: " ++ x).
  rewrite strip_line by reflexivity. apply list_elem_of_here.
Qed.

Lemma ends_lines_block content file created :
  ends_lines (content ++ version_block file created).
Proof.
  destruct (version_block_eq file created) as [rest ->]. right.
  rewrite app_comm_cons, !app_assoc. apply last_snoc.
Qed.

Section Records.

Variable fromtimestamp : Z → option str.

(** X11: what [export_metadata] writes it finds again.  On a ledger that
    is missing, or whose text is empty or ends with a newline, a call that
    returns leaves a ledger that holds the line of this version and ends
    with a newline; the next call for the same version then returns the
    zero counter and writes nothing. *)
Theorem export_metadata_records ctx file w s c w' :
  sanitized (DataFile.name file) = Ok s →
  let p := metadata_path ctx s in
  (∀ content, node_at (fs w) p = Some (File content) → ends_lines content) →
  export_metadata fromtimestamp ctx file w = (Ok c, w') →
  (∃ content', node_at (fs w') p = Some (File content')
               ∧ recorded file content' ∧ ends_lines content')
  ∧ (export_metadata fromtimestamp ctx file w').1 = Ok Counter.zero
  ∧ fs (export_metadata fromtimestamp ctx file w').2 = fs w'.
Proof.
  intros Hs p Hends Hrun.
  assert (∃ content', node_at (fs w') p = Some (File content')
                      ∧ recorded file content' ∧ ends_lines content')
    as (content' & Hp' & Hrec & Hends').
  { destruct (export_metadata_run fromtimestamp ctx file w s Hs) as [l Hl].
    fold p in Hl. rewrite Hl in Hrun. clear Hl.
    destruct (node_at (fs w) p) as [[|content]|] eqn:Hp; [done| |].
    - assert (p ≠ []) as Hne by (by intros E; rewrite E in Hp).
      case_bool_decide as Hrec.
      + injection Hrun as <- <-. exists content. split; [done|]. split; [done|].
        by apply Hends.
      + destruct (fromtimestamp _) as [created|]; [|done].
      destruct (encodable _); [|done]. injection Hrun as <- <-.
        exists (content ++ version_block file created).
        split; [by apply node_at_insert_eq|]. split; [|apply ends_lines_block].
        unfold recorded. rewrite ledger_lines_app by (by apply Hends).
        apply elem_of_app. right. apply recorded_block.
    - assert (p ≠ []) as Hne by (by intros E; rewrite E in Hp).
      destruct (node_at (fs w) (parent p)) as [[|?]|]; [|done|done].
      destruct (fromtimestamp _) as [created|]; [|done].
      destruct (encodable _); [|done]. injection Hrun as <- <-.
      exists (version_block file created).
      split; [by apply node_at_insert_eq|]. split; [apply recorded_block|].
      apply (ends_lines_block []). }
  split; [by exists content'|].
  destruct (export_metadata_run fromtimestamp ctx file w' s Hs) as [l ->].
  fold p. rewrite Hp'. by rewrite bool_decide_eq_true_2.
Qed.

(** X12: the ledger is only ever appended to, and what it records stays
    recorded.  When [export_metadata] returns on an existing ledger, the
    new text is the old text followed by what the call wrote; if the old
    text is empty or ends with a newline, every version it recorded is
    still recorded after the call. *)
Theorem export_metadata_appends ctx file w s content c w' :
  sanitized (DataFile.name file) = Ok s →
  let p := metadata_path ctx s in
  node_at (fs w) p = Some (File content) →
  export_metadata fromtimestamp ctx file w = (Ok c, w') →
  ∃ written, node_at (fs w') p = Some (File (content ++ written))
             ∧ (written = [] ∨ ∃ created, written = version_block file created)
             ∧ (ends_lines content →
                ∀ file', recorded file' content → recorded file' (content ++ written)).
Proof.
  intros Hs p Hp Hrun.
  destruct (export_metadata_run fromtimestamp ctx file w s Hs) as [l Hl].
  fold p in Hl. rewrite Hl, Hp in Hrun. clear Hl.
  assert (p ≠ []) as Hne by (by intros E; rewrite E in Hp).
  case_bool_decide as Hrec.
  - injection Hrun as <- <-. exists []. rewrite app_nil_r.
    split; [done|]. split; [by left|done].
  - destruct (fromtimestamp _) as [created|]; [|done].
      destruct (encodable _); [|done]. injection Hrun as <- <-.
    exists (version_block file created).
    split; [by apply node_at_insert_eq|]. split; [right; by eexists|].
    intros Hends file' Hrec'. unfold recorded. rewrite ledger_lines_app by done.
    apply elem_of_app. by left.
Qed.

End Records.

Lemma export_metadata_records_witness :
  let r := export_metadata Scenario.fromtimestamp Scenario.ctx Scenario.Model
             Exported.ledger_world in
  sanitized (DataFile.name Scenario.Model) = Ok (lit "Model")
  ∧ ends_lines (lit "Version: 7" ++ [10])
  ∧ r.1 = Ok Counter.zero
  ∧ (export_metadata Scenario.fromtimestamp Scenario.ctx Scenario.Model r.2).1
    = Ok Counter.zero
  ∧ fs (export_metadata Scenario.fromtimestamp Scenario.ctx Scenario.Model r.2).2
    = fs r.2.
Proof.
  intros r.
  assert (sanitized (DataFile.name Scenario.Model) = Ok (lit "Model")) as Hs
    by (vm_compute; reflexivity).
  assert (ends_lines (lit "Version: 7" ++ [10])) as He by (right; reflexivity).
  assert (r.1 = Ok Counter.zero) as Hr by (vm_compute; reflexivity).
  split; [exact Hs|]. split; [exact He|]. split; [exact Hr|].
  refine (proj2 (export_metadata_records Scenario.fromtimestamp Scenario.ctx
                   Scenario.Model Exported.ledger_world (lit "Model") Counter.zero
                   r.2 Hs _ _)).
  - intros content Hc.
    assert (node_at (fs Exported.ledger_world) (metadata_path Scenario.ctx (lit "Model"))
            = Some (File (lit "Version: 7" ++ [10]))) as Hn
      by (vm_compute; reflexivity).
    rewrite Hn in Hc. injection Hc as <-. exact He.
  - rewrite <- Hr. apply surjective_pairing.
Defined.

Lemma export_metadata_appends_witness :
  let r := export_metadata Scenario.fromtimestamp Scenario.ctx Scenario.Model
             Exported.ledger_world in
  let content := lit "Version: 7" ++ [10] in
  node_at (fs Exported.ledger_world) Exported.ledger = Some (File content)
  ∧ ∃ written, node_at (fs r.2) Exported.ledger = Some (File (content ++ written)).
Proof.
  intros r content.
  assert (sanitized (DataFile.name Scenario.Model) = Ok (lit "Model")) as Hs
    by (vm_compute; reflexivity).
  assert (node_at (fs Exported.ledger_world) (metadata_path Scenario.ctx (lit "Model"))
          = Some (File content)) as Hn by (vm_compute; reflexivity).
  assert (r.1 = Ok Counter.zero) as Hr by (vm_compute; reflexivity).
  assert (metadata_path Scenario.ctx (lit "Model") = Exported.ledger) as Hp
    by (vm_compute; reflexivity).
  destruct (export_metadata_appends Scenario.fromtimestamp Scenario.ctx Scenario.Model
              Exported.ledger_world (lit "Model") content Counter.zero r.2 Hs Hn)
    as (written & H & _).
  - rewrite <- Hr. apply surjective_pairing.
  - rewrite Hp in Hn, H. split; [exact Hn|]. by exists written.
Defined.

(** ** The command dialog *)

(** X13: [FormatFromName] inverts [Format.value]: looking up a name gives
    a format exactly when the name is the value of that format, so the six
    values are found and every other name is a missing key. *)
Theorem FormatFromName_spec (x : str) (format : Format) :
  FormatFromName !! x = Some format ↔ x = Format.value format.
Proof.
  unfold FormatFromName, Format_members. cbn [foldl]. split.
  - intros H.
    repeat (apply lookup_insert_Some in H as [[<- <-]|[_ H]]; [reflexivity|]).
    by rewrite lookup_empty in H.
  - intros ->. destruct format; vm_compute; reflexivity.
Qed.

Lemma selected_all (names : list str) :
  selected ((λ name, ListItem.mk name true) <$> names) = names.
Proof.
  unfold selected. induction names as [|x names IH]; [done|].
  rewrite fmap_cons, filter_cons_True by done. rewrite fmap_cons. simpl. by f_equal.
Qed.

Lemma selected_elem_of (inputs : list ListItem.t) (name : str) :
  name ∈ selected inputs
  ↔ ∃ it, it ∈ inputs ∧ ListItem.isSelected it = true ∧ ListItem.name it = name.
Proof.
  unfold selected. rewrite list_elem_of_fmap. split.
  - intros (it & -> & Hit). apply list_elem_of_filter in Hit as [Hsel Hin]. eauto.
  - intros (it & Hin & Hsel & <-). exists it. split; [done|].
    by apply list_elem_of_filter.
Qed.

(** X14: whatever the user ticks in the dialog that the created handler
    built, the execute handler finds every selected name in
    [FormatFromName] (no [KeyError]); the formats of the context are the
    ticked ones, each once, in the order of the [Format] enumeration; the
    selected projects are the ticked ones; the directory and the three
    flags are those of the dialog. *)
Theorem command_ctx_of_dialog app inputs :
  ListItem.name <$> CommandInputs.file_types inputs = Format.value <$> Format_members →
  ∃ ctx, command_ctx app inputs = Some ctx
    ∧ Format.value <$> Ctx.formats ctx = selected (CommandInputs.file_types inputs)
    ∧ NoDup (Ctx.formats ctx)
    ∧ Ctx.formats ctx `sublist_of` Format_members
    ∧ (∀ name, name ∈ Ctx.projects ctx
         ↔ ∃ it, it ∈ CommandInputs.projects inputs
                 ∧ ListItem.isSelected it = true ∧ ListItem.name it = name)
    ∧ Ctx.folder ctx = CommandInputs.directory inputs
    ∧ Ctx.app ctx = app
    ∧ Ctx.unhide_all ctx = CommandInputs.unhide_all inputs
    ∧ Ctx.save_sketches ctx = CommandInputs.save_sketches inputs
    ∧ Ctx.save_all_versions ctx = CommandInputs.save_all_versions inputs.
Proof.
  intros Hnames. unfold command_ctx.
  assert (∃ formats,
            mapM (λ x, FormatFromName !! x) (selected (CommandInputs.file_types inputs))
            = Some formats
            ∧ Format.value <$> formats = selected (CommandInputs.file_types inputs)
            ∧ NoDup formats ∧ formats `sublist_of` Format_members)
    as (formats & -> & H1 & H2 & H3).
  { destruct (CommandInputs.file_types inputs)
      as [|[n1 b1] [|[n2 b2] [|[n3 b3] [|[n4 b4] [|[n5 b5] [|[n6 b6] [|? ?]]]]]]];
      try done.
    injection Hnames as -> -> -> -> -> ->.
    destruct b1, b2, b3, b4, b5, b6;
      (eexists; split; [vm_compute; reflexivity|]);
      (split; [reflexivity|]);
      (split; [apply (bool_decide_unpack _); vm_compute; exact I|]);
      repeat first [apply sublist_nil | apply sublist_skip | apply sublist_cons]. }
  eexists. split; [reflexivity|]. cbn [Ctx.formats Ctx.projects Ctx.folder Ctx.app
    Ctx.unhide_all Ctx.save_sketches Ctx.save_all_versions].
  repeat split; try done.
  - intros H. apply elem_of_list_to_set in H. by apply selected_elem_of.
  - intros H. apply elem_of_list_to_set. by apply selected_elem_of.
Qed.

(** X15: a dialog left as the created handler built it exports the native
    archive and STEP, for every project of the application, with all
    versions, bodies unhidden and sketches not saved, into
    [Desktop/Fusion360Export] of the home directory. *)
Theorem command_ctx_defaults home app :
  command_ctx app (command_created home app)
  = Some (Ctx.mk (home // lit "Desktop" // lit "Fusion360Export") [F3D; STEP] app
            (list_to_set (DataProject.name <$> Application.dataProjects app))
            true false true).
Proof.
  unfold command_ctx, command_created.
  cbn [CommandInputs.file_types CommandInputs.projects CommandInputs.directory
       CommandInputs.unhide_all CommandInputs.save_sketches
       CommandInputs.save_all_versions].
  assert (mapM (λ x, FormatFromName !! x)
            (selected ((λ format, ListItem.mk (Format.value format)
                          (bool_decide (format ∈ DEFAULT_SELECTED_FORMATS)))
                       <$> Format_members))
          = Some [F3D; STEP]) as -> by (vm_compute; reflexivity).
  rewrite (list_fmap_compose DataProject.name (λ name, ListItem.mk name true)).
  by rewrite selected_all.
Qed.

Lemma command_ctx_of_dialog_witness :
  ∃ ctx, command_ctx Scenario.app (command_created [lit "home"] Scenario.app) = Some ctx
         ∧ NoDup (Ctx.formats ctx).
Proof.
  destruct (command_ctx_of_dialog Scenario.app
              (command_created [lit "home"] Scenario.app) eq_refl)
    as (ctx & H1 & _ & H2 & _).
  by exists ctx.
Defined.

(** ** A run with nothing to visit *)

Section Nothing.

Variable fromtimestamp : Z → option str.

(** X16: when no project of the application is selected (or there is
    none), [main] only prepares the output: it makes the output directory
    if it is missing, creates or truncates the log file, and returns the
    zero counter; it sends no request to the API, logs nothing and
    changes no other node. *)
Theorem main_nothing_selected ctx w :
  (∀ project, project ∈ Application.dataProjects (Ctx.app ctx) →
              DataProject.name project ∉ Ctx.projects ctx) →
  output_ready ctx w →
  let folder := Ctx.folder ctx in
  let made := match node_at (fs w) folder with
              | Some Dir => fs w
              | _ => <[folder := Dir]> (fs w)
              end in
  main fromtimestamp ctx w
  = (Ok Counter.zero,
     set_fs (λ _, <[folder // (now w ++ lit ".txt") := File []]> made) w).
Proof.
  intros Hnone [Hdir Hlog] folder made. unfold main.
  set (body := λ (project : DataProject.t) (counter : Counter), _).
  assert (∀ acc v, for_each (Application.dataProjects (Ctx.app ctx)) body acc v
                   = (Ok acc, v)) as Hloop.
  { revert Hnone. generalize (Application.dataProjects (Ctx.app ctx)).
    intros l. induction l as [|project l IH]; intros Hnone acc v; [done|].
    simpl. erewrite bind_ok.
    - apply IH. intros p Hp. apply Hnone. by apply list_elem_of_further.
    - subst body. cbv beta.
      rewrite bool_decide_eq_false_2 by apply Hnone, list_elem_of_here.
      apply ret_run. }
  fold folder in Hdir, Hlog |- *. rewrite log_file_path in Hlog |- *.
  set (p := folder ++ [now w ++ lit ".txt"]) in *.
  assert (parent p = folder) as Hpar by apply removelast_last.
  assert (p ≠ folder) as Hne.
  { intros H. apply (f_equal length) in H. subst p. rewrite length_app in H.
    simpl in H. lia. }
  assert (node_at made p = node_at (fs w) p ∧ node_at made folder = Some Dir
          ∧ mkdir folder w = (Ok tt, set_fs (λ _, made) w)) as (Hp & Hf & Hmk).
  { subst made. unfold mkdir. destruct Hdir as [Hd|[Hn Hd]].
    - rewrite Hd. repeat split; try done. by destruct w.
    - rewrite Hn, Hd. rewrite node_at_insert_ne by done.
      rewrite node_at_insert_eq by (by intros E; rewrite E in Hn). done. }
  unfold init_directory, init_logging.
  erewrite bind_ok by (erewrite bind_ok by exact Hmk; apply ret_run).
  erewrite bind_ok; [apply Hloop|].
  erewrite bind_ok by reflexivity. cbv beta. rewrite log_file_path.
  change (now (set_fs _ w)) with (now w). fold p. unfold open_w.
  change (fs (set_fs (λ _, made) w)) with made. rewrite Hp, Hpar, Hf.
  by destruct (node_at (fs w) p) as [[|c]|].
Qed.

End Nothing.

Lemma main_nothing_selected_witness :
  let ctx := Ctx.mk Scenario.out [F3D] Scenario.app ∅ true false true in
  (main Scenario.fromtimestamp ctx Scenario.world).1 = Ok Counter.zero
  ∧ calls (main Scenario.fromtimestamp ctx Scenario.world).2 = [].
Proof.
  intros ctx.
  rewrite (main_nothing_selected Scenario.fromtimestamp ctx Scenario.world).
  - split; reflexivity.
  - intros project _. apply not_elem_of_empty.
  - split; [right; split; vm_compute; reflexivity|]. vm_compute. discriminate.
Defined.

(** ** Closing after the exports *)

Lemma visit_file_closes_witness :
  let r := visit_file Scenario.fromtimestamp Scenario.ctx Scenario.Model
             Failing.world in
  document_of (LazyDocument.mk Scenario.ctx Scenario.Model 0) r.2
  = Some Scenario.document
  ∧ last (calls r.2) = Some (DocumentClose (lit "Model") 1).
Proof.
  intros r.
  pose proof (visit_file_closes_without_sketches Scenario.fromtimestamp Scenario.ctx
                Scenario.Model Failing.world eq_refl eq_refl) as H.
  cbv zeta in H.
  assert (document_of (LazyDocument.mk Scenario.ctx Scenario.Model
                         (length (heap Failing.world)))
            (visit_file Scenario.fromtimestamp Scenario.ctx Scenario.Model
               Failing.world).2 = Some Scenario.document) as Hd
    by (vm_compute; reflexivity).
  rewrite Hd in H. split; [exact Hd|exact H].
Defined.

(** ** With sketches the document is always opened *)

#[global] Instance calls_grow_preorder : PreOrder calls_grow.
Proof.
  split; [intros w; unfold calls_grow; reflexivity|].
  intros w1 w2 w3 H1 H2. unfold calls_grow in *. by etrans.
Qed.

#[global] Instance calls_grow_frame : Frame calls_grow.
Proof.
  split; [apply _|..]; intros; intros w; unfold calls_grow; try reflexivity.
  - simpl. by apply prefix_app_r.
  - unfold mkdir. destruct (node_at (fs w) p) as [[|?]|]; try reflexivity.
    destruct (node_at (fs w) (parent p)) as [[|?]|]; reflexivity.
  - unfold mkdir_parents. destruct (mkdir_from [] p (fs w)); reflexivity.
  - unfold open_w. destruct (node_at (fs w) p) as [[|?]|]; try reflexivity.
    destruct (node_at (fs w) (parent p)) as [[|?]|]; reflexivity.
  - unfold open_a. destruct (node_at (fs w) p) as [[|?]|]; try reflexivity.
    destruct (node_at (fs w) (parent p)) as [[|?]|]; reflexivity.
  - unfold write_a. destruct (node_at (fs w) p) as [[|?]|]; try reflexivity.
    destruct (encodable text); reflexivity.
  - unfold write_artifact.
    destruct (node_at (fs w) p) as [[|?]|];
      destruct (node_at (fs w) (parent p)) as [[|?]|]; reflexivity.
Qed.

#[global] Instance calls_grow_heap_frame : HeapFrame calls_grow.
Proof. intros f w. unfold calls_grow. reflexivity. Qed.

Lemma bind_assoc {A B C} (m : M A) (f : A → M B) (g : B → M C) w :
  ((m ≫= f) ≫= g) w = (m ≫= (λ a, f a ≫= g)) w.
Proof. unfold mbind, M_bind. by destruct (m w) as [[a|e] w1]. Qed.

Section Opens.

Variable fromtimestamp : Z → option str.

(** X18: with "Save Sketches as DXF" ticked the handle is not lazy:
    [visit_file] asks the API to open the document of every [f3d] version
    before it looks at any output path, so also when every output of the
    version exists already. *)
Theorem visit_file_sketches_opens ctx file w :
  Ctx.save_sketches ctx = true →
  DataFile.fileExtension file = lit "f3d" →
  let r := visit_file fromtimestamp ctx file w in
  calls w ++ [DocumentsOpen (DataFile.name file) (DataFile.versionNumber file)]
    `prefix_of` calls r.2.
Proof.
  intros Hsk Hext r. subst r. rewrite visit_file_unfold.
  erewrite bind_ok by apply log_run. rewrite Hext.
  change (negb (str_eqb (lit "f3d") (lit "f3d"))) with false. cbv iota.
  erewrite bind_ok by apply init_run.
  set (w0 := add_log _ w). set (doc := LazyDocument.mk ctx file (length (heap w0))).
  set (w1 := set_heap _ _).
  assert (document_of doc w1 = None) as Hfresh
    by (by apply (fresh_handle_unopened ctx file w0 w1)).
  unfold sketches_stage. rewrite Hsk. rewrite bind_assoc.
  unfold LazyDocument.open at 1. rewrite !bind_assoc.
  erewrite bind_ok by apply get_document_run. rewrite Hfresh.
  rewrite !bind_assoc. erewrite bind_ok by apply log_run.
  rewrite !bind_assoc.
  set (c := DocumentsOpen _ _).
  rewrite (bind_ok _ _ _ tt (add_calls [c] (add_log [LogOpening (DataFile.name file)] w1)))
    by reflexivity.
  match goal with |- _ `prefix_of` calls (?m ?v).2 =>
    assert (keeps calls_grow m) as K end.
  { unfold LazyDocument.set_document, unhide_all_in_document.
    repeat first
      [ progress intros
      | solve [apply _]
      | apply keeps_ret | apply keeps_raise | apply frame_call | apply frame_log
      | apply frame_set_heap
      | apply keeps_unhide_all_in_component | apply keeps_design_from_document
      | apply keeps_rootComponent | apply keeps_sanitize_filename
      | apply keeps_export_sketches | apply keeps_formats_stage_if
      | apply keeps_open | apply keeps_metadata_stage | apply keeps_close
      | apply keeps_bind
      | match goal with
        | |- keeps _ (if ?b then _ else _) => destruct b
        | |- keeps _ (match ?x with _ => _ end) => destruct x
        end ]. }
  etrans; [|apply K]. reflexivity.
Qed.

End Opens.

Lemma visit_file_sketches_opens_witness :
  let r := visit_file Scenario.fromtimestamp Failing.ctx_sketches Scenario.Model
             Exported.world in
  is_Some (node_at (fs Exported.world) (Exported.dir // lit "Model_v1.f3d"))
  ∧ is_Some (node_at (fs Exported.world) (Exported.dir // lit "Model_v1.step"))
  ∧ [DocumentsOpen (lit "Model") 1] `prefix_of` calls r.2.
Proof.
  intros r. split; [vm_compute; by eexists|]. split; [vm_compute; by eexists|].
  apply (visit_file_sketches_opens Scenario.fromtimestamp Failing.ctx_sketches
           Scenario.Model Exported.world eq_refl eq_refl).
Defined.

(** ** What [visit_file_wrapper] counts and when it returns *)

Lemma for_each_bounds {A} (xs : list A) (body : A → Counter → M Counter)
    (lo hi : A → Z) :
  (∀ x acc w acc' w', x ∈ xs → body x acc w = (Ok acc', w') → nonneg acc →
     nonneg acc' ∧ outcomes acc + lo x ≤ outcomes acc' ≤ outcomes acc + hi x) →
  ∀ acc w acc' w', for_each xs body acc w = (Ok acc', w') → nonneg acc →
    nonneg acc'
    ∧ outcomes acc + sumZ (lo <$> xs) ≤ outcomes acc'
      ≤ outcomes acc + sumZ (hi <$> xs).
Proof.
  induction xs as [|x xs IH]; intros Hb acc w acc' w' Hrun Hacc.
  - injection Hrun as <- _. split; [done|simpl; lia].
  - simpl in Hrun. apply bind_inv in Hrun as (a1 & w1 & H1 & Hrun).
    destruct (Hb x acc w a1 w1 (list_elem_of_here _ _) H1 Hacc) as [Hn1 Ho1].
    destruct (IH (λ y a v a' v' Hy, Hb y a v a' v' (list_elem_of_further _ _ _ Hy))
                a1 w1 acc' w' Hrun Hn1) as [Hn Ho].
    split; [done|].
    change (sumZ (lo <$> x :: xs)) with (lo x + sumZ (lo <$> xs)).
    change (sumZ (hi <$> x :: xs)) with (hi x + sumZ (hi <$> xs)). lia.
Qed.

Lemma sumZ_succ {A} (f : A → Z) (l : list A) :
  sumZ ((λ x, f x + 1) <$> l) = sumZ (f <$> l) + Z.of_nat (length l).
Proof.
  induction l as [|x l IH]; [done|].
  change (sumZ ((λ x, f x + 1) <$> x :: l))
    with (f x + 1 + sumZ ((λ x, f x + 1) <$> l)).
  change (sumZ (f <$> x :: l)) with (f x + sumZ (f <$> l)).
  rewrite IH. simpl length. lia.
Qed.

Lemma for_each_total_in {A S} (xs : list A) (body : A → S → M S) :
  (∀ x acc w, x ∈ xs → ∃ acc' w', body x acc w = (Ok acc', w')) →
  ∀ acc w, ∃ acc' w', for_each xs body acc w = (Ok acc', w').
Proof.
  induction xs as [|x xs IH]; intros Hb acc w; simpl; [by eexists _, _|].
  destruct (Hb x acc w (list_elem_of_here _ _)) as (a1 & w1 & E1).
  destruct (IH (λ y a v Hy, Hb y a v (list_elem_of_further _ _ _ Hy)) a1 w1)
    as (a2 & w2 & E2).
  exists a2, w2. by erewrite bind_ok by exact E1.
Qed.

Section Versions.

Variable fromtimestamp : Z → option str.

(** X20: with sketches disabled, [visit_file_wrapper] accounts for every
    version it visits (all of [file.versions] when "Save all versions" is
    ticked, the file itself otherwise): the counter it returns holds, for
    each [f3d] version, one outcome for every requested format and at most
    one for the ledger, and one skip for each version of another
    extension.  When the log file takes the lines of the call, it returns
    unless [doc.close()] raises for one of the versions. *)
Theorem visit_file_wrapper_outcomes ctx file w :
  Ctx.save_sketches ctx = false →
  let versions := if Ctx.save_all_versions ctx then DataFile.versions file
                  else [file] in
  let r := visit_file_wrapper fromtimestamp ctx file w in
  (∀ c, r.1 = Ok c →
     nonneg c
     ∧ items_file ctx file ≤ outcomes c
       ≤ items_file ctx file + Z.of_nat (length versions))
  ∧ ((∀ v d, v ∈ versions → DataFile.document v = Some d →
             Document.close d = true) →
     log_takes w r.2 →
     ∃ c, r.1 = Ok c).
Proof.
  intros Hsk versions r. subst versions r. unfold visit_file_wrapper, items_file.
  erewrite bind_ok by apply log_run. set (w0 := add_log _ w).
  destruct (Ctx.save_all_versions ctx).
  - set (body := λ (v : DataFile.t) (counter : Counter), _). split.
    + intros c Hc.
      assert (for_each (DataFile.versions file) body Counter.zero w0
              = (Ok c, (for_each (DataFile.versions file) body Counter.zero w0).2))
        as Hrun by (rewrite <- Hc; apply surjective_pairing).
      eapply (for_each_bounds (DataFile.versions file) body (items_version ctx)
                (λ v, items_version ctx v + 1)) in Hrun; [| |exact nonneg_zero].
      * rewrite sumZ_succ in Hrun. change (outcomes Counter.zero) with 0 in Hrun.
        destruct Hrun as [Hn Ho]. split; [done|lia].
      * intros v acc v0 acc' v1 _ Hstep Hacc. subst body. cbv beta in Hstep.
        apply bind_inv in Hstep as (c1 & v2 & Hc1 & Hstep). injection Hstep as <- _.
        apply (visit_file_counts fromtimestamp ctx v v0 c1 v2 Hsk) in Hc1 as [Hn1 Ho1].
        split; [by apply nonneg_iadd|]. rewrite outcomes_iadd. lia.
    + intros Hclose _.
      destruct (for_each_total_in (DataFile.versions file) body) with
        (acc := Counter.zero) (w := w0) as (c & w' & E).
      * intros v acc v0 Hin. subst body. cbv beta.
        destruct (visit_file_returns_if fromtimestamp ctx v v0 Hsk
                    (λ d, Hclose v d Hin)) as (c1 & v2 & E1).
        eexists _, _. erewrite bind_ok by exact E1. apply ret_run.
      * exists c. by rewrite E.
  - split.
    + intros c Hc.
      destruct (visit_file_counts fromtimestamp ctx file w0 c
                  (visit_file fromtimestamp ctx file w0).2 Hsk) as [Hn Ho].
      { rewrite <- Hc. apply surjective_pairing. }
      split; [done|]. simpl length. lia.
    + intros Hclose _.
      destruct (visit_file_returns_if fromtimestamp ctx file w0 Hsk) as (c & w' & ->).
      * intros d. apply Hclose. apply list_elem_of_here.
      * by exists c.
Qed.

End Versions.

Lemma visit_file_wrapper_outcomes_witness :
  let r := visit_file_wrapper Scenario.fromtimestamp Scenario.ctx Scenario.Model
             Failing.world in
  Ctx.save_sketches Scenario.ctx = false
  ∧ log_takes Failing.world r.2
  ∧ (∃ c, r.1 = Ok c)
  ∧ ∀ c, r.1 = Ok c → 2 ≤ outcomes c ≤ 2 + 1.
Proof.
  intros r. split; [reflexivity|].
  assert (log_takes Failing.world r.2) as Hlog by (vm_compute; reflexivity).
  split; [exact Hlog|].
  destruct (visit_file_wrapper_outcomes Scenario.fromtimestamp Scenario.ctx
              Scenario.Model Failing.world eq_refl) as [Hcount Hret].
  split.
  - apply Hret; [|exact Hlog]. intros v d Hv Hd.
    apply elem_of_cons in Hv as [->|Hv]; [|by apply elem_of_nil in Hv].
    injection Hd as <-. reflexivity.
  - intros c Hc. exact (proj2 (Hcount c Hc)).
Defined.
